(** * ggwave, examples/arduino-rx-web: device negotiation and the TX/RX tick

    A shallow embedding of [GGWave_init], [GGWave_mainLoop] and
    [GGWave_deinit] of [examples/arduino-rx-web/arduino-rx-web.cpp], of the
    functions the file exports to the page, and of [main] with its two
    closures.

    The program keeps its state in file-level globals and in two
    function-local statics; it talks to the SDL audio subsystem and to the
    [GGWave] modem engine.  The embedding threads one [World] record through
    a state-and-failure monad:
    - the globals and the statics are fields of [World];
    - the SDL audio subsystem is a finite map from device ids to devices
      (pause flag and byte queue), changed only through [sdl_step];
    - the engine is an interface ([ModemEngine]) the development is
      parametric in;
    - every SDL audio call and every engine call is appended to a trace,
      every console line to a console log;
    - a run that would dereference the null engine pointer or write past the
      end of the static receive buffer has no result ([None]). *)

From Stdlib Require Import ZArith QArith List Ascii String Bool Lia.
From stdpp Require Import base option list gmap strings.
Import ListNotations.

#[local] Open Scope Z_scope.

(** ** Machine integers *)

(** [(int) u] for a [Uint32] value [u], two's complement. *)
Definition to_int (u : Z) : Z :=
  let r := u mod 2 ^ 32 in if r <? 2 ^ 31 then r else r - 2 ^ 32.

(** [(Uint32) i] for an [int] value [i]. *)
Definition to_u32 (i : Z) : Z := i mod 2 ^ 32.

(** ** Single precision

    The [float] values of the negotiation are sample rates.  They are kept
    at whole values, in [Z]; what single precision does to them is written
    out: a [float] has a significand of 24 bits, and a conversion or a sum
    rounds to the nearest such value, ties to the even significand. *)

(** [(float) i] for an [int] value [i]. *)
Definition float_of_int (i : Z) : Z :=
  let a := Z.abs i in
  if a <? 2 ^ 24 then i
  else
    let ulp := 2 ^ (Z.log2 a - 23) in
    let q := a / ulp in
    let r := a mod ulp in
    let q := if 2 * r <? ulp then q
             else if ulp <? 2 * r then q + 1
             else if Z.even q then q else q + 1 in
    Z.sgn i * (q * ulp).

(** [x + y] for two [float] values. *)
Definition float_add (x y : Z) : Z := float_of_int (x + y).

(** [(int) x] for a [float] value [x]: the fraction is dropped, so a whole
    value is kept.  (C++ defines no result for a value outside the range of
    [int]; the model keeps the value there too.) *)
Definition int_of_float (x : Z) : Z := x.

(** ** Sample formats *)

(** [SDL_AudioFormat] is a [Uint16].  The six format constants the program
    names come from [SDL_audio.h], which is not part of the sources; they are
    taken as parameters.  A C++ [switch] only compiles when its case labels
    are pairwise different, which is the one law of the class. *)
Class SDL_AudioFormats := {
  AUDIO_U8 : Z;
  AUDIO_S8 : Z;
  AUDIO_U16SYS : Z;
  AUDIO_S16SYS : Z;
  AUDIO_S32SYS : Z;
  AUDIO_F32SYS : Z;
  audio_formats_distinct :
    NoDup [AUDIO_U8; AUDIO_S8; AUDIO_U16SYS; AUDIO_S16SYS; AUDIO_S32SYS; AUDIO_F32SYS]
}.

(** The values of [SDL_audio.h] on a little-endian host, where the
    [..SYS] names are the [..LSB] ones. *)
Instance sdl_formats_le : SDL_AudioFormats := {|
  AUDIO_U8 := 0x0008;
  AUDIO_S8 := 0x8008;
  AUDIO_U16SYS := 0x0010;
  AUDIO_S16SYS := 0x8010;
  AUDIO_S32SYS := 0x8020;
  AUDIO_F32SYS := 0x8120;
  audio_formats_distinct :=
    bool_decide_unpack (NoDup [0x0008; 0x8008; 0x0010; 0x8010; 0x8020; 0x8120]) I
|}.

(** [GGWave::SampleFormat] ([ggwave_SampleFormat] of [ggwave.h]). *)
Inductive SampleFormat :=
| GGWAVE_SAMPLE_FORMAT_UNDEFINED
| GGWAVE_SAMPLE_FORMAT_U8
| GGWAVE_SAMPLE_FORMAT_I8
| GGWAVE_SAMPLE_FORMAT_U16
| GGWAVE_SAMPLE_FORMAT_I16
| GGWAVE_SAMPLE_FORMAT_F32.

#[global] Instance SampleFormat_eq_dec : EqDecision SampleFormat.
Proof. solve_decision. Defined.

Section FormatAdapter.
Context `{SDL_AudioFormats}.

(** The first [switch] of [GGWave_init], on [g_obtainedSpecInp.format]
    (lines 203 and 206-213): the variable starts as UNDEFINED and a
    matching case overwrites it. *)
Definition sampleFormatInp_of (format : Z) : SampleFormat :=
  if format =? AUDIO_U8 then GGWAVE_SAMPLE_FORMAT_U8
  else if format =? AUDIO_S8 then GGWAVE_SAMPLE_FORMAT_I8
  else if format =? AUDIO_U16SYS then GGWAVE_SAMPLE_FORMAT_U16
  else if format =? AUDIO_S16SYS then GGWAVE_SAMPLE_FORMAT_I16
  else if format =? AUDIO_S32SYS then GGWAVE_SAMPLE_FORMAT_F32
  else if format =? AUDIO_F32SYS then GGWAVE_SAMPLE_FORMAT_F32
  else GGWAVE_SAMPLE_FORMAT_UNDEFINED.

(** The second [switch], on [g_obtainedSpecOut.format] (lines 204 and
    215-223); its stray second [break] is unreachable. *)
Definition sampleFormatOut_of (format : Z) : SampleFormat :=
  if format =? AUDIO_U8 then GGWAVE_SAMPLE_FORMAT_U8
  else if format =? AUDIO_S8 then GGWAVE_SAMPLE_FORMAT_I8
  else if format =? AUDIO_U16SYS then GGWAVE_SAMPLE_FORMAT_U16
  else if format =? AUDIO_S16SYS then GGWAVE_SAMPLE_FORMAT_I16
  else if format =? AUDIO_S32SYS then GGWAVE_SAMPLE_FORMAT_F32
  else if format =? AUDIO_F32SYS then GGWAVE_SAMPLE_FORMAT_F32
  else GGWAVE_SAMPLE_FORMAT_UNDEFINED.

(** The formats the two switches name. *)
Definition recognized_formats : list Z :=
  [AUDIO_U8; AUDIO_S8; AUDIO_U16SYS; AUDIO_S16SYS; AUDIO_S32SYS; AUDIO_F32SYS].

End FormatAdapter.

(** ** The SDL audio subsystem *)

Abbreviation byte := Byte.byte.

(** [SDL_bool]. *)
Definition SDL_FALSE : bool := false.
Definition SDL_TRUE : bool := true.

(** [SDL_AudioDeviceID] is a [Uint32]; 0 is never a valid device. *)
Abbreviation SDL_AudioDeviceID := N.

(** [SDL_AudioSpec] without its callback and userdata pointers, which the
    program leaves null. *)
Record SDL_AudioSpec := {
  spec_freq : Z;
  spec_format : Z;
  spec_channels : Z;
  spec_silence : Z;
  spec_samples : Z;
  spec_size : Z
}.

(** [SDL_zero(spec)]. *)
Definition SDL_zero : SDL_AudioSpec :=
  {| spec_freq := 0; spec_format := 0; spec_channels := 0;
     spec_silence := 0; spec_samples := 0; spec_size := 0 |}.

Definition with_request (freq format samples : Z) (s : SDL_AudioSpec) : SDL_AudioSpec :=
  {| spec_freq := freq; spec_format := format; spec_channels := spec_channels s;
     spec_silence := spec_silence s; spec_samples := samples; spec_size := spec_size s |}.

Definition with_channels (channels : Z) (s : SDL_AudioSpec) : SDL_AudioSpec :=
  {| spec_freq := spec_freq s; spec_format := spec_format s; spec_channels := channels;
     spec_silence := spec_silence s; spec_samples := spec_samples s; spec_size := spec_size s |}.

(** An open audio device: its pause flag and the bytes in its queue (the
    program opens both devices without a callback, so SDL queues). *)
Record AudioDevice := {
  dev_paused : bool;
  dev_queue : list byte
}.

(** What the platform answers during one negotiation: the result of
    [SDL_Init], the device lists, and for an open request either the spec the
    hardware grants or a refusal.  SDL is not part of the sources, and a
    refused request may or may not have written to [*obtained] by the time
    it fails: [hw_refused] is what it has written, if anything. *)
Record Hardware := {
  hw_init : Z;
  hw_num_devices : bool -> Z;
  hw_device_name : Z -> bool -> option string;
  hw_open : option string -> bool -> SDL_AudioSpec -> option SDL_AudioSpec;
  hw_refused : option string -> bool -> SDL_AudioSpec -> option SDL_AudioSpec
}.

(** ** The modem engine *)

(** [GGWave::Parameters], in the order of the initializer at lines 231-241;
    the three rates are [float]s at whole values. *)
Record Parameters := {
  p_payloadLength : Z;
  p_sampleRateInp : Z;
  p_sampleRateOut : Z;
  p_sampleRate : Z;
  p_samplesPerFrame : Z;
  p_soundMarkerThreshold : Q;
  p_sampleFormatInp : SampleFormat;
  p_sampleFormatOut : SampleFormat;
  p_operatingMode : Z
}.

(** Modelled from the spec: the [GGWave] class of [ggwave.h] is not part of
    the sources.  The interface lists the members the program uses: the
    constants of the class, its constructor, and its methods as functions on
    the engine state.  [encode] stands for the pair of calls [encode()] and
    [txWaveform()]: it yields the [nBytes] bytes of the waveform buffer
    ("produceWaveform() -> (buffer, byteLength)"). *)
Class ModemEngine (E : Type) := {
  kDefaultSampleRate : Z;
  kDefaultSoundMarkerThreshold : Q;
  GGWAVE_OPERATING_MODE_RX_AND_TX : Z;
  GGWAVE_OPERATING_MODE_USE_DSS : Z;
  GGWave_new : Parameters -> E;
  init : list byte -> Z -> Z -> E -> bool * E;
  txHasData : E -> bool;
  samplesPerFrame : E -> Z;
  sampleSizeInp : E -> Z;
  sampleSizeOut : E -> Z;
  encode : E -> list byte * E;
  decode : list byte -> E -> bool * E;
  rxTakeData : E -> (Z * list byte) * E
}.

(** ** Observable actions *)

(** Calls into the SDL audio subsystem that can change it, and calls into
    the engine, in program order. *)
Inductive Event :=
| EvInit (result : Z)
| EvOpenAudioDevice (name : option string) (iscapture : bool)
    (desired : SDL_AudioSpec) (result : SDL_AudioDeviceID)
| EvCloseAudioDevice (dev : SDL_AudioDeviceID)
| EvPauseAudioDevice (dev : SDL_AudioDeviceID) (pause_on : bool)
| EvQueueAudio (dev : SDL_AudioDeviceID) (data : list byte)
| EvDequeueAudio (dev : SDL_AudioDeviceID) (len : Z)
| EvClearQueuedAudio (dev : SDL_AudioDeviceID)
| EvNew (parameters : Parameters)
| EvDelete
| EvTxInit (text : list byte) (protocolId volume : Z)
| EvEncode
| EvDecode (data : list byte)
| EvTakeData.

(** Console lines, one constructor per [printf], [fprintf] or
    [SDL_LogError] of the three functions. *)
Inductive Message :=
| MsgCouldntInitializeSDL
| MsgFoundDevices (iscapture : bool) (n : Z)
| MsgDeviceName (iscapture : bool) (i : Z) (name : option string)
| MsgInitializingPlayback
| MsgAttemptOpen (iscapture : bool) (id : Z) (name : option string)
| MsgAttemptOpenDefault (iscapture : bool)
| MsgCouldntOpen (iscapture : bool)
| MsgObtainedSpec (iscapture : bool) (dev : SDL_AudioDeviceID)
    (obtained required : SDL_AudioSpec)
| MsgFailedToInitializePlayback
| MsgWarningDecodeFailed
| MsgReceived (rxData : list byte)
| MsgWarningSlowProcessing (queued : Z).

(** The lines that go to the error stream. *)
Definition is_stderr (m : Message) : bool :=
  match m with
  | MsgCouldntInitializeSDL | MsgFailedToInitializePlayback
  | MsgWarningDecodeFailed | MsgWarningSlowProcessing _ => true
  | _ => false
  end.

(** *** Effect of an action on the audio subsystem *)

Definition set_paused (pause_on : bool) (d : AudioDevice) : AudioDevice :=
  {| dev_paused := pause_on; dev_queue := dev_queue d |}.

Definition enqueue (data : list byte) (d : AudioDevice) : AudioDevice :=
  {| dev_paused := dev_paused d; dev_queue := dev_queue d ++ data |}.

Definition dequeue (len : Z) (d : AudioDevice) : AudioDevice :=
  {| dev_paused := dev_paused d; dev_queue := drop (Z.to_nat len) (dev_queue d) |}.

Definition clear_queue (d : AudioDevice) : AudioDevice :=
  {| dev_paused := dev_paused d; dev_queue := [] |}.

(** A device starts out paused, with an empty queue. *)
Definition fresh_device : AudioDevice := {| dev_paused := true; dev_queue := [] |}.

(** A call on an id that is not open changes nothing ([alter] on a missing
    key), as SDL does for an invalid device id. *)
Definition sdl_step (ev : Event) (s : gmap N AudioDevice) : gmap N AudioDevice :=
  match ev with
  | EvOpenAudioDevice _ _ _ dev => if (dev =? 0)%N then s else <[dev := fresh_device]> s
  | EvCloseAudioDevice dev => delete dev s
  | EvPauseAudioDevice dev pause_on => alter (set_paused pause_on) dev s
  | EvQueueAudio dev data => alter (enqueue data) dev s
  | EvDequeueAudio dev len => alter (dequeue len) dev s
  | EvClearQueuedAudio dev => alter clear_queue dev s
  | _ => s
  end.

(** The audio subsystem after a sequence of actions. *)
Definition replay (evs : list Event) (s : gmap N AudioDevice) : gmap N AudioDevice :=
  fold_left (fun s ev => sdl_step ev s) evs s.

(** The bytes queued on a device; none on an id that is not open. *)
Definition queue_of (dev : SDL_AudioDeviceID) (s : gmap N AudioDevice) : list byte :=
  match s !! dev with Some d => dev_queue d | None => [] end.

Definition queued_bytes (dev : SDL_AudioDeviceID) (s : gmap N AudioDevice) : Z :=
  Z.of_nat (length (queue_of dev s)).

(** A device is running when it is open and not paused. *)
Definition unpaused (dev : SDL_AudioDeviceID) (s : gmap N AudioDevice) : bool :=
  match s !! dev with Some d => negb (dev_paused d) | None => false end.

(** SDL hands out the lowest free id from 2 on, out of 16 slots; id 1 is
    the device of the legacy [SDL_OpenAudio] interface. *)
Definition free_device_id (s : gmap N AudioDevice) : option SDL_AudioDeviceID :=
  List.find (fun id => bool_decide (s !! id = None)) (List.map N.of_nat (seq 2 15)).

(** ** Time *)

(** Clock readings are in microseconds.  Modelled from the spec:
    [getTime_ms] of [ggwave-common.h] is not part of the sources; it is the
    elapsed time between two readings in milliseconds, here a rational. *)
Definition getTime_ms (tStart tEnd : Z) : Q := Qmake (tEnd - tStart) 1000.

(** [x > y] on elapsed times. *)
Definition Qgtb (x y : Q) : bool := negb (Qle_bool x y).

(** ** Program state *)

Section Program.
Context {E : Type} `{ModemEngine E} `{SDL_AudioFormats}.

(** The globals of the anonymous namespace (lines 23-31), the two statics
    of [GGWave_mainLoop] (lines 257 and 265; [None] until control first
    passes their declaration), the clock, the audio subsystem, and the two
    logs. *)
Record World := {
  g_defaultCaptureDeviceName : string;
  g_devIdInp : SDL_AudioDeviceID;
  g_devIdOut : SDL_AudioDeviceID;
  g_obtainedSpecInp : SDL_AudioSpec;
  g_obtainedSpecOut : SDL_AudioSpec;
  g_ggWave : option E;
  tLastNoData : option Z;
  dataInp : option (list byte);
  clock : Z;
  sdl : gmap N AudioDevice;
  trace : list Event;
  console : list Message
}.

Definition set_defaultCaptureDeviceName (v : string) (w : World) : World :=
  {| g_defaultCaptureDeviceName := v; g_devIdInp := g_devIdInp w;
     g_devIdOut := g_devIdOut w; g_obtainedSpecInp := g_obtainedSpecInp w;
     g_obtainedSpecOut := g_obtainedSpecOut w; g_ggWave := g_ggWave w;
     tLastNoData := tLastNoData w; dataInp := dataInp w; clock := clock w;
     sdl := sdl w; trace := trace w; console := console w |}.

Definition set_devIdInp (v : SDL_AudioDeviceID) (w : World) : World :=
  {| g_defaultCaptureDeviceName := g_defaultCaptureDeviceName w; g_devIdInp := v;
     g_devIdOut := g_devIdOut w; g_obtainedSpecInp := g_obtainedSpecInp w;
     g_obtainedSpecOut := g_obtainedSpecOut w; g_ggWave := g_ggWave w;
     tLastNoData := tLastNoData w; dataInp := dataInp w; clock := clock w;
     sdl := sdl w; trace := trace w; console := console w |}.

Definition set_devIdOut (v : SDL_AudioDeviceID) (w : World) : World :=
  {| g_defaultCaptureDeviceName := g_defaultCaptureDeviceName w;
     g_devIdInp := g_devIdInp w; g_devIdOut := v;
     g_obtainedSpecInp := g_obtainedSpecInp w;
     g_obtainedSpecOut := g_obtainedSpecOut w; g_ggWave := g_ggWave w;
     tLastNoData := tLastNoData w; dataInp := dataInp w; clock := clock w;
     sdl := sdl w; trace := trace w; console := console w |}.

Definition set_obtainedSpecInp (v : SDL_AudioSpec) (w : World) : World :=
  {| g_defaultCaptureDeviceName := g_defaultCaptureDeviceName w;
     g_devIdInp := g_devIdInp w; g_devIdOut := g_devIdOut w;
     g_obtainedSpecInp := v; g_obtainedSpecOut := g_obtainedSpecOut w;
     g_ggWave := g_ggWave w; tLastNoData := tLastNoData w;
     dataInp := dataInp w; clock := clock w;
     sdl := sdl w; trace := trace w; console := console w |}.

Definition set_obtainedSpecOut (v : SDL_AudioSpec) (w : World) : World :=
  {| g_defaultCaptureDeviceName := g_defaultCaptureDeviceName w;
     g_devIdInp := g_devIdInp w; g_devIdOut := g_devIdOut w;
     g_obtainedSpecInp := g_obtainedSpecInp w; g_obtainedSpecOut := v;
     g_ggWave := g_ggWave w; tLastNoData := tLastNoData w;
     dataInp := dataInp w; clock := clock w;
     sdl := sdl w; trace := trace w; console := console w |}.

Definition set_ggWave (v : option E) (w : World) : World :=
  {| g_defaultCaptureDeviceName := g_defaultCaptureDeviceName w;
     g_devIdInp := g_devIdInp w; g_devIdOut := g_devIdOut w;
     g_obtainedSpecInp := g_obtainedSpecInp w;
     g_obtainedSpecOut := g_obtainedSpecOut w; g_ggWave := v;
     tLastNoData := tLastNoData w; dataInp := dataInp w; clock := clock w;
     sdl := sdl w; trace := trace w; console := console w |}.

Definition set_tLastNoData (v : option Z) (w : World) : World :=
  {| g_defaultCaptureDeviceName := g_defaultCaptureDeviceName w;
     g_devIdInp := g_devIdInp w; g_devIdOut := g_devIdOut w;
     g_obtainedSpecInp := g_obtainedSpecInp w;
     g_obtainedSpecOut := g_obtainedSpecOut w; g_ggWave := g_ggWave w;
     tLastNoData := v; dataInp := dataInp w; clock := clock w;
     sdl := sdl w; trace := trace w; console := console w |}.

Definition set_dataInp (v : option (list byte)) (w : World) : World :=
  {| g_defaultCaptureDeviceName := g_defaultCaptureDeviceName w;
     g_devIdInp := g_devIdInp w; g_devIdOut := g_devIdOut w;
     g_obtainedSpecInp := g_obtainedSpecInp w;
     g_obtainedSpecOut := g_obtainedSpecOut w; g_ggWave := g_ggWave w;
     tLastNoData := tLastNoData w; dataInp := v; clock := clock w;
     sdl := sdl w; trace := trace w; console := console w |}.

Definition set_clock (v : Z) (w : World) : World :=
  {| g_defaultCaptureDeviceName := g_defaultCaptureDeviceName w;
     g_devIdInp := g_devIdInp w; g_devIdOut := g_devIdOut w;
     g_obtainedSpecInp := g_obtainedSpecInp w;
     g_obtainedSpecOut := g_obtainedSpecOut w; g_ggWave := g_ggWave w;
     tLastNoData := tLastNoData w; dataInp := dataInp w; clock := v;
     sdl := sdl w; trace := trace w; console := console w |}.

Definition set_sdl (v : gmap N AudioDevice) (w : World) : World :=
  {| g_defaultCaptureDeviceName := g_defaultCaptureDeviceName w;
     g_devIdInp := g_devIdInp w; g_devIdOut := g_devIdOut w;
     g_obtainedSpecInp := g_obtainedSpecInp w;
     g_obtainedSpecOut := g_obtainedSpecOut w; g_ggWave := g_ggWave w;
     tLastNoData := tLastNoData w; dataInp := dataInp w; clock := clock w;
     sdl := v; trace := trace w; console := console w |}.

Definition set_trace (v : list Event) (w : World) : World :=
  {| g_defaultCaptureDeviceName := g_defaultCaptureDeviceName w;
     g_devIdInp := g_devIdInp w; g_devIdOut := g_devIdOut w;
     g_obtainedSpecInp := g_obtainedSpecInp w;
     g_obtainedSpecOut := g_obtainedSpecOut w; g_ggWave := g_ggWave w;
     tLastNoData := tLastNoData w; dataInp := dataInp w; clock := clock w;
     sdl := sdl w; trace := v; console := console w |}.

Definition set_console (v : list Message) (w : World) : World :=
  {| g_defaultCaptureDeviceName := g_defaultCaptureDeviceName w;
     g_devIdInp := g_devIdInp w; g_devIdOut := g_devIdOut w;
     g_obtainedSpecInp := g_obtainedSpecInp w;
     g_obtainedSpecOut := g_obtainedSpecOut w; g_ggWave := g_ggWave w;
     tLastNoData := tLastNoData w; dataInp := dataInp w; clock := clock w;
     sdl := sdl w; trace := trace w; console := v |}.

(** The state at program start: the initializers of lines 23-31, no device
    open, nothing logged. *)
Definition initial_world : World :=
  {| g_defaultCaptureDeviceName := EmptyString; g_devIdInp := 0%N; g_devIdOut := 0%N;
     g_obtainedSpecInp := SDL_zero; g_obtainedSpecOut := SDL_zero;
     g_ggWave := None; tLastNoData := None; dataInp := None; clock := 0;
     sdl := ∅; trace := []; console := [] |}.

(** ** The monad: state, with [None] for undefined behaviour *)

Definition M (A : Type) : Type := World -> option (A * World).

Definition ret {A} (a : A) : M A := fun w => Some (a, w).

Definition bind {A B} (m : M A) (k : A -> M B) : M B :=
  fun w => match m w with Some (a, w') => k a w' | None => None end.

Definition undefined {A} : M A := fun _ => None.

Definition gets {A} (f : World -> A) : M A := fun w => Some (f w, w).

Definition modify (f : World -> World) : M unit := fun w => Some (tt, f w).

End Program.

Arguments World E : clear implicits.
Arguments M E A : clear implicits.

Declare Scope prog_scope.
Delimit Scope prog_scope with prog.
Notation "x <- m ;; k" := (bind m (fun x => k))
  (at level 100, m at next level, right associativity) : prog_scope.
Notation "m ;; k" := (bind m (fun _ => k))
  (at level 100, right associativity) : prog_scope.

Section Operations.
Context {E : Type} `{ModemEngine E} `{SDL_AudioFormats}.
#[local] Open Scope prog_scope.

(** *** Primitive operations *)

(** An action is logged and takes effect on the audio subsystem. *)
Definition log_event (ev : Event) (w : World E) : World E :=
  set_trace (trace w ++ [ev]) (set_sdl (sdl_step ev (sdl w)) w).

Definition emit (ev : Event) : M E unit := modify (log_event ev).

Definition log_line (m : Message) (w : World E) : World E :=
  set_console (console w ++ [m]) w.

Definition print (m : Message) : M E unit := modify (log_line m).

(** [std::chrono::high_resolution_clock::now()]. *)
Definition now : M E Z := gets clock.

Definition SDL_Init (hw : Hardware) : M E Z :=
  emit (EvInit (hw_init hw)) ;; ret (hw_init hw).

(** [SDL_OpenAudioDevice(name, iscapture, &desired, &obtained, 0)]: on
    success the new id and the granted spec; on failure id 0 and what the
    failed call has written.  The second component, when there is one, is
    what the caller finds in [obtained]. *)
Definition SDL_OpenAudioDevice (hw : Hardware) (name : option string)
    (iscapture : bool) (desired : SDL_AudioSpec)
    : M E (SDL_AudioDeviceID * option SDL_AudioSpec) :=
  free <- gets (fun w => free_device_id (sdl w)) ;;
  match hw_open hw name iscapture desired, free with
  | Some obtained, Some dev =>
      emit (EvOpenAudioDevice name iscapture desired dev) ;; ret (dev, Some obtained)
  | _, _ =>
      emit (EvOpenAudioDevice name iscapture desired 0%N) ;;
      ret (0%N, hw_refused hw name iscapture desired)
  end.

Definition SDL_CloseAudioDevice (dev : SDL_AudioDeviceID) : M E unit :=
  emit (EvCloseAudioDevice dev).

(** [SDL_CloseAudio()] closes the device of the legacy interface, id 1. *)
Definition SDL_CloseAudio : M E unit := SDL_CloseAudioDevice 1%N.

Definition SDL_PauseAudioDevice (dev : SDL_AudioDeviceID) (pause_on : bool) : M E unit :=
  emit (EvPauseAudioDevice dev pause_on).

(** The queued byte count, a [Uint32]. *)
Definition SDL_GetQueuedAudioSize (dev : SDL_AudioDeviceID) : M E Z :=
  gets (fun w => to_u32 (queued_bytes dev (sdl w))).

Definition SDL_QueueAudio (dev : SDL_AudioDeviceID) (data : list byte) : M E unit :=
  emit (EvQueueAudio dev data).

(** [SDL_DequeueAudio(dev, data, len)] removes up to [len] bytes from the
    front of the queue; the result is the bytes it copies to [data]. *)
Definition SDL_DequeueAudio (dev : SDL_AudioDeviceID) (len : Z) : M E (list byte) :=
  taken <- gets (fun w => take (Z.to_nat len) (queue_of dev (sdl w))) ;;
  emit (EvDequeueAudio dev len) ;;
  ret taken.

Definition SDL_ClearQueuedAudio (dev : SDL_AudioDeviceID) : M E unit :=
  emit (EvClearQueuedAudio dev).

(** [g_ggWave->]: undefined on the null pointer. *)
Definition ggWave : M E E :=
  o <- gets g_ggWave ;;
  match o with Some e => ret e | None => undefined end.

(** A [const] method of the engine. *)
Definition ggWave_get {A} (f : E -> A) : M E A :=
  e <- ggWave ;; ret (f e).

(** A method that changes the engine. *)
Definition ggWave_call {A} (ev : Event) (f : E -> A * E) : M E A :=
  e <- ggWave ;;
  emit ev ;;
  modify (set_ggWave (Some (snd (f e)))) ;;
  ret (fst (f e)).

(** [static auto tLastNoData = now();] (line 257): the first pass reads the
    clock, later passes keep the stored value. *)
Definition static_tLastNoData : M E Z :=
  o <- gets tLastNoData ;;
  match o with
  | Some t => ret t
  | None => t <- now ;; modify (set_tLastNoData (Some t)) ;; ret t
  end.

(** [static std::vector<uint8_t> dataInp(nNeed);] (line 265): the first pass
    allocates [nNeed] zero bytes (a negative count has no valid vector), later
    passes keep the vector, whatever [nNeed] is by then. *)
Definition static_dataInp (nNeed : Z) : M E unit :=
  o <- gets dataInp ;;
  match o with
  | Some _ => ret tt
  | None =>
      if nNeed <? 0 then undefined
      else modify (set_dataInp (Some (replicate (Z.to_nat nNeed) Byte.x00)))
  end.

(** The bytes [SDL_DequeueAudio] copies to [dataInp.data()] overwrite the
    front of the vector; copying more bytes than the vector holds is
    undefined. *)
Definition write_dataInp (taken : list byte) : M E unit :=
  o <- gets dataInp ;;
  match o with
  | Some buf =>
      if (length buf <? length taken)%nat then undefined
      else modify (set_dataInp (Some (taken ++ drop (length taken) buf)))
  | None => undefined
  end.

(** [dataInp.data(), dataInp.size()]: the whole vector. *)
Definition read_dataInp : M E (list byte) :=
  o <- gets dataInp ;;
  match o with Some buf => ret buf | None => undefined end.

(** *** The scheduler tick *)

(** [samplesPerFrame()*sampleSizeOut()] and [samplesPerFrame()*sampleSizeInp()]:
    the bytes of one output frame and of one input frame ([nNeed]).  The
    products are taken in [Z]; in the source they are [int] products. *)
Definition frameBytesOut (e : E) : Z := samplesPerFrame e * sampleSizeOut e.
Definition frameBytesInp (e : E) : Z := samplesPerFrame e * sampleSizeInp e.

(** [GGWave_mainLoop] (lines 249-300). *)
Definition GGWave_mainLoop : M E bool :=
  devIdInp <- gets g_devIdInp ;;
  devIdOut <- gets g_devIdOut ;;
  if (devIdInp =? 0)%N && (devIdOut =? 0)%N then ret false
  else
    hasData <- ggWave_get txHasData ;;
    (if negb hasData then
       SDL_PauseAudioDevice devIdOut SDL_FALSE ;;
       tLast <- static_tLastNoData ;;
       tNow <- now ;;
       queuedOut <- SDL_GetQueuedAudioSize devIdOut ;;
       frameOut <- ggWave_get frameBytesOut ;;
       if to_int queuedOut <? frameOut then
         SDL_PauseAudioDevice devIdInp SDL_FALSE ;;
         queuedInp <- SDL_GetQueuedAudioSize devIdInp ;;
         nNeed <- ggWave_get frameBytesInp ;;
         let nHave := to_int queuedInp in
         if Qgtb (getTime_ms tLast tNow) 500 && (nNeed <=? nHave) then
           static_dataInp nNeed ;;
           taken <- SDL_DequeueAudio devIdInp (to_u32 nNeed) ;;
           write_dataInp taken ;;
           data <- read_dataInp ;;
           ok <- ggWave_call (EvDecode data) (decode data) ;;
           (if negb ok then print MsgWarningDecodeFailed
            else
              rx <- ggWave_call EvTakeData rxTakeData ;;
              if 0 <? fst rx then print (MsgReceived (snd rx)) else ret tt) ;;
           if 32 * nNeed <? nHave then
             queued <- SDL_GetQueuedAudioSize devIdInp ;;
             print (MsgWarningSlowProcessing queued) ;;
             SDL_ClearQueuedAudio devIdInp
           else ret tt
         else SDL_ClearQueuedAudio devIdInp
       else modify (set_tLastNoData (Some tNow))
     else
       SDL_PauseAudioDevice devIdOut SDL_TRUE ;;
       SDL_PauseAudioDevice devIdInp SDL_TRUE ;;
       waveform <- ggWave_call EvEncode encode ;;
       SDL_QueueAudio devIdOut waveform) ;;
    ret true.

(** *** Negotiation *)

(** How a block of [GGWave_init] ends: with a [return], or by falling
    through with the current value of the local [reinit]. *)
Inductive Flow :=
| Return (result : bool)
| Continue (reinit : bool).

Fixpoint for_each {A} (l : list A) (body : A -> M E unit) : M E unit :=
  match l with
  | [] => ret tt
  | x :: l' => body x ;; for_each l' body
  end.

(** The two device listings (lines 108-121). *)
Definition list_devices (hw : Hardware) (iscapture : bool) : M E unit :=
  let nDevices := hw_num_devices hw iscapture in
  print (MsgFoundDevices iscapture nDevices) ;;
  for_each (seqZ 0 nDevices)
    (fun i => print (MsgDeviceName iscapture i (hw_device_name hw i iscapture))).

(** Lines 94-96. *)
Definition init_guard : M E Flow :=
  devIdInp <- gets g_devIdInp ;;
  devIdOut <- gets g_devIdOut ;;
  if negb (devIdInp =? 0)%N && negb (devIdOut =? 0)%N then ret (Return false)
  else ret (Continue false).

(** Lines 98-122.  The setting of the log priority and of the resampling
    hint does not touch the modelled state.  [return (1)] in a function
    returning [bool] returns [true]. *)
Definition init_subsystem (hw : Hardware) : M E Flow :=
  devIdInp <- gets g_devIdInp ;;
  devIdOut <- gets g_devIdOut ;;
  if (devIdInp =? 0)%N && (devIdOut =? 0)%N then
    r <- SDL_Init hw ;;
    if r <? 0 then print MsgCouldntInitializeSDL ;; ret (Return true)
    else list_devices hw SDL_FALSE ;; list_devices hw SDL_TRUE ;; ret (Continue false)
  else ret (Continue false).

(** The rate of lines 132 and 175: the sum of two [float]s, stored in an
    [int].  [sampleRateOffset] is the whole number the caller passes, as the
    one call site does (line 352), converted to the [float] parameter. *)
Definition requestedRate (sampleRateOffset : Z) : Z :=
  int_of_float (float_add kDefaultSampleRate (float_of_int sampleRateOffset)).

(** The spec requested for playback (lines 129-136). *)
Definition playbackSpec (sampleRateOffset : Z) : SDL_AudioSpec :=
  with_channels 1
    (with_request (requestedRate sampleRateOffset) AUDIO_S16SYS (16 * 1024) SDL_zero).

(** The spec requested for capture (lines 173-177), a copy of
    [g_obtainedSpecOut] with three fields overwritten. *)
Definition captureSpec (sampleRateOffset : Z) (obtainedOut : SDL_AudioSpec) : SDL_AudioSpec :=
  with_request (requestedRate sampleRateOffset) AUDIO_F32SYS 1024 obtainedOut.

(** The test of lines 158-160. *)
Definition playback_mismatch (obtained required : SDL_AudioSpec) : bool :=
  negb (spec_format obtained =? spec_format required)
  || negb (spec_channels obtained =? spec_channels required)
  || negb (spec_samples obtained =? spec_samples required).

(** Lines 126-170. *)
Definition init_playback (hw : Hardware) (playbackId sampleRateOffset : Z)
    (reinit : bool) : M E Flow :=
  devIdOut <- gets g_devIdOut ;;
  if (devIdOut =? 0)%N then
    print MsgInitializingPlayback ;;
    let required := playbackSpec sampleRateOffset in
    modify (set_obtainedSpecOut SDL_zero) ;;
    r <- (if 0 <=? playbackId then
            let name := hw_device_name hw playbackId SDL_FALSE in
            print (MsgAttemptOpen SDL_FALSE playbackId name) ;;
            SDL_OpenAudioDevice hw name SDL_FALSE required
          else
            print (MsgAttemptOpenDefault SDL_FALSE) ;;
            SDL_OpenAudioDevice hw None SDL_FALSE required) ;;
    modify (set_devIdOut (fst r)) ;;
    match snd r with
    | Some obtained => modify (set_obtainedSpecOut obtained)
    | None => ret tt
    end ;;
    if (fst r =? 0)%N then
      print (MsgCouldntOpen SDL_FALSE) ;;
      modify (set_devIdOut 0%N) ;;
      ret (Continue reinit)
    else
      obtained <- gets g_obtainedSpecOut ;;
      print (MsgObtainedSpec SDL_FALSE (fst r) obtained required) ;;
      if playback_mismatch obtained required then
        modify (set_devIdOut 0%N) ;;
        SDL_CloseAudio ;;
        print MsgFailedToInitializePlayback ;;
        ret (Return false)
      else ret (Continue true)
  else ret (Continue reinit).

(** Lines 172-201. *)
Definition init_capture (hw : Hardware) (captureId sampleRateOffset : Z)
    (reinit : bool) : M E Flow :=
  devIdInp <- gets g_devIdInp ;;
  if (devIdInp =? 0)%N then
    obtainedOut <- gets g_obtainedSpecOut ;;
    let required := captureSpec sampleRateOffset obtainedOut in
    modify (set_obtainedSpecInp SDL_zero) ;;
    r <- (if 0 <=? captureId then
            let name := hw_device_name hw captureId SDL_TRUE in
            print (MsgAttemptOpen SDL_TRUE captureId name) ;;
            SDL_OpenAudioDevice hw name SDL_TRUE required
          else
            print (MsgAttemptOpenDefault SDL_TRUE) ;;
            defaultName <- gets g_defaultCaptureDeviceName ;;
            SDL_OpenAudioDevice hw
              (if bool_decide (defaultName = EmptyString) then None else Some defaultName)
              SDL_TRUE required) ;;
    modify (set_devIdInp (fst r)) ;;
    match snd r with
    | Some obtained => modify (set_obtainedSpecInp obtained)
    | None => ret tt
    end ;;
    if (fst r =? 0)%N then
      print (MsgCouldntOpen SDL_TRUE) ;;
      modify (set_devIdInp 0%N) ;;
      ret (Continue reinit)
    else
      obtained <- gets g_obtainedSpecInp ;;
      print (MsgObtainedSpec SDL_TRUE (fst r) obtained required) ;;
      ret (Continue true)
  else ret (Continue reinit).

(** Lines 203-244: the two format switches, and the engine rebuilt when a
    device was newly opened. *)
Definition init_session (payloadLength : Z) (useDSS reinit : bool) : M E bool :=
  obtainedInp <- gets g_obtainedSpecInp ;;
  obtainedOut <- gets g_obtainedSpecOut ;;
  let sampleFormatInp := sampleFormatInp_of (spec_format obtainedInp) in
  let sampleFormatOut := sampleFormatOut_of (spec_format obtainedOut) in
  (if reinit then
     old <- gets g_ggWave ;;
     (if bool_decide (old = None :> option E) then ret tt else emit EvDelete) ;;
     let mode := GGWAVE_OPERATING_MODE_RX_AND_TX in
     let mode := if useDSS then Z.lor mode GGWAVE_OPERATING_MODE_USE_DSS else mode in
     let parameters :=
       {| p_payloadLength := payloadLength;
          p_sampleRateInp := float_of_int (spec_freq obtainedInp);
          p_sampleRateOut := float_of_int (spec_freq obtainedOut);
          p_sampleRate := kDefaultSampleRate;
          p_samplesPerFrame := 512;
          p_soundMarkerThreshold := kDefaultSoundMarkerThreshold;
          p_sampleFormatInp := sampleFormatInp;
          p_sampleFormatOut := sampleFormatOut;
          p_operatingMode := mode |} in
     emit (EvNew parameters) ;;
     modify (set_ggWave (Some (GGWave_new parameters)))
   else ret tt) ;;
  ret true.

(** A block that returned ends the function; otherwise the next block runs
    with the value of [reinit]. *)
Definition and_then (m : M E Flow) (k : bool -> M E Flow) : M E Flow :=
  r <- m ;;
  match r with
  | Return b => ret (Return b)
  | Continue reinit => k reinit
  end.

(** [GGWave_init] (lines 87-245).  [sampleRateOffset] is a [float] in the
    source; the caller passes a whole number, see [requestedRate]. *)
Definition GGWave_init (hw : Hardware)
    (playbackId captureId payloadLength sampleRateOffset : Z) (useDSS : bool)
    : M E bool :=
  r <- and_then init_guard (fun _ =>
       and_then (init_subsystem hw) (fun reinit =>
       and_then (init_playback hw playbackId sampleRateOffset reinit) (fun reinit =>
       init_capture hw captureId sampleRateOffset reinit))) ;;
  match r with
  | Return b => ret b
  | Continue reinit => init_session payloadLength useDSS reinit
  end.

(** *** Shutdown and the exported entry points *)

(** [GGWave_deinit] (lines 302-319). *)
Definition GGWave_deinit : M E bool :=
  devIdInp <- gets g_devIdInp ;;
  devIdOut <- gets g_devIdOut ;;
  if (devIdInp =? 0)%N && (devIdOut =? 0)%N then ret false
  else
    old <- gets g_ggWave ;;
    (if bool_decide (old = None :> option E) then ret tt else emit EvDelete) ;;
    modify (set_ggWave None) ;;
    SDL_PauseAudioDevice devIdInp true ;;
    SDL_CloseAudioDevice devIdInp ;;
    SDL_PauseAudioDevice devIdOut true ;;
    SDL_CloseAudioDevice devIdOut ;;
    modify (set_devIdInp 0%N) ;;
    modify (set_devIdOut 0%N) ;;
    ret true.

(** [GGWave_setDefaultCaptureDeviceName] (lines 83-85). *)
Definition GGWave_setDefaultCaptureDeviceName (name : string) : M E unit :=
  modify (set_defaultCaptureDeviceName name).

(** [sendData] (lines 47-50). *)
Definition sendData (text : list byte) (protocolId volume : Z) : M E Z :=
  ggWave_call (EvTxInit text protocolId volume) (init text protocolId volume) ;;
  ret 0.

(** ** The platform between two calls *)

(** Time passes. *)
Definition elapse (dt : Z) (w : World E) : World E := set_clock (clock w + dt) w.

(** A running capture device records [data]. *)
Definition capture (data : list byte) (w : World E) : World E :=
  if unpaused (g_devIdInp w) (sdl w)
  then set_sdl (alter (enqueue data) (g_devIdInp w) (sdl w)) w
  else w.

(** A running playback device plays [n] queued bytes. *)
Definition play (n : nat) (w : World E) : World E :=
  if unpaused (g_devIdOut w) (sdl w)
  then set_sdl (alter (dequeue (Z.of_nat n)) (g_devIdOut w) (sdl w)) w
  else w.

End Operations.

(** ** Predicates of the specification *)

Section Vocabulary.
Context {E : Type} `{ModemEngine E}.

(** The test of line 250. *)
Definition inactive (w : World E) : bool :=
  (g_devIdInp w =? 0)%N && (g_devIdOut w =? 0)%N.

(** [(int) SDL_GetQueuedAudioSize(dev)]: the queue size as the program
    reads it. *)
Definition queued_int (dev : SDL_AudioDeviceID) (s : gmap N AudioDevice) : Z :=
  to_int (to_u32 (queued_bytes dev s)).

(** The test of line 260: the playback queue is below one output frame. *)
Definition drained (w : World E) (e : E) : bool :=
  queued_int (g_devIdOut w) (sdl w) <? frameBytesOut e.

(** [getTime_ms(tLastNoData, tNow)] in a tick that starts in [w]: a first
    pass stores the current reading and measures from it. *)
Definition elapsed_ms (w : World E) : Q :=
  getTime_ms (default (clock w) (tLastNoData w)) (clock w).

(** The two halves of the test of line 264. *)
Definition debounced (w : World E) : bool := Qgtb (elapsed_ms w) 500.

Definition enough (w : World E) (e : E) : bool :=
  frameBytesInp e <=? queued_int (g_devIdInp w) (sdl w).

(** What [SDL_OpenAudioDevice] returns in audio state [s]: the new id and
    the granted spec, or id 0. *)
Definition open_result (hw : Hardware) (name : option string) (iscapture : bool)
    (desired : SDL_AudioSpec) (s : gmap N AudioDevice)
    : SDL_AudioDeviceID * option SDL_AudioSpec :=
  match hw_open hw name iscapture desired, free_device_id s with
  | Some obtained, Some dev => (dev, Some obtained)
  | _, _ => (0%N, None)
  end.

(** What the call has written to [*obtained]: the granted spec, or what a
    refusal wrote. *)
Definition open_written (hw : Hardware) (name : option string) (iscapture : bool)
    (desired : SDL_AudioSpec) (s : gmap N AudioDevice) : option SDL_AudioSpec :=
  match snd (open_result hw name iscapture desired s) with
  | Some obtained => Some obtained
  | None => hw_refused hw name iscapture desired
  end.

(** The name passed to the playback open (lines 140-146). *)
Definition playback_name (hw : Hardware) (playbackId : Z) : option string :=
  if 0 <=? playbackId then hw_device_name hw playbackId SDL_FALSE else None.

(** The name passed to the capture open (lines 181-188). *)
Definition capture_name (hw : Hardware) (captureId : Z) (w : World E)
    : option string :=
  if 0 <=? captureId then hw_device_name hw captureId SDL_TRUE
  else if bool_decide (g_defaultCaptureDeviceName w = EmptyString) then None
       else Some (g_defaultCaptureDeviceName w).

(** [SDL_Init] is called and fails (lines 98-104). *)
Definition init_fails (hw : Hardware) (w : World E) : bool :=
  inactive w && (hw_init hw <? 0).

(** The playback device is opened with a spec that differs from the
    requested one in format, channels or samples (lines 126-166). *)
Definition playback_rejected `{SDL_AudioFormats} (hw : Hardware)
    (playbackId sampleRateOffset : Z) (w : World E) : bool :=
  (g_devIdOut w =? 0)%N && negb (init_fails hw w) &&
  match open_result hw (playback_name hw playbackId) SDL_FALSE
          (playbackSpec sampleRateOffset) (sdl w) with
  | (_, Some obtained) => playback_mismatch obtained (playbackSpec sampleRateOffset)
  | (_, None) => false
  end.

(** What a block of the negotiation leaves alone, and how it extends the
    trace. *)
Definition init_step (w w' : World E) (evs : list Event) : Prop :=
  trace w' = trace w ++ evs /\
  sdl w' = replay evs (sdl w) /\
  tLastNoData w' = tLastNoData w /\
  dataInp w' = dataInp w /\
  clock w' = clock w /\
  g_defaultCaptureDeviceName w' = g_defaultCaptureDeviceName w.

(** The device an action addresses. *)
Definition event_device (ev : Event) : option SDL_AudioDeviceID :=
  match ev with
  | EvOpenAudioDevice _ _ _ dev | EvCloseAudioDevice dev
  | EvPauseAudioDevice dev _ | EvQueueAudio dev _
  | EvDequeueAudio dev _ | EvClearQueuedAudio dev => Some dev
  | _ => None
  end.

(** Actions that do not open or close a device. *)
Definition keeps_devices (ev : Event) : Prop :=
  match ev with
  | EvOpenAudioDevice _ _ _ _ | EvCloseAudioDevice _ => False
  | _ => True
  end.

(** Queue operations and engine calls do not touch pause flags. *)
Definition keeps_pause (ev : Event) : Prop :=
  match ev with
  | EvOpenAudioDevice _ _ _ _ | EvCloseAudioDevice _ | EvPauseAudioDevice _ _ => False
  | _ => True
  end.

Definition is_dequeue (ev : Event) : bool :=
  match ev with EvDequeueAudio _ _ => true | _ => false end.

(** The actions a call has added to the trace. *)
Definition new_events (w w' : World E) : list Event :=
  drop (length (trace w)) (trace w').

(** The bytes [SDL_DequeueAudio] takes at line 266 in a tick that starts
    in [w]. *)
Definition taken_bytes (w : World E) (e : E) : list byte :=
  take (Z.to_nat (to_u32 (frameBytesInp e))) (queue_of (g_devIdInp w) (sdl w)).

(** Lines 265-266 are defined: a vector can be allocated on the first pass,
    and the bytes taken fit the vector. *)
Definition dataInp_ready (w : World E) (e : E) : bool :=
  match dataInp w with
  | Some buf => (length (taken_bytes w e) <=? length buf)%nat
  | None => 0 <=? frameBytesInp e
  end.

(** The contents of [dataInp] after line 266, which line 268 hands to
    [decode]: the bytes taken, then what the vector held beyond them. *)
Definition decode_input (w : World E) (e : E) : list byte :=
  taken_bytes w e
  ++ drop (length (taken_bytes w e))
       (default (replicate (Z.to_nat (frameBytesInp e)) Byte.x00) (dataInp w)).

(** What a call has done, field by field: the actions and console lines it
    added, the engine, the two statics; the handles, the obtained specs, the
    default device name and the clock are as before. *)
Definition tick_post (w : World E) (evs : list Event) (msgs : list Message)
    (e' : E) (tLast : option Z) (buf : option (list byte)) (w' : World E) : Prop :=
  trace w' = trace w ++ evs /\
  sdl w' = replay evs (sdl w) /\
  console w' = console w ++ msgs /\
  g_ggWave w' = Some e' /\
  tLastNoData w' = tLast /\
  dataInp w' = buf /\
  g_devIdInp w' = g_devIdInp w /\
  g_devIdOut w' = g_devIdOut w /\
  g_obtainedSpecInp w' = g_obtainedSpecInp w /\
  g_obtainedSpecOut w' = g_obtainedSpecOut w /\
  g_defaultCaptureDeviceName w' = g_defaultCaptureDeviceName w /\
  clock w' = clock w.

(** The test of line 281. *)
Definition overflow (w : World E) (e : E) : bool :=
  32 * frameBytesInp e <? queued_int (g_devIdInp w) (sdl w).

(** The result of line 268. *)
Definition decode_ok (w : World E) (e : E) : bool :=
  fst (decode (decode_input w e) e).

(** The actions of a tick whose gate of line 264 is open. *)
Definition decode_events (w : World E) (e : E) : list Event :=
  [EvPauseAudioDevice (g_devIdOut w) SDL_FALSE;
   EvPauseAudioDevice (g_devIdInp w) SDL_FALSE;
   EvDequeueAudio (g_devIdInp w) (to_u32 (frameBytesInp e));
   EvDecode (decode_input w e)]
  ++ (if decode_ok w e then [EvTakeData] else [])
  ++ (if overflow w e then [EvClearQueuedAudio (g_devIdInp w)] else []).

(** Its console lines. *)
Definition decode_lines (w : World E) (e : E) : list Message :=
  let e1 := snd (decode (decode_input w e) e) in
  let rx := fst (rxTakeData e1) in
  (if decode_ok w e
   then (if 0 <? fst rx then [MsgReceived (snd rx)] else [])
   else [MsgWarningDecodeFailed])
  ++ (if overflow w e
      then [MsgWarningSlowProcessing
              (to_u32 (Z.of_nat (length
                 (drop (Z.to_nat (to_u32 (frameBytesInp e)))
                    (queue_of (g_devIdInp w) (sdl w))))))]
      else []).

(** The engine it leaves. *)
Definition decode_engine (w : World E) (e : E) : E :=
  let e1 := snd (decode (decode_input w e) e) in
  if decode_ok w e then snd (rxTakeData e1) else e1.

(** The four ways through an active tick (lines 254-297), each with the
    tests that select it and with what it does. *)
Inductive tick_spec (w : World E) (e : E) (w' : World E) : Prop :=
| TickTransmit :
    txHasData e = true ->
    tick_post w
      [EvPauseAudioDevice (g_devIdOut w) SDL_TRUE;
       EvPauseAudioDevice (g_devIdInp w) SDL_TRUE;
       EvEncode;
       EvQueueAudio (g_devIdOut w) (fst (encode e))]
      [] (snd (encode e)) (tLastNoData w) (dataInp w) w' ->
    tick_spec w e w'
| TickDraining :
    txHasData e = false -> drained w e = false ->
    tick_post w [EvPauseAudioDevice (g_devIdOut w) SDL_FALSE] []
      e (Some (clock w)) (dataInp w) w' ->
    tick_spec w e w'
| TickIdle :
    txHasData e = false -> drained w e = true ->
    debounced w && enough w e = false ->
    tick_post w
      [EvPauseAudioDevice (g_devIdOut w) SDL_FALSE;
       EvPauseAudioDevice (g_devIdInp w) SDL_FALSE;
       EvClearQueuedAudio (g_devIdInp w)]
      [] e (Some (default (clock w) (tLastNoData w))) (dataInp w) w' ->
    tick_spec w e w'
| TickDecode :
    txHasData e = false -> drained w e = true ->
    debounced w = true -> enough w e = true ->
    dataInp_ready w e = true ->
    tick_post w (decode_events w e) (decode_lines w e) (decode_engine w e)
      (tLastNoData w) (Some (decode_input w e)) w' ->
    tick_spec w e w'.


(** At most one of the two devices is running. *)
Definition exclusive (w : World E) (s : gmap N AudioDevice) : Prop :=
  unpaused (g_devIdOut w) s && unpaused (g_devIdInp w) s = false.

(** Capture runs only while the playback queue is below one output frame. *)
Definition half_duplex (w : World E) (e : E) (s : gmap N AudioDevice) : Prop :=
  unpaused (g_devIdInp w) s = true ->
  queued_int (g_devIdOut w) s < frameBytesOut e.

(** An action that keeps [half_duplex] when taken in state [s]: pausing;
    resuming playback; resuming capture on a drained playback queue;
    queueing for playback while capture is paused; taking from the capture
    queue; an engine call. *)
Definition keeps_half_duplex (w : World E) (e : E) (s : gmap N AudioDevice)
    (ev : Event) : Prop :=
  match ev with
  | EvInit _ | EvOpenAudioDevice _ _ _ _ | EvCloseAudioDevice _ => False
  | EvPauseAudioDevice dev pause_on =>
      pause_on = true \/ dev <> g_devIdInp w \/
      queued_int (g_devIdOut w) s < frameBytesOut e
  | EvQueueAudio dev _ => unpaused (g_devIdInp w) s = false
  | EvDequeueAudio dev _ | EvClearQueuedAudio dev => dev <> g_devIdOut w
  | _ => True
  end.

Fixpoint all_keep_half_duplex (w : World E) (e : E) (evs : list Event)
    (s : gmap N AudioDevice) : Prop :=
  match evs with
  | [] => True
  | ev :: evs' =>
      keeps_half_duplex w e s ev /\ all_keep_half_duplex w e evs' (sdl_step ev s)
  end.

(** The handles are in order: a nonzero handle is an open device other
    than the legacy device 1, the two handles differ, and id 0 is no
    device. *)
Definition wf_devices (w : World E) : Prop :=
  (g_devIdInp w = 0%N \/ g_devIdInp w <> 1%N /\ is_Some (sdl w !! g_devIdInp w)) /\
  (g_devIdOut w = 0%N \/ g_devIdOut w <> 1%N /\ is_Some (sdl w !! g_devIdOut w)) /\
  (g_devIdInp w = 0%N \/ g_devIdInp w <> g_devIdOut w) /\
  sdl w !! 0%N = None.

(** With a device open, the engine pointer is not null. *)
Definition engine_present (w : World E) : Prop :=
  g_devIdInp w <> 0%N \/ g_devIdOut w <> 0%N -> is_Some (g_ggWave w).

Definition well_formed (w : World E) : Prop := wf_devices w /\ engine_present w.

(** One step of a run of the program: a call of one of its functions that
    returns, or the platform. *)
Inductive step `{SDL_AudioFormats} (w w' : World E) : Prop :=
| StepInit (hw : Hardware)
    (playbackId captureId payloadLength sampleRateOffset : Z) (useDSS r : bool) :
    GGWave_init hw playbackId captureId payloadLength sampleRateOffset useDSS w
    = Some (r, w') ->
    step w w'
| StepTick (r : bool) :
    GGWave_mainLoop w = Some (r, w') -> step w w'
| StepDeinit (r : bool) :
    GGWave_deinit w = Some (r, w') -> step w w'
| StepSend (text : list byte) (protocolId volume r : Z) :
    sendData text protocolId volume w = Some (r, w') -> step w w'
| StepName (name : string) :
    GGWave_setDefaultCaptureDeviceName name w = Some (tt, w') -> step w w'
| StepElapse (dt : Z) :
    0 <= dt -> w' = elapse dt w -> step w w'
| StepCapture (data : list byte) :
    w' = capture data w -> step w w'
| StepPlay (n : nat) :
    w' = play n w -> step w w'.

(** The states of the runs that start at program start. *)
Definition reachable `{SDL_AudioFormats} (w : World E) : Prop :=
  rtc step initial_world w.

End Vocabulary.

(** ** A test double for the engine, and sample platforms *)

(** Bytes per sample of each engine format; none for the undefined one. *)
Definition bytesForSampleFormat (f : SampleFormat) : Z :=
  match f with
  | GGWAVE_SAMPLE_FORMAT_UNDEFINED => 0
  | GGWAVE_SAMPLE_FORMAT_U8 | GGWAVE_SAMPLE_FORMAT_I8 => 1
  | GGWAVE_SAMPLE_FORMAT_U16 | GGWAVE_SAMPLE_FORMAT_I16 => 2
  | GGWAVE_SAMPLE_FORMAT_F32 => 4
  end.

(** An engine that does no signal processing: it keeps its parameters, the
    waveform waiting to be sent, and the frames it was given to decode. *)
Record StubEngine := {
  stub_parameters : Parameters;
  stub_tx : option (list byte);
  stub_frames : list (list byte)
}.

Instance stub_engine : ModemEngine StubEngine := {|
  kDefaultSampleRate := 48000;
  kDefaultSoundMarkerThreshold := 3;
  GGWAVE_OPERATING_MODE_RX_AND_TX := 6;
  GGWAVE_OPERATING_MODE_USE_DSS := 16;
  GGWave_new p := {| stub_parameters := p; stub_tx := None; stub_frames := [] |};
  init text _ _ e :=
    (true, {| stub_parameters := stub_parameters e; stub_tx := Some text;
              stub_frames := stub_frames e |});
  txHasData e := match stub_tx e with Some _ => true | None => false end;
  samplesPerFrame e := p_samplesPerFrame (stub_parameters e);
  sampleSizeInp e := bytesForSampleFormat (p_sampleFormatInp (stub_parameters e));
  sampleSizeOut e := bytesForSampleFormat (p_sampleFormatOut (stub_parameters e));
  encode e :=
    (match stub_tx e with Some wf => wf | None => [] end,
     {| stub_parameters := stub_parameters e; stub_tx := None;
        stub_frames := stub_frames e |});
  decode data e :=
    (true, {| stub_parameters := stub_parameters e; stub_tx := stub_tx e;
              stub_frames := stub_frames e ++ [data] |});
  rxTakeData e := ((0, []), e)
|}.

(** A platform that grants every request as asked. *)
Definition hw_exact : Hardware :=
  {| hw_init := 0;
     hw_num_devices := fun _ => 1;
     hw_device_name := fun i _ => if i =? 0 then Some "default"%string else None;
     hw_open := fun _ _ desired => Some desired;
     hw_refused := fun _ _ _ => None |}.

(** A platform whose playback device grants 8192 samples per buffer. *)
Definition hw_small_playback : Hardware :=
  {| hw_init := 0;
     hw_num_devices := fun _ => 1;
     hw_device_name := fun i _ => if i =? 0 then Some "default"%string else None;
     hw_open := fun _ iscapture desired =>
       if iscapture then Some desired
       else Some (with_request (spec_freq desired) (spec_format desired) 8192 desired);
     hw_refused := fun _ _ _ => None |}.

(** A platform that refuses to open a capture device, and writes nothing
    when it refuses. *)
Definition hw_no_capture : Hardware :=
  {| hw_init := 0;
     hw_num_devices := fun iscapture => if iscapture then 0 else 1;
     hw_device_name := fun i iscapture =>
       if iscapture then None else if i =? 0 then Some "default"%string else None;
     hw_open := fun _ iscapture desired => if iscapture then None else Some desired;
     hw_refused := fun _ _ _ => None |}.


(** A platform that refuses to open a playback device, and writes nothing
    when it refuses. *)
Definition hw_no_playback : Hardware :=
  {| hw_init := 0;
     hw_num_devices := fun iscapture => if iscapture then 1 else 0;
     hw_device_name := fun i iscapture =>
       if iscapture then (if i =? 0 then Some "default"%string else None) else None;
     hw_open := fun _ iscapture desired => if iscapture then Some desired else None;
     hw_refused := fun _ _ _ => None |}.

(** The same, with a refusal that has copied the request to [*obtained]. *)
Definition hw_no_playback_copy : Hardware :=
  {| hw_init := 0;
     hw_num_devices := fun iscapture => if iscapture then 1 else 0;
     hw_device_name := fun i iscapture =>
       if iscapture then (if i =? 0 then Some "default"%string else None) else None;
     hw_open := fun _ iscapture desired => if iscapture then Some desired else None;
     hw_refused := fun _ _ desired => Some desired |}.

(** Running a call and keeping the state; a sequence of such steps. *)
Definition exec {E A} (m : M E A) (w : World E) : option (World E) :=
  match m w with Some (_, w') => Some w' | None => None end.

Definition env {E} (f : World E -> World E) (w : World E) : option (World E) := Some (f w).

Fixpoint steps {E} (l : list (World E -> option (World E))) (w : World E)
    : option (World E) :=
  match l with
  | [] => Some w
  | f :: l' => match f w with Some w' => steps l' w' | None => None end
  end.

(** [g_doInit] (lines 351-361) calls the negotiation with these arguments;
    [captureId] and [payloadLength] are the defaults of lines 346-347. *)
Definition doInit (hw : Hardware) : M StubEngine bool :=
  GGWave_init hw 0 0 16 0 true.

Definition run (l : list (World StubEngine -> option (World StubEngine)))
    : World StubEngine :=
  default initial_world (steps l initial_world).

(** After a first negotiation on a platform that grants every request: both
    devices open and paused, engine built. *)
Definition w_ready : World StubEngine := run [exec (doInit hw_exact)].

(** After one more tick with nothing to send. *)
Definition w_listening : World StubEngine :=
  run [exec (doInit hw_exact); exec GGWave_mainLoop].

(** After the page then hands two bytes to [sendData]. *)
Definition w_sending : World StubEngine :=
  run [exec (doInit hw_exact); exec GGWave_mainLoop;
       exec (sendData [Byte.x68; Byte.x69] 1 10)].

(** After the tick that queues them, with the playback queue still full. *)
Definition w_sent : World StubEngine :=
  run [exec (doInit hw_exact); exec GGWave_mainLoop;
       exec (sendData (replicate 2048 Byte.x68) 1 10); exec GGWave_mainLoop].

(** Listening for 600 ms, with [n] captured bytes waiting. *)
Definition w_heard (n : Z) : World StubEngine :=
  run [exec (doInit hw_exact); exec GGWave_mainLoop;
       env (elapse 600000); env (capture (replicate (Z.to_nat n) Byte.x01))].


(** After a negotiation in which the capture device could not be opened. *)
Definition w_playback_only : World StubEngine := run [exec (doInit hw_no_capture)].


(** The capture device cannot be opened at first; the loop runs for 600 ms;
    a second negotiation then opens it, the loop runs once more, and 4096
    bytes are captured during the next 16 ms. *)
Definition w_renegotiated : World StubEngine :=
  run [exec (doInit hw_no_capture); exec GGWave_mainLoop;
       env (elapse 600000); exec GGWave_mainLoop;
       exec (doInit hw_exact); exec GGWave_mainLoop;
       env (elapse 16000); env (capture (replicate 4096 Byte.x01))].

(** ** The page interface and [main] *)

(** The [const] members of [GGWave] behind the page interface (lines 54-71)
    and the constant of the usage text (line 332); like the rest of the
    class they are declared in [ggwave.h] and are taken as parameters. *)
Class ModemStatus (E : Type) := {
  kMaxLengthFixed : Z;
  rxData : E -> list byte;
  sampleRateInp : E -> Q;
  rxFramesToRecord : E -> Z;
  rxFramesLeftToRecord : E -> Z;
  rxFramesToAnalyze : E -> Z;
  rxFramesLeftToAnalyze : E -> Z
}.

(** The lines [main] and its two closures print, one constructor per
    [printf] or [fprintf]. *)
Inductive MainLine :=
| LineBuildTime
| LinePressInit
| LineUsage (argv0 : string)
| LineUsageCapture
| LineUsagePayload (maxLength : Z)
| LineBlank
| LineFailedToInitializeGGWave
| LineListening (payloadLength : Z)
| LineErrorFailedAudio.

(** What the platform does while the program sleeps or waits for the next
    frame: time passes, the capture device records, the playback device
    plays. *)
Record Sleep := {
  slept : Z;
  captured : list byte;
  played : nat
}.

(** How far [main] has come: it has returned, it has been ended by
    [std::terminate] after an exception nothing catches, or it is still in
    its loop. *)
Inductive Outcome :=
| Exited (code : Z)
| Terminated
| Running.

(** *** The command line (lines 345-347) *)

(** [isspace] in the C locale. *)
Definition is_space (c : Ascii.ascii) : bool :=
  let n := Ascii.N_of_ascii c in ((n =? 32) || ((9 <=? n) && (n <=? 13)))%N.

Definition digit_of (c : Ascii.ascii) : option Z :=
  let n := Z.of_N (Ascii.N_of_ascii c) in
  if (48 <=? n) && (n <=? 57) then Some (n - 48) else None.

Fixpoint skip_spaces (s : string) : string :=
  match s with
  | String c rest => if is_space c then skip_spaces rest else s
  | EmptyString => s
  end.

(** The value of the decimal digits [s] starts with, read after digits of
    value [acc]; [None] when there is no digit at all. *)
Fixpoint read_digits (s : string) (acc : option Z) : option Z :=
  match s with
  | String c rest =>
      match digit_of c with
      | Some d => read_digits rest (Some (10 * default 0 acc + d))
      | None => acc
      end
  | EmptyString => acc
  end.

(** [std::stoi(str)]: white space, an optional sign, decimal digits; what
    follows the digits is ignored.  [None] when it throws:
    [std::invalid_argument] without a digit, [std::out_of_range] for a value
    that no [int] holds. *)
Definition stoi (str : string) : option Z :=
  let s := skip_spaces str in
  let signed :=
    match s with
    | String c rest =>
        if Ascii.eqb c "-"%char then (true, rest)
        else if Ascii.eqb c "+"%char then (false, rest)
        else (false, s)
    | EmptyString => (false, s)
    end in
  match read_digits (snd signed) None with
  | Some v =>
      let v := if fst signed then - v else v in
      if (- 2 ^ 31 <=? v) && (v <? 2 ^ 31) then Some v else None
  | None => None
  end.

(** [argm.count(key) == 0 ? fallback : std::stoi(argm.at(key))].  [argm]
    is the map [parseCmdArguments] returns; the function belongs to
    [ggwave-common], which is not part of the sources. *)
Definition cmd_int (argm : gmap string string) (key : string) (fallback : Z)
    : option Z :=
  match argm !! key with
  | None => Some fallback
  | Some value => stoi value
  end.

Section Page.
Context {E : Type} `{ModemEngine E} `{ModemStatus E} `{SDL_AudioFormats}.
#[local] Open Scope prog_scope.

(** *** The functions exported to the page (lines 45-81) *)

(** [getText] (lines 52-56): [std::copy] writes the received bytes over the
    front of the caller's buffer [text] and nothing behind them; a buffer
    shorter than the data is overrun. *)
Definition getText (text : list byte) : M E (Z * list byte) :=
  data <- ggWave_get rxData ;;
  if (length text <? length data)%nat then undefined
  else ret (0, data ++ drop (length data) text).

(** Lines 58-71. *)
Definition sampleRate : M E Q := ggWave_get sampleRateInp.
Definition framesToRecord : M E Z := ggWave_get rxFramesToRecord.
Definition framesLeftToRecord : M E Z := ggWave_get rxFramesLeftToRecord.
Definition framesToAnalyze : M E Z := ggWave_get rxFramesToAnalyze.
Definition framesLeftToAnalyze : M E Z := ggWave_get rxFramesLeftToAnalyze.

(** Lines 73-77: the handle, a [Uint32], returned as an [int]. *)
Definition hasDeviceOutput : M E Z := gets (fun w => to_int (Z.of_N (g_devIdOut w))).
Definition hasDeviceCapture : M E Z := gets (fun w => to_int (Z.of_N (g_devIdInp w))).

(** *** The state of [main] *)

(** The globals, and the local [isInitialized] the two closures capture by
    reference.  The lines of [main] are kept apart from those of the three
    functions; each carries the number of lines these had printed before
    it. *)
Record App := {
  isInitialized : bool;
  main_console : list (nat * MainLine);
  world : World E
}.

Definition set_isInitialized (v : bool) (a : App) : App :=
  {| isInitialized := v; main_console := main_console a; world := world a |}.

Definition set_world (v : World E) (a : App) : App :=
  {| isInitialized := isInitialized a; main_console := main_console a; world := v |}.

Definition say (l : MainLine) (a : App) : App :=
  {| isInitialized := isInitialized a;
     main_console := main_console a ++ [(length (console (world a)), l)];
     world := world a |}.

(** A call of one of the functions on the globals. *)
Definition in_world {A} (m : M E A) (a : App) : option (A * App) :=
  match m (world a) with
  | Some (x, w') => Some (x, set_world w' a)
  | None => None
  end.

(** The platform during one sleep. *)
Definition during (s : Sleep) (w : World E) : World E :=
  play (played s) (capture (captured s) (elapse (slept s) w)).

(** *** The closures of [main] *)

(** [g_doInit] (lines 351-361). *)
Definition g_doInit (hw : Hardware) (captureId payloadLength : Z) (a : App)
    : option (bool * App) :=
  match in_world (GGWave_init hw 0 captureId payloadLength 0 true) a with
  | Some (false, a') => Some (false, say LineFailedToInitializeGGWave a')
  | Some (true, a') =>
      Some (true, say (LineListening payloadLength) (set_isInitialized true a'))
  | None => None
  end.

(** [g_mainUpdate] (lines 363-371); the result of [GGWave_mainLoop] is
    dropped. *)
Definition g_mainUpdate (a : App) : option (bool * App) :=
  if negb (isInitialized a) then Some (true, a)
  else
    match in_world GGWave_mainLoop a with
    | Some (_, a') => Some (true, a')
    | None => None
    end.

(** [mainUpdate] (lines 39-41). *)
Definition mainUpdate (a : App) : option (unit * App) :=
  match g_mainUpdate a with
  | Some (_, a') => Some (tt, a')
  | None => None
  end.

(** The exported [doInit] (lines 79-80): the [bool] of [g_doInit] as an
    [int]. *)
Definition js_doInit (hw : Hardware) (captureId payloadLength : Z) (a : App)
    : option (Z * App) :=
  match g_doInit hw captureId payloadLength a with
  | Some (r, a') => Some (Z.b2z r, a')
  | None => None
  end.

(** *** [main] (lines 321-394) *)

(** The protocol table of lines 336-343 configures the engine, which the
    development is parametric in.  Lines 345-347 read the command line; an
    option value that [std::stoi] does not accept ends the program there, in
    both builds. *)

Definition initial_app : App :=
  {| isInitialized := false; main_console := []; world := initial_world |}.

(** The web build up to the call that hands control to the browser (lines
    323-328 and 374), for a command line that was read: [argv1] is
    [argv[1]], the default capture device name. *)
Definition main_emscripten (argv1 : option string) : App :=
  let a := say LinePressInit (say LineBuildTime initial_app) in
  match argv1 with
  | Some name => set_world (set_defaultCaptureDeviceName name (world a)) a
  | None => a
  end.

(** [SDL_Quit()] (line 390) shuts the audio subsystem down, closing every
    device. *)
Definition SDL_Quit : M E unit := modify (set_sdl ∅).

(** The loop of lines 381-384 and what follows it (lines 386-393), for as
    many iterations as there are entries in [sleeps]; [Running] when the
    loop has not ended by then. *)
Fixpoint main_loop (sleeps : list Sleep) (a : App) : option (Outcome * App) :=
  match sleeps with
  | [] => Some (Running, a)
  | s :: rest =>
      match g_mainUpdate (set_world (during s (world a)) a) with
      | Some (true, a') => main_loop rest a'
      | Some (false, a') =>
          match in_world (GGWave_deinit ;; SDL_CloseAudio ;; SDL_Quit) a' with
          | Some (_, a'') => Some (Exited 0, a'')
          | None => None
          end
      | None => None
      end
  end.

(** The native build (lines 330-333 and 345-393). *)
Definition main (argv0 : string) (hw : Hardware) (argm : gmap string string)
    (sleeps : list Sleep) : option (Outcome * App) :=
  let a := say LineBlank (say (LineUsagePayload kMaxLengthFixed)
             (say LineUsageCapture (say (LineUsage argv0) initial_app))) in
  match cmd_int argm "c" 0 with
  | None => Some (Terminated, a)
  | Some captureId =>
      match cmd_int argm "l" 16 with
      | None => Some (Terminated, a)
      | Some payloadLength =>
          match g_doInit hw captureId payloadLength a with
          | Some (false, a') => Some (Exited (-2), say LineErrorFailedAudio a')
          | Some (true, a') => main_loop sleeps a'
          | None => None
          end
      end
  end.

(** *** Runs of the page *)

(** One event of the web build: the page calls [doInit] or [sendData], the
    browser calls [mainUpdate], or the platform acts.  The other exported
    functions only read. *)
Inductive page_step (captureId payloadLength : Z) (a a' : App) : Prop :=
| PageInit (hw : Hardware) (r : Z) :
    js_doInit hw captureId payloadLength a = Some (r, a') ->
    page_step captureId payloadLength a a'
| PageUpdate :
    mainUpdate a = Some (tt, a') -> page_step captureId payloadLength a a'
| PageSend (text : list byte) (protocolId volume r : Z) :
    in_world (sendData text protocolId volume) a = Some (r, a') ->
    page_step captureId payloadLength a a'
| PageSleep (s : Sleep) :
    0 <= slept s -> a' = set_world (during s (world a)) a ->
    page_step captureId payloadLength a a'.

Definition page_reachable (argv1 : option string) (captureId payloadLength : Z)
    (a : App) : Prop :=
  rtc (page_step captureId payloadLength) (main_emscripten argv1) a.

(** *** What holds in every reachable state *)

(** The playback spec of an open playback device is the one the program
    asked for, in the three fields it compares. *)
Definition playback_as_requested (w : World E) : Prop :=
  g_devIdOut w <> 0%N ->
  spec_format (g_obtainedSpecOut w) = AUDIO_S16SYS /\
  spec_channels (g_obtainedSpecOut w) = 1 /\
  spec_samples (g_obtainedSpecOut w) = 16 * 1024.

(** The handles are ids SDL has handed out, and an engine exists only while
    a device is open. *)
Definition run_invariant (w : World E) : Prop :=
  well_formed w /\
  (g_devIdInp w <= 16)%N /\ (g_devIdOut w <= 16)%N /\
  (inactive w = true -> g_ggWave w = None) /\
  playback_as_requested w.

(** The parameters the engine is built from (lines 228-241) when the
    obtained specs are those of [w]. *)
Definition session_parameters (payloadLength : Z) (useDSS : bool) (w : World E)
    : Parameters :=
  {| p_payloadLength := payloadLength;
     p_sampleRateInp := float_of_int (spec_freq (g_obtainedSpecInp w));
     p_sampleRateOut := float_of_int (spec_freq (g_obtainedSpecOut w));
     p_sampleRate := kDefaultSampleRate;
     p_samplesPerFrame := 512;
     p_soundMarkerThreshold := kDefaultSoundMarkerThreshold;
     p_sampleFormatInp := sampleFormatInp_of (spec_format (g_obtainedSpecInp w));
     p_sampleFormatOut := sampleFormatOut_of (spec_format (g_obtainedSpecOut w));
     p_operatingMode :=
       if useDSS
       then Z.lor GGWAVE_OPERATING_MODE_RX_AND_TX GGWAVE_OPERATING_MODE_USE_DSS
       else GGWAVE_OPERATING_MODE_RX_AND_TX |}.

(** What no call of [GGWave_init] touches: the statics of the loop, the
    clock, the default device name. *)
Definition init_kept (w w' : World E) : Prop :=
  tLastNoData w' = tLastNoData w /\ dataInp w' = dataInp w /\
  clock w' = clock w /\
  g_defaultCaptureDeviceName w' = g_defaultCaptureDeviceName w.

(** An open request for the playback side, for the capture side. *)
Definition is_open_request (iscapture : bool) (ev : Event) : Prop :=
  match ev with
  | EvOpenAudioDevice _ c _ _ => c = iscapture
  | _ => False
  end.

Definition is_sdl_init (ev : Event) : Prop :=
  match ev with EvInit _ => True | _ => False end.

(** An open request that was granted a device. *)
Definition is_granted (ev : Event) : Prop :=
  match ev with
  | EvOpenAudioDevice _ _ _ dev => dev <> 0%N
  | _ => False
  end.

(** A call leaves every open device other than the legacy device 1 as it
    is. *)
Definition frame_kept (w w' : World E) : Prop :=
  forall dev, is_Some (sdl w !! dev) -> dev <> 1%N -> sdl w' !! dev = sdl w !! dev.

(** The receive buffer of [w], if allocated, is still allocated in [w'],
    with the same size. *)
Definition same_buffer_size (w w' : World E) : Prop :=
  forall buf, dataInp w = Some buf ->
  exists buf', dataInp w' = Some buf' /\ length buf' = length buf.

End Page.

Arguments App E : clear implicits.

(** The accessors of the test double: the last frame it was given stands
    for the received data. *)
Instance stub_status : ModemStatus StubEngine := {|
  kMaxLengthFixed := 64;
  rxData e := default [] (last (stub_frames e));
  sampleRateInp e := inject_Z (p_sampleRateInp (stub_parameters e));
  rxFramesToRecord _ := 0;
  rxFramesLeftToRecord _ := 0;
  rxFramesToAnalyze _ := 0;
  rxFramesLeftToAnalyze _ := 0
|}.

(** A platform on which [SDL_Init] fails. *)
Definition hw_no_sdl : Hardware :=
  {| hw_init := -1;
     hw_num_devices := fun _ => 1;
     hw_device_name := fun i _ => if i =? 0 then Some "default"%string else None;
     hw_open := fun _ _ desired => Some desired;
     hw_refused := fun _ _ _ => None |}.

(** Listening for 600 ms with two frames captured, then one more tick: the
    first frame has gone to the engine. *)
Definition w_decoded : World StubEngine :=
  run [exec (doInit hw_exact); exec GGWave_mainLoop;
       env (elapse 600000); env (capture (replicate 4096 Byte.x01));
       exec GGWave_mainLoop].

(** The same run, followed by [GGWave_deinit]. *)
Definition w_shutdown : World StubEngine :=
  run [exec (doInit hw_exact); exec GGWave_mainLoop;
       env (elapse 600000); env (capture (replicate 4096 Byte.x01));
       exec GGWave_mainLoop; exec GGWave_deinit].

(** The engine of a state, for states that have one. *)
Definition engine_of (w : World StubEngine) : StubEngine :=
  default (GGWave_new (session_parameters 0 false w)) (g_ggWave w).

(** Command lines: [-l8], and a [-c] without a number. *)
Definition argm_payload : gmap string string := {[ "l"%string := "8"%string ]}.
Definition argm_bare : gmap string string := {[ "c"%string := EmptyString ]}.

(** The page after a first [doInit] on a platform whose playback device
    is rejected, and after one on a platform that grants every request. *)
Definition a_rejected : App StubEngine :=
  match js_doInit hw_small_playback 0 16 (main_emscripten None) with
  | Some (_, a) => a
  | None => main_emscripten None
  end.

Definition a_ready : App StubEngine :=
  match js_doInit hw_exact 0 16 (main_emscripten None) with
  | Some (_, a) => a
  | None => main_emscripten None
  end.

(** * Properties *)

(** ** Machine integers *)

Lemma to_int_le (u : Z) : 0 <= u -> to_int u <= u.
Proof.
  intros Hu. unfold to_int.
  pose proof (Z.mod_le u (2 ^ 32) Hu ltac:(lia)) as Hle.
  destruct (u mod 2 ^ 32 <? 2 ^ 31); lia.
Qed.

Lemma to_int_small (u : Z) : 0 <= u < 2 ^ 31 -> to_int u = u.
Proof.
  intros Hu. unfold to_int. rewrite Z.mod_small by lia.
  destruct (Z.ltb_spec u (2 ^ 31)); lia.
Qed.

Lemma to_int_nonneg_inv (u : Z) :
  0 <= u < 2 ^ 32 -> 0 <= to_int u -> to_int u = u.
Proof.
  intros Hu. unfold to_int. rewrite Z.mod_small by lia.
  destruct (Z.ltb_spec u (2 ^ 31)); lia.
Qed.

Lemma to_u32_small (i : Z) : 0 <= i < 2 ^ 32 -> to_u32 i = i.
Proof. intros Hi. unfold to_u32. now rewrite Z.mod_small. Qed.


Lemma to_int_u32_le (n : Z) : 0 <= n -> to_int (to_u32 n) <= n.
Proof.
  intros Hn. unfold to_u32.
  pose proof (Z.mod_le n (2 ^ 32) Hn ltac:(lia)) as Hle.
  pose proof (Z.mod_pos_bound n (2 ^ 32) ltac:(lia)) as Hb.
  pose proof (to_int_le (n mod 2 ^ 32) ltac:(lia)). lia.
Qed.

Lemma to_int_u32_nonneg (n : Z) :
  0 <= n < 2 ^ 32 -> 0 <= to_int (to_u32 n) -> to_int (to_u32 n) = n.
Proof.
  intros Hn Hp. rewrite to_u32_small in * by lia. now apply to_int_nonneg_inv.
Qed.

Lemma to_int_lt_2_31 (u : Z) : to_int u < 2 ^ 31.
Proof.
  unfold to_int. pose proof (Z.mod_pos_bound u (2 ^ 32) ltac:(lia)).
  destruct (Z.ltb_spec (u mod 2 ^ 32) (2 ^ 31)); lia.
Qed.

(** ** Single precision *)

(** A whole number below 2^24 in magnitude is a [float]: the conversion
    keeps it. *)
Lemma float_of_int_exact (i : Z) : Z.abs i < 2 ^ 24 -> float_of_int i = i.
Proof.
  intros Hi. unfold float_of_int.
  destruct (Z.ltb_spec (Z.abs i) (2 ^ 24)); [reflexivity | lia].
Qed.

(** Above, the conversion rounds to a significand of 24 bits, ties to
    even. *)
Example float_of_int_rounds :
  float_of_int 16777217 = 16777216 /\ float_of_int 16777219 = 16777220 /\
  float_of_int (-16777217) = -16777216 /\ float_of_int 33602430 = 33602432 /\
  float_of_int (2 ^ 31 - 1) = 2 ^ 31.
Proof. vm_compute. repeat split. Qed.

(** For rates in the exact range the requested rate is the plain sum. *)
Lemma requestedRate_exact {E} `{ModemEngine E} (sampleRateOffset : Z) :
  Z.abs sampleRateOffset < 2 ^ 24 ->
  Z.abs (kDefaultSampleRate + sampleRateOffset) < 2 ^ 24 ->
  requestedRate sampleRateOffset = kDefaultSampleRate + sampleRateOffset.
Proof.
  intros Ho Hs. unfold requestedRate, int_of_float, float_add.
  rewrite (float_of_int_exact sampleRateOffset) by exact Ho.
  now apply float_of_int_exact.
Qed.

(** ** Elapsed time *)

Lemma Qgtb_getTime_ms (tStart tEnd : Z) :
  Qgtb (getTime_ms tStart tEnd) 500 = true <-> 500000 < tEnd - tStart.
Proof.
  unfold Qgtb, getTime_ms. rewrite negb_true_iff, <- not_true_iff_false, Qle_bool_iff.
  unfold Qle. simpl. lia.
Qed.

Lemma getTime_ms_same (t : Z) : Qgtb (getTime_ms t t) 500 = false.
Proof.
  apply not_true_iff_false. rewrite Qgtb_getTime_ms. lia.
Qed.

(** ** The format adapter *)

Section FormatAdapterFacts.
Context `{SDL_AudioFormats}.

Lemma audio_formats_pairwise :
  AUDIO_U8 <> AUDIO_S8 /\ AUDIO_U8 <> AUDIO_U16SYS /\ AUDIO_U8 <> AUDIO_S16SYS /\
  AUDIO_U8 <> AUDIO_S32SYS /\ AUDIO_U8 <> AUDIO_F32SYS /\
  AUDIO_S8 <> AUDIO_U16SYS /\ AUDIO_S8 <> AUDIO_S16SYS /\
  AUDIO_S8 <> AUDIO_S32SYS /\ AUDIO_S8 <> AUDIO_F32SYS /\
  AUDIO_U16SYS <> AUDIO_S16SYS /\ AUDIO_U16SYS <> AUDIO_S32SYS /\
  AUDIO_U16SYS <> AUDIO_F32SYS /\
  AUDIO_S16SYS <> AUDIO_S32SYS /\ AUDIO_S16SYS <> AUDIO_F32SYS /\
  AUDIO_S32SYS <> AUDIO_F32SYS.
Proof.
  pose proof audio_formats_distinct as Hd.
  repeat (apply NoDup_cons in Hd as [? Hd]).
  repeat match goal with
         | Hn : _ ∉ _ :: _ |- _ => apply not_elem_of_cons in Hn as [? Hn]
         end.
  repeat split; assumption.
Qed.

Lemma sampleFormatOut_of_eq (format : Z) :
  sampleFormatOut_of format = sampleFormatInp_of format.
Proof. reflexivity. Qed.

Lemma sampleFormatInp_of_undefined (format : Z) :
  sampleFormatInp_of format = GGWAVE_SAMPLE_FORMAT_UNDEFINED <->
  format ∉ recognized_formats.
Proof.
  unfold sampleFormatInp_of, recognized_formats.
  rewrite !not_elem_of_cons.
  repeat match goal with
         | |- context [format =? ?c] => destruct (Z.eqb_spec format c)
         end;
    split; try discriminate; try tauto; intros; repeat split; auto;
    apply not_elem_of_nil.
Qed.

(** C7. The format mapping is a function defined on every hardware format:
    each of the six recognized formats has one engine format, signed 32-bit
    and float32 both map to the engine's float32, both switches of
    [GGWave_init] compute the same mapping, and a format maps to the
    undefined sentinel exactly when it is none of the six. *)
Theorem format_mapping_total :
  sampleFormatInp_of AUDIO_U8 = GGWAVE_SAMPLE_FORMAT_U8 /\
  sampleFormatInp_of AUDIO_S8 = GGWAVE_SAMPLE_FORMAT_I8 /\
  sampleFormatInp_of AUDIO_U16SYS = GGWAVE_SAMPLE_FORMAT_U16 /\
  sampleFormatInp_of AUDIO_S16SYS = GGWAVE_SAMPLE_FORMAT_I16 /\
  sampleFormatInp_of AUDIO_S32SYS = GGWAVE_SAMPLE_FORMAT_F32 /\
  sampleFormatInp_of AUDIO_F32SYS = GGWAVE_SAMPLE_FORMAT_F32 /\
  (forall format, sampleFormatOut_of format = sampleFormatInp_of format) /\
  (forall format, format ∉ recognized_formats ->
     sampleFormatInp_of format = GGWAVE_SAMPLE_FORMAT_UNDEFINED) /\
  (forall format, format ∈ recognized_formats ->
     sampleFormatInp_of format <> GGWAVE_SAMPLE_FORMAT_UNDEFINED).
Proof.
  pose proof audio_formats_pairwise as Hp.
  repeat split.
  1-6: unfold sampleFormatInp_of;
       repeat match goal with
              | |- context [?a =? ?c] => destruct (Z.eqb_spec a c)
              end; intuition congruence.
  - intros format Hn. now apply sampleFormatInp_of_undefined.
  - intros format Hin Hu. apply sampleFormatInp_of_undefined in Hu. contradiction.
Qed.

End FormatAdapterFacts.

(** On the constants of a little-endian host: [AUDIO_U16MSB] (0x1010) is
    none of the six and maps to the sentinel, [AUDIO_F32SYS] is one of them
    and does not. *)
Lemma format_mapping_witness :
  (0x1010 ∉ recognized_formats) /\
  sampleFormatInp_of 0x1010 = GGWAVE_SAMPLE_FORMAT_UNDEFINED /\
  (AUDIO_F32SYS ∈ recognized_formats) /\
  sampleFormatInp_of AUDIO_F32SYS <> GGWAVE_SAMPLE_FORMAT_UNDEFINED.
Proof.
  assert (Hout : 0x1010 ∉ recognized_formats (H := sdl_formats_le))
    by (apply (bool_decide_unpack _); vm_compute; exact I).
  assert (Hin : AUDIO_F32SYS ∈ recognized_formats (H := sdl_formats_le))
    by (apply (bool_decide_unpack _); vm_compute; exact I).
  pose proof (format_mapping_total (H := sdl_formats_le)) as (_ & _ & _ & _ & _ & _ & _ & Hu & Hd).
  exact (conj Hout (conj (Hu _ Hout) (conj Hin (Hd _ Hin)))).
Defined.

Example format_mapping_le :
  map sampleFormatInp_of [0x0008; 0x8008; 0x0010; 0x8010; 0x8020; 0x8120; 0; 0x9120]
  = [GGWAVE_SAMPLE_FORMAT_U8; GGWAVE_SAMPLE_FORMAT_I8; GGWAVE_SAMPLE_FORMAT_U16;
     GGWAVE_SAMPLE_FORMAT_I16; GGWAVE_SAMPLE_FORMAT_F32; GGWAVE_SAMPLE_FORMAT_F32;
     GGWAVE_SAMPLE_FORMAT_UNDEFINED; GGWAVE_SAMPLE_FORMAT_UNDEFINED].
Proof. reflexivity. Qed.

(** ** The audio subsystem *)

Section SDLFacts.
Implicit Types (s : gmap N AudioDevice) (dev d : SDL_AudioDeviceID).

Lemma is_open_step ev dev s :
  keeps_devices ev -> is_Some (sdl_step ev s !! dev) <-> is_Some (s !! dev).
Proof.
  destruct ev; simpl; try tauto; intros _;
    rewrite lookup_alter; case_decide; subst; rewrite ?fmap_is_Some; tauto.
Qed.

Lemma queue_of_pause dev d p s :
  queue_of dev (sdl_step (EvPauseAudioDevice d p) s) = queue_of dev s.
Proof.
  unfold queue_of; simpl. rewrite lookup_alter.
  case_decide; subst; [destruct (s !! dev) |]; reflexivity.
Qed.

Lemma queue_of_dequeue dev len s :
  queue_of dev (sdl_step (EvDequeueAudio dev len) s)
  = drop (Z.to_nat len) (queue_of dev s).
Proof.
  unfold queue_of; simpl. rewrite lookup_alter_eq.
  destruct (s !! dev); simpl; [reflexivity | now rewrite drop_nil].
Qed.

Lemma queue_of_clear dev s :
  queue_of dev (sdl_step (EvClearQueuedAudio dev) s) = [].
Proof.
  unfold queue_of; simpl. rewrite lookup_alter_eq. now destruct (s !! dev).
Qed.

Lemma queue_of_queue dev data s :
  is_Some (s !! dev) ->
  queue_of dev (sdl_step (EvQueueAudio dev data) s) = queue_of dev s ++ data.
Proof.
  intros [x Hx]. unfold queue_of; simpl. rewrite lookup_alter_eq, Hx. reflexivity.
Qed.

(** An action leaves every device it does not address as it was. *)
Lemma lookup_step_other ev dev s :
  event_device ev <> Some dev -> sdl_step ev s !! dev = s !! dev.
Proof.
  destruct ev; simpl; intros Hne; try reflexivity.
  - destruct (N.eqb_spec result 0); [reflexivity |].
    apply lookup_insert_ne. congruence.
  - apply lookup_delete_ne. congruence.
  - apply lookup_alter_ne. congruence.
  - apply lookup_alter_ne. congruence.
  - apply lookup_alter_ne. congruence.
  - apply lookup_alter_ne. congruence.
Qed.

Lemma queue_of_other ev dev s :
  event_device ev <> Some dev -> queue_of dev (sdl_step ev s) = queue_of dev s.
Proof. intros Hne. unfold queue_of. now rewrite lookup_step_other. Qed.

Lemma unpaused_other ev dev s :
  event_device ev <> Some dev -> unpaused dev (sdl_step ev s) = unpaused dev s.
Proof. intros Hne. unfold unpaused. now rewrite lookup_step_other. Qed.

Lemma unpaused_pause dev p s :
  is_Some (s !! dev) ->
  unpaused dev (sdl_step (EvPauseAudioDevice dev p) s) = negb p.
Proof.
  intros [x Hx]. unfold unpaused; simpl. now rewrite lookup_alter_eq, Hx.
Qed.

Lemma unpaused_pause_on dev s :
  unpaused dev (sdl_step (EvPauseAudioDevice dev true) s) = false.
Proof.
  unfold unpaused; simpl. rewrite lookup_alter_eq. now destruct (s !! dev).
Qed.

Lemma unpaused_pause_other dev d p s :
  d <> dev -> unpaused dev (sdl_step (EvPauseAudioDevice d p) s) = unpaused dev s.
Proof.
  intros Hne. unfold unpaused; simpl. now rewrite lookup_alter_ne.
Qed.

Lemma unpaused_keeps ev dev s :
  keeps_pause ev -> unpaused dev (sdl_step ev s) = unpaused dev s.
Proof.
  destruct ev; simpl; try tauto; intros _; unfold unpaused;
    try reflexivity;
    rewrite lookup_alter; case_decide; subst; try reflexivity;
    now destruct (s !! dev).
Qed.

Lemma queued_int_pause dev d p s :
  queued_int dev (sdl_step (EvPauseAudioDevice d p) s) = queued_int dev s.
Proof. unfold queued_int, queued_bytes. now rewrite queue_of_pause. Qed.

Lemma queued_bytes_pause dev d p s :
  queued_bytes dev (sdl_step (EvPauseAudioDevice d p) s) = queued_bytes dev s.
Proof. unfold queued_bytes. now rewrite queue_of_pause. Qed.

Lemma replay_app evs1 evs2 s :
  replay (evs1 ++ evs2) s = replay evs2 (replay evs1 s).
Proof. apply fold_left_app. Qed.

Lemma replay_snoc evs ev s :
  replay (evs ++ [ev]) s = sdl_step ev (replay evs s).
Proof. now rewrite replay_app. Qed.

End SDLFacts.

(** ** The monad and the record *)

Arguments sdl_step : simpl never.
Arguments to_int : simpl never.
Arguments to_u32 : simpl never.
Arguments Qgtb : simpl never.
Arguments getTime_ms : simpl never.
Arguments queued_bytes : simpl never.
Arguments queue_of : simpl never.

Section MonadFacts.
Context {E : Type} `{ModemEngine E}.

Lemma ggWave_get_run {A} (f : E -> A) (w : World E) (e : E) :
  g_ggWave w = Some e -> ggWave_get f w = Some (f e, w).
Proof. intros He. unfold ggWave_get, ggWave, bind, gets, ret. now rewrite He. Qed.

Lemma ggWave_get_null {A} (f : E -> A) (w : World E) :
  g_ggWave w = None -> ggWave_get f w = None.
Proof. intros He. unfold ggWave_get, ggWave, bind, gets, ret. now rewrite He. Qed.

Lemma ggWave_call_run {A} (ev : Event) (f : E -> A * E) (w : World E) (e : E) :
  g_ggWave w = Some e ->
  ggWave_call ev f w
  = Some (fst (f e), set_ggWave (Some (snd (f e))) (log_event ev w)).
Proof. intros He. unfold ggWave_call, ggWave, bind, gets, ret. now rewrite He. Qed.

Lemma set_tLastNoData_same (w : World E) (v : option Z) :
  tLastNoData w = v -> set_tLastNoData v w = w.
Proof. intros <-. now destruct w. Qed.

Lemma new_events_app (w w' : World E) (evs : list Event) :
  trace w' = trace w ++ evs -> new_events w w' = evs.
Proof. intros Ht. unfold new_events. rewrite Ht. apply drop_app_length. Qed.

End MonadFacts.

(** ** The paths of a tick *)

Section TickPaths.
Context {E : Type} `{ModemEngine E}.
Variables (w : World E) (e : E).

Lemma tick_inactive :
  inactive w = true -> GGWave_mainLoop w = Some (false, w).
Proof.
  intros Hin. unfold inactive in Hin.
  unfold GGWave_mainLoop, bind, gets. now rewrite Hin.
Qed.

Hypothesis Hact : inactive w = false.

Lemma tick_null : g_ggWave w = None -> GGWave_mainLoop w = None.
Proof.
  intros Hnull. unfold inactive in Hact.
  unfold GGWave_mainLoop. unfold bind at 1 2. unfold gets at 1 2.
  rewrite Hact. unfold bind at 1. now rewrite ggWave_get_null.
Qed.

Hypothesis Heng : g_ggWave w = Some e.

Ltac tick_start :=
  unfold inactive in Hact;
  unfold GGWave_mainLoop; unfold bind at 1 2; unfold gets at 1 2;
  rewrite Hact; unfold bind at 1;
  rewrite (ggWave_get_run _ _ _ Heng).

Ltac tick_post_done :=
  eexists; split; [reflexivity |];
  unfold tick_post; simpl; rewrite <- ?app_assoc; simpl;
  repeat split; try reflexivity; try exact Heng; try (now rewrite app_nil_r).

(** Outbound data pending: lines 292-296. *)
Lemma tick_transmit :
  txHasData e = true ->
  exists w',
    GGWave_mainLoop w = Some (true, w') /\
    tick_post w
      [EvPauseAudioDevice (g_devIdOut w) SDL_TRUE;
       EvPauseAudioDevice (g_devIdInp w) SDL_TRUE;
       EvEncode;
       EvQueueAudio (g_devIdOut w) (fst (encode e))]
      [] (snd (encode e)) (tLastNoData w) (dataInp w) w'.
Proof.
  intros Htx. tick_start. rewrite Htx. unfold bind, ret; simpl.
  rewrite (ggWave_call_run _ _ _ e) by exact Heng.
  tick_post_done.
Qed.

(** Nothing to send, playback queue not drained: lines 255-260 and 289. *)
Lemma tick_draining :
  txHasData e = false -> drained w e = false ->
  exists w',
    GGWave_mainLoop w = Some (true, w') /\
    tick_post w [EvPauseAudioDevice (g_devIdOut w) SDL_FALSE] []
      e (Some (clock w)) (dataInp w) w'.
Proof.
  intros Htx Hdr. tick_start. rewrite Htx. unfold drained, queued_int in Hdr.
  unfold bind, ret, static_tLastNoData, now, gets, bind, ret; simpl.
  destruct (tLastNoData w) eqn:Ht; simpl;
    rewrite (ggWave_get_run _ _ e) by exact Heng; simpl;
    unfold SDL_GetQueuedAudioSize, gets; simpl;
    rewrite queued_bytes_pause, Hdr; unfold modify; simpl;
    tick_post_done.
Qed.

(** Nothing to send, playback drained, gate of line 264 closed: lines
    255-264 and 286. *)
Lemma tick_idle :
  txHasData e = false -> drained w e = true ->
  debounced w && enough w e = false ->
  exists w',
    GGWave_mainLoop w = Some (true, w') /\
    tick_post w
      [EvPauseAudioDevice (g_devIdOut w) SDL_FALSE;
       EvPauseAudioDevice (g_devIdInp w) SDL_FALSE;
       EvClearQueuedAudio (g_devIdInp w)]
      [] e (Some (default (clock w) (tLastNoData w))) (dataInp w) w'.
Proof.
  intros Htx Hdr Hgate. tick_start. rewrite Htx.
  unfold drained, queued_int in Hdr.
  unfold debounced, elapsed_ms, enough, queued_int in Hgate.
  unfold bind, ret, static_tLastNoData, now, gets, bind, ret; simpl.
  destruct (tLastNoData w) eqn:Ht; simpl in *;
    rewrite (ggWave_get_run _ _ e) by exact Heng; simpl;
    unfold SDL_GetQueuedAudioSize, gets; simpl;
    rewrite queued_bytes_pause, Hdr; simpl;
    rewrite (ggWave_get_run _ _ e) by exact Heng; simpl;
    rewrite !queued_bytes_pause, Hgate;
    unfold SDL_ClearQueuedAudio, emit, modify; simpl;
    tick_post_done; exact Ht.
Qed.

(** The gate of line 264 opens only on a later pass, when a stored
    timestamp exists. *)
Lemma debounced_stored : debounced w = true -> exists t, tLastNoData w = Some t.
Proof.
  unfold debounced, elapsed_ms. destruct (tLastNoData w); eauto.
  simpl. now rewrite getTime_ms_same.
Qed.

Ltac decode_start Htx Hdr Hdeb Hen t Ht :=
  destruct (debounced_stored Hdeb) as [t Ht];
  tick_start; rewrite Htx;
  unfold drained, queued_int in Hdr;
  unfold debounced, elapsed_ms, enough in Hdeb, Hen; unfold queued_int in *;
  rewrite Ht in Hdeb; simpl in Hdeb;
  unfold bind, ret, static_tLastNoData, now, gets, bind, ret; simpl;
  rewrite Ht; simpl;
  rewrite (ggWave_get_run _ _ e) by exact Heng; simpl;
  unfold SDL_GetQueuedAudioSize, gets; simpl;
  rewrite queued_bytes_pause, Hdr; simpl;
  rewrite (ggWave_get_run _ _ e) by exact Heng; simpl;
  rewrite !queued_bytes_pause, Hdeb, Hen; simpl;
  unfold static_dataInp, write_dataInp, read_dataInp, bind, gets, ret,
    undefined, modify; simpl.

Lemma queue_of_two_pauses (d1 d2 : SDL_AudioDeviceID) (p1 p2 : bool)
    (s : gmap N AudioDevice) :
  queue_of (g_devIdInp w)
    (sdl_step (EvPauseAudioDevice d1 p1) (sdl_step (EvPauseAudioDevice d2 p2) s))
  = queue_of (g_devIdInp w) s.
Proof. now rewrite !queue_of_pause. Qed.

(** Gate open, but line 265 or 266 is undefined. *)
Lemma tick_decode_undefined :
  txHasData e = false -> drained w e = true ->
  debounced w = true -> enough w e = true ->
  dataInp_ready w e = false ->
  GGWave_mainLoop w = None.
Proof.
  intros Htx Hdr Hdeb Hen Hrdy. decode_start Htx Hdr Hdeb Hen t Ht.
  unfold dataInp_ready, taken_bytes in Hrdy.
  destruct (dataInp w) as [buf|] eqn:Hd; simpl.
  - rewrite Hd, queue_of_two_pauses.
    apply Nat.leb_gt in Hrdy. apply Nat.ltb_lt in Hrdy. now rewrite Hrdy.
  - apply Z.leb_gt in Hrdy. apply Z.ltb_lt in Hrdy. now rewrite Hrdy.
Qed.

(** Gate open: lines 255-284. *)
Lemma tick_decode :
  txHasData e = false -> drained w e = true ->
  debounced w = true -> enough w e = true ->
  dataInp_ready w e = true ->
  exists w',
    GGWave_mainLoop w = Some (true, w') /\
    tick_post w (decode_events w e) (decode_lines w e) (decode_engine w e)
      (tLastNoData w) (Some (decode_input w e)) w'.
Proof.
  intros Htx Hdr Hdeb Hen Hrdy.
  unfold decode_events, decode_lines, decode_engine, decode_ok, overflow, decode_input.
  unfold dataInp_ready in Hrdy. unfold taken_bytes in *.
  decode_start Htx Hdr Hdeb Hen t Ht.
  destruct (dataInp w) as [buf|] eqn:Hd; simpl.
  - rewrite Hd, queue_of_two_pauses.
    apply Nat.leb_le in Hrdy. apply Nat.ltb_ge in Hrdy. rewrite Hrdy; simpl.
    rewrite (ggWave_call_run _ _ _ e) by exact Heng; simpl.
    match goal with |- context [decode ?d e] => set (data := d) in * end.
    destruct (decode data e) as [ok e1] eqn:Hdec; simpl.
    destruct ok; simpl;
      try (destruct (rxTakeData e1) as [[n rxd] e2] eqn:Hrx; simpl;
           destruct (0 <? n); simpl);
      unfold print, modify, SDL_ClearQueuedAudio, SDL_GetQueuedAudioSize, emit,
        modify, gets; simpl;
      destruct (32 * frameBytesInp e <? _) eqn:Hov; simpl;
      tick_post_done; try exact Ht; try (now rewrite app_nil_r);
      unfold queued_bytes; change (sdl_step EvTakeData ?s) with s;
      change (sdl_step (EvDecode ?d) ?s) with s;
      rewrite queue_of_dequeue, queue_of_two_pauses; reflexivity.
  - apply Z.leb_le in Hrdy.
    assert (Hnlt : (frameBytesInp e <? 0) = false) by (apply Z.ltb_ge; lia).
    rewrite Hnlt; simpl. rewrite queue_of_two_pauses.
    assert (Hu32 : to_u32 (frameBytesInp e) = frameBytesInp e).
    { apply Z.leb_le in Hen.
      pose proof (to_int_lt_2_31 (to_u32 (queued_bytes (g_devIdInp w) (sdl w)))).
      apply to_u32_small. lia. }
    rewrite Hu32.
    assert (Hfit : (length (replicate (Z.to_nat (frameBytesInp e)) Byte.x00)
                    <? length (take (Z.to_nat (frameBytesInp e))
                                 (queue_of (g_devIdInp w) (sdl w))))%nat = false).
    { apply Nat.ltb_ge. rewrite length_replicate, length_take. lia. }
    rewrite Hfit; simpl.
    rewrite (ggWave_call_run _ _ _ e) by exact Heng; simpl.
    match goal with |- context [decode ?d e] => set (data := d) in * end.
    destruct (decode data e) as [ok e1] eqn:Hdec; simpl.
    destruct ok; simpl;
      try (destruct (rxTakeData e1) as [[n rxd] e2] eqn:Hrx; simpl;
           destruct (0 <? n); simpl);
      unfold print, modify, SDL_ClearQueuedAudio, SDL_GetQueuedAudioSize, emit,
        modify, gets; simpl;
      destruct (32 * frameBytesInp e <? _) eqn:Hov; simpl;
      tick_post_done; try exact Ht; try (now rewrite app_nil_r);
      unfold queued_bytes; change (sdl_step EvTakeData ?s) with s;
      change (sdl_step (EvDecode ?d) ?s) with s;
      rewrite queue_of_dequeue, queue_of_two_pauses; reflexivity.
Qed.

End TickPaths.

(** ** Every tick follows one of the paths *)

Section TickSpec.
Context {E : Type} `{ModemEngine E}.
Implicit Types (w : World E) (e : E).

Lemma inactive_true w :
  inactive w = true <-> g_devIdInp w = 0%N /\ g_devIdOut w = 0%N.
Proof. unfold inactive. rewrite andb_true_iff, !N.eqb_eq. tauto. Qed.

Lemma inactive_false w :
  inactive w = false <-> g_devIdInp w <> 0%N \/ g_devIdOut w <> 0%N.
Proof.
  rewrite <- not_true_iff_false, inactive_true.
  destruct (N.eq_dec (g_devIdInp w) 0%N), (N.eq_dec (g_devIdOut w) 0%N); tauto.
Qed.

(** A tick that returns has followed one of the paths. *)
Lemma tick_inv w r w' :
  GGWave_mainLoop w = Some (r, w') ->
  (inactive w = true /\ r = false /\ w' = w) \/
  (inactive w = false /\ r = true /\
   exists e, g_ggWave w = Some e /\ tick_spec w e w').
Proof.
  intros Hrun. destruct (inactive w) eqn:Hact.
  - left. rewrite tick_inactive in Hrun by assumption.
    injection Hrun as <- <-. auto.
  - right. destruct (g_ggWave w) as [e|] eqn:Heng;
      [| rewrite tick_null in Hrun by assumption; discriminate].
    assert (Hgoal : r = true /\ tick_spec w e w');
      [| destruct Hgoal; eauto].
    destruct (txHasData e) eqn:Htx.
    { destruct (tick_transmit w e Hact Heng Htx) as (w1 & Hw1 & Hpost).
      rewrite Hw1 in Hrun. injection Hrun as <- <-.
      split; [reflexivity | now apply TickTransmit]. }
    destruct (drained w e) eqn:Hdr.
    2: { destruct (tick_draining w e Hact Heng Htx Hdr) as (w1 & Hw1 & Hpost).
         rewrite Hw1 in Hrun. injection Hrun as <- <-.
         split; [reflexivity | now apply TickDraining]. }
    destruct (debounced w && enough w e) eqn:Hgate.
    2: { destruct (tick_idle w e Hact Heng Htx Hdr Hgate) as (w1 & Hw1 & Hpost).
         rewrite Hw1 in Hrun. injection Hrun as <- <-.
         split; [reflexivity | now apply TickIdle]. }
    apply andb_true_iff in Hgate as [Hdeb Hen].
    destruct (dataInp_ready w e) eqn:Hrdy.
    2: { rewrite (tick_decode_undefined w e Hact Heng Htx Hdr Hdeb Hen Hrdy) in Hrun.
         discriminate. }
    destruct (tick_decode w e Hact Heng Htx Hdr Hdeb Hen Hrdy) as (w1 & Hw1 & Hpost).
    rewrite Hw1 in Hrun. injection Hrun as <- <-.
    split; [reflexivity | now apply TickDecode].
Qed.

(** An active tick with an engine returns, unless lines 265-266 are
    undefined. *)
Lemma tick_total w e :
  inactive w = false -> g_ggWave w = Some e -> dataInp_ready w e = true ->
  exists w', GGWave_mainLoop w = Some (true, w') /\ tick_spec w e w'.
Proof.
  intros Hact Heng Hrdy.
  destruct (txHasData e) eqn:Htx.
  { destruct (tick_transmit w e Hact Heng Htx) as (w1 & Hw1 & Hpost).
    exists w1. split; [assumption | now apply TickTransmit]. }
  destruct (drained w e) eqn:Hdr.
  2: { destruct (tick_draining w e Hact Heng Htx Hdr) as (w1 & Hw1 & Hpost).
       exists w1. split; [assumption | now apply TickDraining]. }
  destruct (debounced w && enough w e) eqn:Hgate.
  2: { destruct (tick_idle w e Hact Heng Htx Hdr Hgate) as (w1 & Hw1 & Hpost).
       exists w1. split; [assumption | now apply TickIdle]. }
  apply andb_true_iff in Hgate as [Hdeb Hen].
  destruct (tick_decode w e Hact Heng Htx Hdr Hdeb Hen Hrdy) as (w1 & Hw1 & Hpost).
  exists w1. split; [assumption | now apply TickDecode].
Qed.


Lemma tick_spec_trace w e w' :
  tick_spec w e w' ->
  trace w' = trace w ++ new_events w w' /\
  sdl w' = replay (new_events w w') (sdl w) /\
  g_devIdInp w' = g_devIdInp w /\ g_devIdOut w' = g_devIdOut w.
Proof.
  intros [Htx Hpost | Htx _ Hpost | Htx _ _ Hpost | Htx _ _ _ _ Hpost];
    destruct Hpost as (Htr & Hsdl & _ & _ & _ & _ & Hi & Ho & _);
    rewrite (new_events_app _ _ _ Htr); auto.
Qed.

End TickSpec.

(** ** C10: active and inactive ticks *)

Section Activity.
Context {E : Type} `{ModemEngine E}.


End Activity.


(** ** C2: a tick with outbound data *)

Section Transmit.
Context {E : Type} `{ModemEngine E}.

Lemma unpaused_pause_on_mono (dev d : SDL_AudioDeviceID) (s : gmap N AudioDevice) :
  unpaused dev s = false ->
  unpaused dev (sdl_step (EvPauseAudioDevice d true) s) = false.
Proof.
  intros Hp. destruct (decide (d = dev)) as [-> | Hne].
  - apply unpaused_pause_on.
  - now rewrite unpaused_pause_other.
Qed.

Lemma unpaused_pause_off_mono (dev d : SDL_AudioDeviceID) (s : gmap N AudioDevice) :
  unpaused dev s = true ->
  unpaused dev (sdl_step (EvPauseAudioDevice d false) s) = true.
Proof.
  intros Hp. destruct (decide (d = dev)) as [-> | Hne].
  - rewrite unpaused_pause; [reflexivity |].
    unfold unpaused in Hp. destruct (s !! dev); [eauto | discriminate].
  - now rewrite unpaused_pause_other.
Qed.

(** C2, as the code has it.  A tick that finds outbound data pending pauses
    the playback device and the capture device, asks the engine for one
    waveform, and queues that waveform on the playback device: these four
    actions and no other.  Both devices are paused when the tick ends, and
    an open playback device holds the waveform at the end of its queue. *)
Theorem transmit_tick (w : World E) (e : E) :
  g_devIdInp w <> 0%N \/ g_devIdOut w <> 0%N ->
  g_ggWave w = Some e ->
  txHasData e = true ->
  exists w',
    GGWave_mainLoop w = Some (true, w') /\
    new_events w w' =
      [EvPauseAudioDevice (g_devIdOut w) SDL_TRUE;
       EvPauseAudioDevice (g_devIdInp w) SDL_TRUE;
       EvEncode;
       EvQueueAudio (g_devIdOut w) (fst (encode e))] /\
    g_ggWave w' = Some (snd (encode e)) /\
    unpaused (g_devIdOut w) (sdl w') = false /\
    unpaused (g_devIdInp w) (sdl w') = false /\
    (is_Some (sdl w !! g_devIdOut w) ->
     queue_of (g_devIdOut w) (sdl w')
     = queue_of (g_devIdOut w) (sdl w) ++ fst (encode e)).
Proof.
  intros Hnz Heng Htx. apply inactive_false in Hnz.
  destruct (tick_transmit w e Hnz Heng Htx) as (w' & Hrun & Hpost).
  destruct Hpost as (Htr & Hsdl & _ & He' & _).
  exists w'. rewrite (new_events_app _ _ _ Htr), Hsdl.
  repeat split; try assumption; unfold replay; simpl.
  - rewrite !unpaused_keeps by exact I.
    apply unpaused_pause_on_mono, unpaused_pause_on.
  - rewrite !unpaused_keeps by exact I. apply unpaused_pause_on.
  - intros Hopen. rewrite queue_of_queue.
    + change (sdl_step EvEncode ?s) with s. now rewrite !queue_of_pause.
    + now rewrite !is_open_step by exact I.
Qed.

End Transmit.

(** With the two bytes of [w_sending] pending. *)
Lemma transmit_tick_witness :
  exists w',
    GGWave_mainLoop w_sending = Some (true, w') /\
    new_events w_sending w' =
      [EvPauseAudioDevice 2%N true; EvPauseAudioDevice 3%N true; EvEncode;
       EvQueueAudio 2%N [Byte.x68; Byte.x69]] /\
    unpaused 2%N (sdl w') = false /\
    unpaused 3%N (sdl w') = false /\
    queue_of 2%N (sdl w') = [Byte.x68; Byte.x69].
Proof.
  assert (Heng : exists e, g_ggWave w_sending = Some e /\ txHasData e = true
                           /\ fst (encode e) = [Byte.x68; Byte.x69])
    by (vm_compute; eauto).
  destruct Heng as (e & Heng & Htx & Hwf).
  destruct (transmit_tick w_sending e) as (w' & Hrun & Hev & _ & Ho & Hi & Hq).
  - right. vm_compute. discriminate.
  - exact Heng.
  - exact Htx.
  - assert (Hout : g_devIdOut w_sending = 2%N) by (vm_compute; reflexivity).
    assert (Hinp : g_devIdInp w_sending = 3%N) by (vm_compute; reflexivity).
    assert (Hq0 : queue_of 2%N (sdl w_sending) = []) by (vm_compute; reflexivity).
    rewrite Hwf, ?Hout, ?Hinp in *. rewrite Hq0 in Hq.
    exists w'. repeat split; [exact Hrun | exact Hev | exact Ho | exact Hi |].
    apply Hq. vm_compute. eauto.
Defined.

(** C2 as stated fails: in [w_sending] outbound data is pending and the
    playback device is running; the tick pauses it. *)
Lemma transmit_tick_pauses_playback :
  (exists e, g_ggWave w_sending = Some e /\ txHasData e = true) /\
  unpaused (g_devIdOut w_sending) (sdl w_sending) = true /\
  exists w',
    GGWave_mainLoop w_sending = Some (true, w') /\
    In (EvPauseAudioDevice (g_devIdOut w_sending) SDL_TRUE) (new_events w_sending w') /\
    ~ In (EvPauseAudioDevice (g_devIdOut w_sending) SDL_FALSE) (new_events w_sending w') /\
    unpaused (g_devIdOut w_sending) (sdl w') = false.
Proof.
  split; [vm_compute; eauto |]. split; [vm_compute; reflexivity |].
  destruct (GGWave_mainLoop w_sending) as [[r w'] |] eqn:Hrun;
    [| vm_compute in Hrun; discriminate].
  assert (Hr : r = true) by (vm_compute in Hrun; congruence). subst r.
  exists w'. split; [reflexivity |].
  assert (Hev : new_events w_sending w' =
      [EvPauseAudioDevice 2%N true; EvPauseAudioDevice 3%N true; EvEncode;
       EvQueueAudio 2%N [Byte.x68; Byte.x69]]).
  { vm_compute in Hrun. injection Hrun as <-. vm_compute. reflexivity. }
  assert (Hout : g_devIdOut w_sending = 2%N) by (vm_compute; reflexivity).
  rewrite Hev, Hout. repeat split.
  - simpl. auto.
  - simpl. intros [Hc | [Hc | [Hc | [Hc | []]]]]; discriminate.
  - vm_compute in Hrun. injection Hrun as <-. vm_compute. reflexivity.
Qed.

(** ** C3: a tick with nothing to send *)

Section Listening.
Context {E : Type} `{ModemEngine E}.


(** C3, as the code has it.  A tick that finds no outbound data pending
    resumes the playback device: that is its first action, and an open
    playback device is running when the tick ends.  It resumes the capture
    device when the playback queue is below one output frame; otherwise it
    takes no further action, stores the current time in [tLastNoData], and
    leaves the capture device as it was. *)
Theorem listening_tick (w : World E) (e : E) :
  g_devIdInp w <> 0%N \/ g_devIdOut w <> 0%N ->
  g_ggWave w = Some e ->
  dataInp_ready w e = true ->
  txHasData e = false ->
  exists w' rest,
    GGWave_mainLoop w = Some (true, w') /\
    new_events w w' = EvPauseAudioDevice (g_devIdOut w) SDL_FALSE :: rest /\
    (is_Some (sdl w !! g_devIdOut w) -> unpaused (g_devIdOut w) (sdl w') = true) /\
    (drained w e = true ->
     (exists rest', rest = EvPauseAudioDevice (g_devIdInp w) SDL_FALSE :: rest') /\
     (is_Some (sdl w !! g_devIdInp w) -> unpaused (g_devIdInp w) (sdl w') = true)) /\
    (drained w e = false ->
     rest = [] /\ tLastNoData w' = Some (clock w) /\
     (g_devIdInp w <> g_devIdOut w ->
      unpaused (g_devIdInp w) (sdl w') = unpaused (g_devIdInp w) (sdl w))).
Proof.
  intros Hnz Heng Hrdy Htx. apply inactive_false in Hnz.
  destruct (tick_total w e Hnz Heng Hrdy) as (w' & Hrun & Hspec).
  exists w'.
  destruct Hspec as [Htx' Hpost | _ Hdr Hpost | _ Hdr Hgate Hpost
                    | _ Hdr Hdeb Hen _ Hpost]; [congruence | | |];
    destruct Hpost as (Htr & Hsdl & _ & _ & HtL & _);
    rewrite (new_events_app _ _ _ Htr), Hsdl;
    eexists; (split; [exact Hrun |]); (split; [reflexivity |]).
  - (* playback still draining *)
    unfold replay; simpl. repeat split.
    + intros Hopen. now apply unpaused_pause.
    + congruence.
    + congruence.
    + exact HtL.
    + intros Hne. apply unpaused_pause_other. congruence.
  - (* gate closed *)
    unfold replay; simpl. repeat split; try congruence.
    + intros Hopen. rewrite unpaused_keeps by exact I.
      apply unpaused_pause_off_mono. now apply unpaused_pause.
    + eauto.
    + intros Hopen. rewrite unpaused_keeps by exact I.
      apply unpaused_pause. now rewrite is_open_step by exact I.
  - (* gate open *)
    assert (Hpre : forall dev s,
      is_Some (s !! dev) -> (dev = g_devIdOut w \/ dev = g_devIdInp w) ->
      unpaused dev
        (sdl_step (EvPauseAudioDevice (g_devIdInp w) SDL_FALSE)
           (sdl_step (EvPauseAudioDevice (g_devIdOut w) SDL_FALSE) s)) = true).
    { intros dev s Hopen [-> | ->].
      - apply unpaused_pause_off_mono. now apply unpaused_pause.
      - apply unpaused_pause. now rewrite is_open_step by exact I. }
    assert (Hkeep : forall dev s,
      unpaused dev (replay (decode_events w e) s)
      = unpaused dev
          (sdl_step (EvPauseAudioDevice (g_devIdInp w) SDL_FALSE)
             (sdl_step (EvPauseAudioDevice (g_devIdOut w) SDL_FALSE) s))).
    { intros dev s. unfold decode_events, replay.
      destruct (decode_ok w e), (overflow w e); simpl;
        now rewrite !unpaused_keeps by exact I. }
    repeat split; try congruence.
    + intros Hopen. rewrite Hkeep. apply Hpre; auto.
    + eauto.
    + intros Hopen. rewrite Hkeep. apply Hpre; auto.
Qed.

End Listening.

(** On [w_sent]: nothing more to send, the 2048 queued bytes not yet played. *)
Lemma listening_tick_witness :
  exists w' rest,
    GGWave_mainLoop w_sent = Some (true, w') /\
    new_events w_sent w' = EvPauseAudioDevice (g_devIdOut w_sent) SDL_FALSE :: rest /\
    unpaused (g_devIdOut w_sent) (sdl w') = true /\
    rest = [] /\ tLastNoData w' = Some (clock w_sent).
Proof.
  assert (Heng : exists e, g_ggWave w_sent = Some e /\ txHasData e = false
                           /\ dataInp_ready w_sent e = true
                           /\ drained w_sent e = false)
    by (vm_compute; eauto).
  destruct Heng as (e & Heng & Htx & Hrdy & Hdr).
  destruct (listening_tick w_sent e) as (w' & rest & Hrun & Hev & Ho & _ & Hd).
  - right. vm_compute. discriminate.
  - exact Heng.
  - exact Hrdy.
  - exact Htx.
  - destruct (Hd Hdr) as (Hrest & HtL & _).
    exists w', rest. repeat split; try assumption.
    apply Ho. vm_compute. eauto.
Defined.

(** C3 as stated fails on both counts: in [w_sent] nothing is pending, both
    devices are paused and 2048 bytes wait in the playback queue; the tick
    resumes the playback device and leaves the capture device paused. *)
Lemma listening_tick_resumes_playback :
  (exists e, g_ggWave w_sent = Some e /\ txHasData e = false) /\
  unpaused (g_devIdOut w_sent) (sdl w_sent) = false /\
  exists w',
    GGWave_mainLoop w_sent = Some (true, w') /\
    new_events w_sent w' = [EvPauseAudioDevice (g_devIdOut w_sent) SDL_FALSE] /\
    unpaused (g_devIdOut w_sent) (sdl w') = true /\
    unpaused (g_devIdInp w_sent) (sdl w') = false.
Proof.
  split; [vm_compute; eauto |]. split; [vm_compute; reflexivity |].
  destruct (GGWave_mainLoop w_sent) as [[r w'] |] eqn:Hrun;
    [| vm_compute in Hrun; discriminate].
  assert (Hr : r = true) by (vm_compute in Hrun; congruence). subst r.
  exists w'. split; [reflexivity |].
  vm_compute in Hrun. injection Hrun as <-.
  repeat split; vm_compute; reflexivity.
Qed.

(** ** C9: discard on idle *)

Section DiscardOnIdle.
Context {E : Type} `{ModemEngine E}.

Lemma queued_bytes_nonneg (dev : SDL_AudioDeviceID) (s : gmap N AudioDevice) :
  0 <= queued_bytes dev s.
Proof. unfold queued_bytes. lia. Qed.

(** Fewer queued bytes than one input frame: the second half of the test
    of line 264 fails, whatever the casts do. *)
Lemma short_queue_not_enough (w : World E) (e : E) :
  queued_bytes (g_devIdInp w) (sdl w) < frameBytesInp e -> enough w e = false.
Proof.
  intros Hlt. unfold enough, queued_int. apply Z.leb_gt.
  pose proof (queued_bytes_nonneg (g_devIdInp w) (sdl w)).
  pose proof (to_int_u32_le (queued_bytes (g_devIdInp w) (sdl w))). lia.
Qed.

(** C9. In a tick with nothing to send whose playback queue is below one
    output frame, if no more than 500 ms have passed since the stored
    timestamp, or the capture queue holds fewer bytes than one input frame,
    then the tick resumes both devices and clears the capture queue: the
    queue is empty when the tick ends, nothing was taken from it and nothing
    was handed to the engine. *)
Theorem idle_tick_clears (w : World E) (e : E) :
  g_devIdInp w <> 0%N \/ g_devIdOut w <> 0%N ->
  g_ggWave w = Some e ->
  txHasData e = false ->
  drained w e = true ->
  debounced w = false \/ queued_bytes (g_devIdInp w) (sdl w) < frameBytesInp e ->
  exists w',
    GGWave_mainLoop w = Some (true, w') /\
    new_events w w' =
      [EvPauseAudioDevice (g_devIdOut w) SDL_FALSE;
       EvPauseAudioDevice (g_devIdInp w) SDL_FALSE;
       EvClearQueuedAudio (g_devIdInp w)] /\
    queue_of (g_devIdInp w) (sdl w') = [] /\
    g_ggWave w' = Some e /\
    dataInp w' = dataInp w.
Proof.
  intros Hnz Heng Htx Hdr Hidle. apply inactive_false in Hnz.
  assert (Hgate : debounced w && enough w e = false).
  { destruct Hidle as [Hd | Hq].
    - now rewrite Hd.
    - rewrite (short_queue_not_enough _ _ Hq). apply andb_false_r. }
  destruct (tick_idle w e Hnz Heng Htx Hdr Hgate) as (w' & Hrun & Hpost).
  destruct Hpost as (Htr & Hsdl & _ & He & _ & Hbuf & _).
  exists w'. rewrite (new_events_app _ _ _ Htr), Hsdl.
  repeat split; try assumption.
  unfold replay; simpl. apply queue_of_clear.
Qed.

End DiscardOnIdle.

(** After 600 ms of listening, with 100 bytes in the capture queue: fewer
    than the 2048 bytes of one input frame. *)
Lemma idle_tick_clears_witness :
  queue_of (g_devIdInp (w_heard 100)) (sdl (w_heard 100)) = replicate 100 Byte.x01 /\
  exists w',
    GGWave_mainLoop (w_heard 100) = Some (true, w') /\
    queue_of (g_devIdInp (w_heard 100)) (sdl w') = [].
Proof.
  split; [vm_compute; reflexivity |].
  assert (Heng : exists e, g_ggWave (w_heard 100) = Some e /\ txHasData e = false
                           /\ drained (w_heard 100) e = true
                           /\ frameBytesInp e = 2048)
    by (vm_compute; eauto).
  destruct Heng as (e & Heng & Htx & Hdr & Hframe).
  destruct (idle_tick_clears (w_heard 100) e) as (w' & Hrun & _ & Hq & _).
  - right. vm_compute. discriminate.
  - exact Heng.
  - exact Htx.
  - exact Hdr.
  - right. rewrite Hframe. vm_compute. reflexivity.
  - exists w'. split; [exact Hrun | exact Hq].
Defined.

(** ** C1: half duplex *)

Section HalfDuplex.
Context {E : Type} `{ModemEngine E}.
Implicit Types (w : World E) (e : E) (s : gmap N AudioDevice).

Lemma queued_int_other ev dev s :
  event_device ev <> Some dev -> queued_int dev (sdl_step ev s) = queued_int dev s.
Proof.
  intros Hne. unfold queued_int, queued_bytes. now rewrite queue_of_other.
Qed.

(** One action. *)
Lemma half_duplex_step w e s ev :
  half_duplex w e s -> keeps_half_duplex w e s ev ->
  half_duplex w e (sdl_step ev s).
Proof.
  unfold half_duplex. intros Hinv Hok.
  destruct ev; simpl in Hok; try contradiction; try exact Hinv.
  - (* pause *)
    rewrite queued_int_pause. intros Hrun.
    destruct (decide (dev = g_devIdInp w)) as [-> | Hne].
    + destruct Hok as [-> | [Hc | Hlt]]; [| contradiction | exact Hlt].
      now rewrite unpaused_pause_on in Hrun.
    + apply Hinv. now rewrite unpaused_pause_other in Hrun.
  - (* queue *)
    rewrite unpaused_keeps by exact I. congruence.
  - (* dequeue *)
    rewrite unpaused_keeps by exact I.
    rewrite queued_int_other by (simpl; congruence). exact Hinv.
  - (* clear *)
    rewrite unpaused_keeps by exact I.
    rewrite queued_int_other by (simpl; congruence). exact Hinv.
Qed.

(** A sequence of actions, at every point of it. *)
Lemma half_duplex_prefixes w e evs :
  forall s,
    half_duplex w e s -> all_keep_half_duplex w e evs s ->
    forall p, p `prefix_of` evs -> half_duplex w e (replay p s).
Proof.
  induction evs as [| ev evs IH]; intros s Hinv Hall p Hp.
  - apply prefix_nil_inv in Hp. now subst p.
  - destruct p as [| x p]; [exact Hinv |].
    pose proof (prefix_cons_inv_1 _ _ _ _ Hp) as ->.
    apply prefix_cons_inv_2 in Hp. destruct Hall as [Hok Hall].
    change (replay (ev :: p) s) with (replay p (sdl_step ev s)).
    apply IH; [now apply half_duplex_step | exact Hall | exact Hp].
Qed.

(** The actions of each path keep the invariant. *)
Lemma tick_spec_keeps w e w' :
  g_devIdInp w <> g_devIdOut w ->
  tick_spec w e w' ->
  all_keep_half_duplex w e (new_events w w') (sdl w).
Proof.
  intros Hne [Htx Hpost | Htx Hdr Hpost | Htx Hdr Hgate Hpost
             | Htx Hdr Hdeb Hen Hrdy Hpost];
    destruct Hpost as (Htr & _); rewrite (new_events_app _ _ _ Htr).
  - simpl. repeat split; auto.
    change (sdl_step EvEncode ?s) with s. apply unpaused_pause_on.
  - simpl. split; [| exact I]. right. left. congruence.
  - simpl. repeat split.
    + right. left. congruence.
    + right. right. rewrite queued_int_pause. now apply Z.ltb_lt.
    + exact Hne.
  - unfold decode_events.
    destruct (decode_ok w e), (overflow w e); simpl; repeat split;
      try exact Hne;
      try (right; left; congruence);
      right; right; rewrite queued_int_pause; now apply Z.ltb_lt.
Qed.

(** C1, as the code has it.  The two devices are not kept apart by their
    pause flags: a listening tick leaves both of them running.  What every
    tick keeps, at every point during the tick and at its end, is that the
    capture device runs only while the playback queue holds less than one
    output frame; so whenever the playback queue holds a frame or more, at
    most one of the two devices is running.  This is for two different
    handles, from a state in which it holds. *)
Theorem half_duplex_tick (w : World E) (e : E) (r : bool) (w' : World E) :
  g_ggWave w = Some e ->
  g_devIdInp w <> g_devIdOut w ->
  half_duplex w e (sdl w) ->
  GGWave_mainLoop w = Some (r, w') ->
  sdl w' = replay (new_events w w') (sdl w) /\
  forall evs, evs `prefix_of` new_events w w' ->
    half_duplex w e (replay evs (sdl w)) /\
    (frameBytesOut e <= queued_int (g_devIdOut w) (replay evs (sdl w)) ->
     exclusive w (replay evs (sdl w))).
Proof.
  intros Heng Hne Hinv Hrun.
  assert (Hall : sdl w' = replay (new_events w w') (sdl w) /\
                 all_keep_half_duplex w e (new_events w w') (sdl w)).
  { destruct (tick_inv w r w' Hrun) as [(_ & _ & ->) | (_ & _ & e0 & Heng0 & Hspec)].
    - unfold new_events. rewrite drop_all. split; [reflexivity | exact I].
    - assert (e0 = e) by congruence. subst e0. split.
      + exact (proj1 (proj2 (tick_spec_trace w e w' Hspec))).
      + now apply tick_spec_keeps. }
  destruct Hall as [Hsdl Hall]. split; [exact Hsdl |].
  intros evs Hp.
  pose proof (half_duplex_prefixes w e _ _ Hinv Hall evs Hp) as Hhd.
  split; [exact Hhd |].
  intros Hfull. unfold exclusive.
  destruct (unpaused (g_devIdInp w) (replay evs (sdl w))) eqn:Hrun_inp.
  - specialize (Hhd Hrun_inp). lia.
  - apply andb_false_r.
Qed.

End HalfDuplex.

(** From the state after negotiation, through the first listening tick. *)
Lemma half_duplex_tick_witness :
  exists w',
    GGWave_mainLoop w_ready = Some (true, w') /\
    sdl w' = replay (new_events w_ready w') (sdl w_ready) /\
    forall evs, evs `prefix_of` new_events w_ready w' ->
      unpaused (g_devIdInp w_ready) (replay evs (sdl w_ready)) = true ->
      queued_int (g_devIdOut w_ready) (replay evs (sdl w_ready)) < 1024.
Proof.
  assert (Heng : exists e, g_ggWave w_ready = Some e /\ frameBytesOut e = 1024)
    by (vm_compute; eauto).
  destruct Heng as (e & Heng & Hframe).
  destruct (GGWave_mainLoop w_ready) as [[r w'] |] eqn:Hrun;
    [| vm_compute in Hrun; discriminate].
  assert (Hr : r = true) by (vm_compute in Hrun; congruence). subst r.
  exists w'. split; [reflexivity |].
  destruct (half_duplex_tick w_ready e true w') as [Hsdl Hpre].
  - exact Heng.
  - vm_compute. discriminate.
  - unfold half_duplex. vm_compute. discriminate.
  - exact Hrun.
  - split; [exact Hsdl |]. intros evs Hp. rewrite <- Hframe.
    exact (proj1 (Hpre evs Hp)).
Defined.

(** C1 as stated fails: after negotiation both devices are paused; the
    first tick, with nothing to send, leaves both of them running. *)
Lemma listening_tick_runs_both_devices :
  exclusive w_ready (sdl w_ready) /\
  exists w',
    GGWave_mainLoop w_ready = Some (true, w') /\
    unpaused (g_devIdOut w_ready) (sdl w') = true /\
    unpaused (g_devIdInp w_ready) (sdl w') = true /\
    ~ exclusive w_ready (sdl w').
Proof.
  split; [vm_compute; reflexivity |].
  destruct (GGWave_mainLoop w_ready) as [[r w'] |] eqn:Hrun;
    [| vm_compute in Hrun; discriminate].
  assert (Hr : r = true) by (vm_compute in Hrun; congruence). subst r.
  exists w'. split; [reflexivity |].
  vm_compute in Hrun. injection Hrun as <-.
  repeat split; try (vm_compute; reflexivity).
  unfold exclusive. vm_compute. discriminate.
Qed.

(** ** C5: the overflow guard *)

Section OverflowGuard.
Context {E : Type} `{ModemEngine E}.
Implicit Types (w : World E) (e : E).

(** A list is split at its only dequeue action in one way. *)
Lemma split_at_dequeue (pre tail evs rest : list Event) (x y : Event) :
  Forall (fun ev => is_dequeue ev = false) pre ->
  Forall (fun ev => is_dequeue ev = false) tail ->
  is_dequeue y = true ->
  evs ++ y :: rest = pre ++ x :: tail ->
  evs = pre /\ y = x /\ rest = tail.
Proof.
  intros Hpre Htail Hy. revert evs.
  induction Hpre as [| a pre Ha Hpre IH]; intros evs Heq.
  - destruct evs as [| z evs]; simpl in Heq.
    + injection Heq as -> ->. auto.
    + injection Heq as -> Heq.
      assert (Hin : In y tail) by (rewrite <- Heq; apply in_elt).
      rewrite Forall_forall in Htail.
      apply list_elem_of_In, Htail in Hin. congruence.
  - destruct evs as [| z evs]; simpl in Heq.
    + injection Heq as -> _. congruence.
    + injection Heq as -> Heq. destruct (IH _ Heq) as (-> & -> & ->). auto.
Qed.

Lemma no_dequeue_in (l : list Event) (dev : SDL_AudioDeviceID) (len : Z)
    (evs rest : list Event) :
  Forall (fun ev => is_dequeue ev = false) l ->
  l <> evs ++ EvDequeueAudio dev len :: rest.
Proof.
  intros Hl Heq. rewrite Forall_forall in Hl.
  assert (Hin : In (EvDequeueAudio dev len) l) by (rewrite Heq; apply in_elt).
  apply list_elem_of_In, Hl in Hin. discriminate.
Qed.

(** The size of the capture queue right after the dequeue of line 266. *)
Lemma queued_after_dequeue w e :
  queued_bytes (g_devIdInp w)
    (replay [EvPauseAudioDevice (g_devIdOut w) SDL_FALSE;
             EvPauseAudioDevice (g_devIdInp w) SDL_FALSE;
             EvDequeueAudio (g_devIdInp w) (to_u32 (frameBytesInp e))] (sdl w))
  = Z.of_nat (length (drop (Z.to_nat (to_u32 (frameBytesInp e)))
                        (queue_of (g_devIdInp w) (sdl w)))).
Proof.
  unfold replay, queued_bytes; simpl.
  now rewrite queue_of_dequeue, !queue_of_pause.
Qed.

(** More than 32 frames left after the dequeue: the test of line 281, made
    on the size read before the dequeue, succeeds. *)
Lemma left_over_overflow w e :
  enough w e = true ->
  queued_bytes (g_devIdInp w) (sdl w) < 2 ^ 32 ->
  32 * frameBytesInp e
  < Z.of_nat (length (drop (Z.to_nat (to_u32 (frameBytesInp e)))
                        (queue_of (g_devIdInp w) (sdl w)))) ->
  overflow w e = true.
Proof.
  unfold enough, overflow, queued_int, queued_bytes.
  intros Hen Hu32 Hleft. apply Z.leb_le in Hen. apply Z.ltb_lt.
  rewrite length_drop in Hleft.
  set (q := Z.of_nat (length (queue_of (g_devIdInp w) (sdl w)))) in *.
  destruct (Z.lt_ge_cases (frameBytesInp e) 0) as [Hneg | Hpos]; [lia |].
  rewrite to_int_u32_nonneg in * by lia. lia.
Qed.

(** C5. In a tick that takes a frame from the capture queue, if the queue
    holds more than 32 input frames right after the dequeue, then the frame
    is decoded, the queue is empty when the tick ends, and the slow-processing
    warning is printed.  The queue size is within the [Uint32] range in which
    SDL reports it. *)
Theorem overflow_guard (w : World E) (e : E) (r : bool) (w' : World E)
    (evs rest : list Event) (len : Z) :
  g_ggWave w = Some e ->
  GGWave_mainLoop w = Some (r, w') ->
  new_events w w' = evs ++ EvDequeueAudio (g_devIdInp w) len :: rest ->
  queued_bytes (g_devIdInp w) (sdl w) < 2 ^ 32 ->
  32 * frameBytesInp e
  < queued_bytes (g_devIdInp w)
      (replay (evs ++ [EvDequeueAudio (g_devIdInp w) len]) (sdl w)) ->
  (exists data, In (EvDecode data) rest) /\
  queue_of (g_devIdInp w) (sdl w') = [] /\
  exists queued,
    In (MsgWarningSlowProcessing queued) (drop (length (console w)) (console w')) /\
    is_stderr (MsgWarningSlowProcessing queued) = true.
Proof.
  intros Heng Hrun Hsplit Hu32 Hleft.
  destruct (tick_inv w r w' Hrun) as [(_ & _ & ->) | (_ & _ & e0 & Heng0 & Hspec)].
  { unfold new_events in Hsplit. rewrite drop_all in Hsplit.
    now destruct evs. }
  assert (e0 = e) by congruence. subst e0.
  destruct Hspec as [Htx Hpost | Htx Hdr Hpost | Htx Hdr Hgate Hpost
                    | Htx Hdr Hdeb Hen Hrdy Hpost];
    destruct Hpost as (Htr & Hsdl & Hcon & _);
    rewrite (new_events_app _ _ _ Htr) in Hsplit.
  1-3: exfalso; revert Hsplit; apply no_dequeue_in; repeat constructor.
  unfold decode_events in Hsplit. symmetry in Hsplit.
  apply (split_at_dequeue
           [EvPauseAudioDevice (g_devIdOut w) SDL_FALSE;
            EvPauseAudioDevice (g_devIdInp w) SDL_FALSE]) in Hsplit;
    [| repeat constructor
     | destruct (decode_ok w e), (overflow w e); repeat constructor
     | reflexivity].
  destruct Hsplit as (-> & Hlen & ->).
  injection Hlen as ->.
  change ([EvPauseAudioDevice (g_devIdOut w) SDL_FALSE;
           EvPauseAudioDevice (g_devIdInp w) SDL_FALSE]
          ++ [EvDequeueAudio (g_devIdInp w) (to_u32 (frameBytesInp e))])
    with [EvPauseAudioDevice (g_devIdOut w) SDL_FALSE;
          EvPauseAudioDevice (g_devIdInp w) SDL_FALSE;
          EvDequeueAudio (g_devIdInp w) (to_u32 (frameBytesInp e))] in Hleft.
  rewrite queued_after_dequeue in Hleft.
  pose proof (left_over_overflow w e Hen Hu32 Hleft) as Hov.
  split; [| split].
  - exists (decode_input w e). simpl. auto.
  - rewrite Hsdl. unfold decode_events. rewrite Hov.
    rewrite !app_assoc, replay_snoc. apply queue_of_clear.
  - rewrite Hcon, drop_app_length. unfold decode_lines. rewrite Hov.
    eexists. split; [| reflexivity].
    apply in_or_app. right. simpl. auto.
Qed.

End OverflowGuard.

(** After 600 ms of listening with 70000 bytes in the capture queue: 67952
    bytes are left after the dequeue, more than the 65536 of 32 frames. *)
Lemma overflow_guard_witness :
  exists w',
    GGWave_mainLoop (w_heard 70000%Z) = Some (true, w') /\
    queue_of (g_devIdInp (w_heard 70000%Z)) (sdl w') = [] /\
    exists queued,
      In (MsgWarningSlowProcessing queued)
        (drop (length (console (w_heard 70000%Z))) (console w')).
Proof.
  assert (Heng : exists e, g_ggWave (w_heard 70000%Z) = Some e /\ frameBytesInp e = 2048)
    by (vm_compute; eauto).
  destruct Heng as (e & Heng & Hframe).
  destruct (GGWave_mainLoop (w_heard 70000%Z)) as [[r w'] |] eqn:Hrun;
    [| vm_compute in Hrun; discriminate].
  assert (Hr : r = true) by (vm_compute in Hrun; congruence). subst r.
  exists w'. split; [reflexivity |].
  assert (Hsplit : exists rest,
    new_events (w_heard 70000%Z) w'
    = [EvPauseAudioDevice 2%N false; EvPauseAudioDevice 3%N false]
      ++ EvDequeueAudio (g_devIdInp (w_heard 70000%Z)) 2048 :: rest).
  { pose proof Hrun as Hrun'. vm_compute in Hrun'. injection Hrun' as <-.
    vm_compute. eexists. reflexivity. }
  destruct Hsplit as [rest Hsplit].
  destruct (overflow_guard (w_heard 70000%Z) e true w' _ _ _ Heng Hrun Hsplit)
    as (_ & Hq & queued & Hin & _).
  - vm_compute. reflexivity.
  - rewrite Hframe. vm_compute. reflexivity.
  - split; [exact Hq |]. exists queued. exact Hin.
Defined.

(** The test of line 281 is on the size read before the dequeue: with 32
    frames and one byte queued, 31 frames and one byte are left after the
    dequeue, and the queue is cleared all the same. *)
Example overflow_guard_threshold :
  exists w',
    GGWave_mainLoop (w_heard 65537%Z) = Some (true, w') /\
    queue_of (g_devIdInp (w_heard 65537%Z)) (sdl w') = [] /\
    last (console w') = Some (MsgWarningSlowProcessing 63489).
Proof.
  destruct (GGWave_mainLoop (w_heard 65537%Z)) as [[r w'] |] eqn:Hrun;
    [| vm_compute in Hrun; discriminate].
  assert (Hr : r = true) by (vm_compute in Hrun; congruence). subst r.
  exists w'. split; [reflexivity |].
  vm_compute in Hrun. injection Hrun as <-.
  split; vm_compute; reflexivity.
Qed.

(** ** C4: the gate before decoding *)

Section DecodeGate.
Context {E : Type} `{ModemEngine E}.
Implicit Types (w : World E) (e : E).




End DecodeGate.



(** ** Negotiation *)

Section Negotiation.
Context {E : Type} `{ModemEngine E} `{SDL_AudioFormats}.
Implicit Types (w : World E) (hw : Hardware).

Lemma free_device_id_spec (s : gmap N AudioDevice) (dev : SDL_AudioDeviceID) :
  free_device_id s = Some dev -> (2 <= dev <= 16)%N /\ s !! dev = None.
Proof.
  unfold free_device_id. intros Hfind.
  apply find_some in Hfind as [Hin Hfree].
  apply bool_decide_eq_true in Hfree. split; [| exact Hfree].
  apply in_map_iff in Hin as (n & <- & Hn). apply in_seq in Hn. lia.
Qed.

Lemma open_result_fst hw name iscapture desired s :
  match open_result hw name iscapture desired s with
  | (dev, Some _) => (2 <= dev <= 16)%N /\ s !! dev = None
  | (dev, None) => dev = 0%N
  end.
Proof.
  unfold open_result.
  destruct (hw_open hw name iscapture desired); [| reflexivity].
  destruct (free_device_id s) eqn:Hf; [| reflexivity].
  now apply free_device_id_spec.
Qed.

Lemma SDL_OpenAudioDevice_run hw name iscapture desired w :
  SDL_OpenAudioDevice hw name iscapture desired w
  = Some ((fst (open_result hw name iscapture desired (sdl w)),
           open_written hw name iscapture desired (sdl w)),
          log_event (EvOpenAudioDevice name iscapture desired
                       (fst (open_result hw name iscapture desired (sdl w)))) w).
Proof.
  unfold SDL_OpenAudioDevice, open_written, open_result, bind, gets, emit, modify, ret.
  destruct (hw_open hw name iscapture desired); [| reflexivity].
  now destruct (free_device_id (sdl w)).
Qed.

Lemma for_each_print {A} (l : list A) (f : A -> Message) w :
  for_each l (fun x => print (f x)) w
  = Some (tt, set_console (console w ++ map f l) w).
Proof.
  revert w. induction l as [| x l IH]; intros w; simpl.
  - rewrite app_nil_r. now destruct w.
  - unfold bind, print, modify; simpl. rewrite IH. unfold log_line; simpl.
    now rewrite <- app_assoc.
Qed.

Lemma bind_print {A} (m : Message) (k : unit -> M E A) w :
  bind (print m) k w = k tt (log_line m w).
Proof. reflexivity. Qed.

Lemma bind_emit {A} (ev : Event) (k : unit -> M E A) w :
  bind (emit ev) k w = k tt (log_event ev w).
Proof. reflexivity. Qed.

Lemma bind_modify {A} (f : World E -> World E) (k : unit -> M E A) w :
  bind (modify f) k w = k tt (f w).
Proof. reflexivity. Qed.

Lemma bind_gets {A B} (f : World E -> A) (k : A -> M E B) w :
  bind (gets f) k w = k (f w) w.
Proof. reflexivity. Qed.

Lemma bind_ret {A B} (a : A) (k : A -> M E B) w :
  bind (ret a) k w = k a w.
Proof. reflexivity. Qed.

Lemma list_devices_run hw iscapture w :
  exists msgs,
    list_devices hw iscapture w = Some (tt, set_console (console w ++ msgs) w).
Proof.
  unfold list_devices. rewrite bind_print, for_each_print.
  unfold log_line; simpl. rewrite <- app_assoc.
  eexists. reflexivity.
Qed.

Lemma init_step_refl w : init_step w w [].
Proof. unfold init_step. rewrite app_nil_r. repeat split. Qed.

Lemma init_step_trans w w1 w2 evs1 evs2 :
  init_step w w1 evs1 -> init_step w1 w2 evs2 -> init_step w w2 (evs1 ++ evs2).
Proof.
  intros (Ht1 & Hs1 & ? & ? & ? & ?) (Ht2 & Hs2 & ? & ? & ? & ?).
  unfold init_step. rewrite Ht2, Ht1, Hs2, Hs1, replay_app, app_assoc.
  repeat split; congruence.
Qed.

(** *** The blocks *)

Lemma init_guard_run w :
  init_guard w
  = Some (if negb (g_devIdInp w =? 0)%N && negb (g_devIdOut w =? 0)%N
          then Return false else Continue false, w).
Proof.
  unfold init_guard, bind, gets, ret.
  now destruct (negb (g_devIdInp w =? 0)%N && negb (g_devIdOut w =? 0)%N).
Qed.

Lemma init_subsystem_run hw w :
  exists w',
    init_subsystem hw w
    = Some (if init_fails hw w then Return true else Continue false, w') /\
    init_step w w' (if inactive w then [EvInit (hw_init hw)] else []) /\
    g_devIdInp w' = g_devIdInp w /\ g_devIdOut w' = g_devIdOut w /\
    g_obtainedSpecInp w' = g_obtainedSpecInp w /\
    g_obtainedSpecOut w' = g_obtainedSpecOut w /\
    g_ggWave w' = g_ggWave w /\
    sdl w' = sdl w /\
    (init_fails hw w = true -> In MsgCouldntInitializeSDL (drop (length (console w)) (console w'))).
Proof.
  unfold init_subsystem, init_fails, inactive, bind, gets, ret.
  destruct ((g_devIdInp w =? 0)%N && (g_devIdOut w =? 0)%N); simpl.
  2: { exists w. split; [reflexivity |]. split; [apply init_step_refl |].
       repeat split; discriminate. }
  unfold SDL_Init, bind, emit, modify, ret; simpl.
  destruct (hw_init hw <? 0); simpl.
  - unfold print, modify, bind; simpl. eexists. split; [reflexivity |].
    unfold init_step; simpl. repeat split.
    intros _. rewrite drop_app_length. simpl. auto.
  - destruct (list_devices_run hw SDL_FALSE
                (log_event (EvInit (hw_init hw)) w)) as [m1 Hm1].
    unfold bind. rewrite Hm1.
    match goal with |- context [list_devices hw SDL_TRUE ?w1] =>
      destruct (list_devices_run hw SDL_TRUE w1) as [m2 Hm2]; rewrite Hm2 end.
    eexists. split; [reflexivity |].
    unfold init_step; simpl. repeat split. discriminate.
Qed.

Lemma init_playback_skip hw playbackId sampleRateOffset reinit w :
  g_devIdOut w <> 0%N ->
  init_playback hw playbackId sampleRateOffset reinit w = Some (Continue reinit, w).
Proof.
  intros Hout. apply N.eqb_neq in Hout.
  unfold init_playback. rewrite bind_gets, Hout. reflexivity.
Qed.

Ltac open_playback Hout :=
  apply N.eqb_eq in Hout;
  unfold init_playback, playback_name; rewrite bind_gets, Hout;
  rewrite bind_print, bind_modify; unfold bind at 1;
  match goal with
  | |- context [if ?b then _ else _] =>
      destruct b; rewrite bind_print, SDL_OpenAudioDevice_run;
      unfold open_written; simpl
  end.

(** The playback open fails: the handle stays 0 and the block falls
    through. *)
Lemma init_playback_refused hw playbackId sampleRateOffset reinit w :
  g_devIdOut w = 0%N ->
  let name := playback_name hw playbackId in
  let required := playbackSpec sampleRateOffset in
  snd (open_result hw name SDL_FALSE required (sdl w)) = None ->
  exists w',
    init_playback hw playbackId sampleRateOffset reinit w
    = Some (Continue reinit, w') /\
    init_step w w' [EvOpenAudioDevice name SDL_FALSE required 0%N] /\
    g_devIdOut w' = 0%N /\ g_devIdInp w' = g_devIdInp w /\
    g_obtainedSpecInp w' = g_obtainedSpecInp w /\
    g_obtainedSpecOut w' = default SDL_zero (hw_refused hw name SDL_FALSE required) /\
    g_ggWave w' = g_ggWave w /\
    In (MsgCouldntOpen SDL_FALSE) (drop (length (console w)) (console w')).
Proof.
  intros Hout name required Hnone. subst name required.
  pose proof (open_result_fst hw (playback_name hw playbackId) SDL_FALSE
                (playbackSpec sampleRateOffset) (sdl w)) as Hfst.
  unfold playback_name in *.
  open_playback Hout.
  all: match goal with
       | |- context [open_result ?a ?b ?c ?d ?s] =>
           destruct (open_result a b c d s) as [dev [obtained|]];
           [discriminate |]
       end; simpl in *; subst dev; simpl.
  all: match goal with
       | |- context [hw_refused ?a ?b ?c ?d] => destruct (hw_refused a b c d)
       end; simpl.
  all: unfold bind, print, modify, ret; simpl.
  all: eexists; split; [reflexivity |].
  all: unfold init_step; simpl; repeat split.
  all: rewrite <- !app_assoc, drop_app_length; simpl; auto.
Qed.

(** The playback open succeeds with a spec that differs from the requested
    one: the handle is reset, [SDL_CloseAudio] is called, the block
    returns false. *)
Lemma init_playback_mismatch hw playbackId sampleRateOffset reinit w dev obtained :
  g_devIdOut w = 0%N ->
  let name := playback_name hw playbackId in
  let required := playbackSpec sampleRateOffset in
  open_result hw name SDL_FALSE required (sdl w) = (dev, Some obtained) ->
  playback_mismatch obtained required = true ->
  exists w',
    init_playback hw playbackId sampleRateOffset reinit w
    = Some (Return false, w') /\
    init_step w w' [EvOpenAudioDevice name SDL_FALSE required dev;
                    EvCloseAudioDevice 1%N] /\
    g_devIdOut w' = 0%N /\ g_devIdInp w' = g_devIdInp w /\
    g_obtainedSpecInp w' = g_obtainedSpecInp w /\
    g_obtainedSpecOut w' = obtained /\
    g_ggWave w' = g_ggWave w /\
    In MsgFailedToInitializePlayback (drop (length (console w)) (console w')).
Proof.
  intros Hout name required Hres Hmis. subst name required.
  pose proof (open_result_fst hw (playback_name hw playbackId) SDL_FALSE
                (playbackSpec sampleRateOffset) (sdl w)) as Hfst.
  rewrite Hres in Hfst. destruct Hfst as [Hdev _].
  assert (Hnz : (dev =? 0)%N = false) by (apply N.eqb_neq; lia).
  unfold playback_name in *.
  open_playback Hout.
  all: rewrite Hres; simpl; rewrite Hnz.
  all: unfold bind, print, modify, ret, gets; simpl; rewrite Hmis.
  all: unfold SDL_CloseAudio, SDL_CloseAudioDevice, emit, modify; simpl.
  all: eexists; split; [reflexivity |].
  all: unfold init_step; simpl; repeat split.
  all: rewrite <- ?app_assoc; try reflexivity.
  all: rewrite drop_app_length; simpl; auto.
Qed.

(** The playback open succeeds with the requested format, channels and
    samples: the handle is kept and [reinit] is set. *)
Lemma init_playback_granted hw playbackId sampleRateOffset reinit w dev obtained :
  g_devIdOut w = 0%N ->
  let name := playback_name hw playbackId in
  let required := playbackSpec sampleRateOffset in
  open_result hw name SDL_FALSE required (sdl w) = (dev, Some obtained) ->
  playback_mismatch obtained required = false ->
  exists w',
    init_playback hw playbackId sampleRateOffset reinit w
    = Some (Continue true, w') /\
    init_step w w' [EvOpenAudioDevice name SDL_FALSE required dev] /\
    g_devIdOut w' = dev /\ g_devIdInp w' = g_devIdInp w /\
    g_obtainedSpecInp w' = g_obtainedSpecInp w /\
    g_obtainedSpecOut w' = obtained /\
    g_ggWave w' = g_ggWave w.
Proof.
  intros Hout name required Hres Hmis. subst name required.
  pose proof (open_result_fst hw (playback_name hw playbackId) SDL_FALSE
                (playbackSpec sampleRateOffset) (sdl w)) as Hfst.
  rewrite Hres in Hfst. destruct Hfst as [Hdev _].
  assert (Hnz : (dev =? 0)%N = false) by (apply N.eqb_neq; lia).
  unfold playback_name in *.
  open_playback Hout.
  all: rewrite Hres; simpl; rewrite Hnz.
  all: unfold bind, print, modify, ret, gets; simpl; rewrite Hmis.
  all: eexists; split; [reflexivity |].
  all: unfold init_step; simpl; repeat split.
Qed.

Lemma init_capture_skip hw captureId sampleRateOffset reinit w :
  g_devIdInp w <> 0%N ->
  init_capture hw captureId sampleRateOffset reinit w = Some (Continue reinit, w).
Proof.
  intros Hinp. apply N.eqb_neq in Hinp.
  unfold init_capture. rewrite bind_gets, Hinp. reflexivity.
Qed.

(** The capture block never returns: it opens the device or leaves the
    handle at 0, and in both cases falls through; it does not touch the
    playback handle, the playback spec or the engine. *)
Lemma init_capture_run hw captureId sampleRateOffset reinit w :
  g_devIdInp w = 0%N ->
  let name := capture_name hw captureId w in
  let required := captureSpec sampleRateOffset (g_obtainedSpecOut w) in
  let r := open_result hw name SDL_TRUE required (sdl w) in
  exists w',
    init_capture hw captureId sampleRateOffset reinit w
    = Some (Continue (match snd r with Some _ => true | None => reinit end), w') /\
    init_step w w' [EvOpenAudioDevice name SDL_TRUE required (fst r)] /\
    g_devIdInp w' = fst r /\ g_devIdOut w' = g_devIdOut w /\
    g_obtainedSpecInp w'
    = default SDL_zero (open_written hw name SDL_TRUE required (sdl w)) /\
    g_obtainedSpecOut w' = g_obtainedSpecOut w /\
    g_ggWave w' = g_ggWave w /\
    (snd r = None ->
     In (MsgCouldntOpen SDL_TRUE) (drop (length (console w)) (console w'))).
Proof.
  intros Hinp name required r. subst name required r.
  pose proof (open_result_fst hw (capture_name hw captureId w) SDL_TRUE
                (captureSpec sampleRateOffset (g_obtainedSpecOut w)) (sdl w)) as Hfst.
  unfold capture_name in *.
  apply N.eqb_eq in Hinp.
  unfold init_capture. rewrite bind_gets, Hinp, bind_gets, bind_modify.
  unfold bind at 1.
  destruct (0 <=? captureId);
    [rewrite bind_print | rewrite bind_print, bind_gets];
    rewrite SDL_OpenAudioDevice_run; unfold open_written; simpl.
  all: match goal with
       | |- context [open_result ?a ?b ?c ?d ?s] =>
           destruct (open_result a b c d s) as [dev [obtained|]]
       end; simpl in *.
  all: try (assert (Hnz : (dev =? 0)%N = false) by (apply N.eqb_neq; lia);
            rewrite Hnz).
  all: try (subst dev; simpl).
  all: try match goal with
       | |- context [hw_refused ?a ?b ?c ?d] => destruct (hw_refused a b c d)
       end; simpl.
  all: unfold bind, print, modify, ret, gets; simpl.
  all: eexists; split; [reflexivity |].
  all: unfold init_step; simpl; repeat split; try discriminate.
  all: intros _; rewrite <- !app_assoc, drop_app_length; simpl; auto.
Qed.

(** The last block always returns true; it rebuilds the engine when
    [reinit] is set, and touches no device and no handle. *)
Lemma init_session_run payloadLength useDSS reinit w :
  exists w',
    init_session payloadLength useDSS reinit w = Some (true, w') /\
    g_devIdInp w' = g_devIdInp w /\ g_devIdOut w' = g_devIdOut w /\
    g_obtainedSpecInp w' = g_obtainedSpecInp w /\
    g_obtainedSpecOut w' = g_obtainedSpecOut w /\
    sdl w' = sdl w /\
    (reinit = false -> w' = w) /\
    (reinit = true ->
     exists parameters,
       g_ggWave w' = Some (GGWave_new parameters) /\
       last (trace w') = Some (EvNew parameters) /\
       p_samplesPerFrame parameters = 512 /\
       p_sampleFormatInp parameters
       = sampleFormatInp_of (spec_format (g_obtainedSpecInp w)) /\
       p_sampleFormatOut parameters
       = sampleFormatOut_of (spec_format (g_obtainedSpecOut w))).
Proof.
  unfold init_session. rewrite !bind_gets.
  destruct reinit.
  - unfold bind at 1. rewrite bind_gets.
    destruct (bool_decide (g_ggWave w = None)); unfold bind, emit, modify, ret; simpl;
      (eexists; split; [reflexivity |]); simpl; repeat split; try discriminate;
      intros _; eexists; (split; [reflexivity |]); rewrite last_snoc; repeat split.
  - unfold bind, ret; simpl. exists w. repeat split. discriminate.
Qed.

Lemma bind_some {A B} (m : M E A) (k : A -> M E B) w a w' :
  m w = Some (a, w') -> bind m k w = k a w'.
Proof. intros Hm. unfold bind. now rewrite Hm. Qed.

(** *** The whole call *)

(** Lines 94-96. *)
Lemma init_both_open hw playbackId captureId payloadLength sampleRateOffset
    useDSS w :
  g_devIdInp w <> 0%N -> g_devIdOut w <> 0%N ->
  GGWave_init hw playbackId captureId payloadLength sampleRateOffset useDSS w
  = Some (false, w).
Proof.
  intros Hinp Hout. apply N.eqb_neq in Hinp, Hout.
  unfold GGWave_init. unfold and_then at 1. unfold bind at 1 2.
  rewrite init_guard_run, Hinp, Hout. reflexivity.
Qed.

(** C8. With both handles open the call returns at line 95: it performs no
    action, prints nothing and leaves the handles and every other global as
    they are, however often it is repeated; what it returns is [false]. *)
Theorem init_idempotent (hw : Hardware)
    (playbackId captureId payloadLength sampleRateOffset : Z) (useDSS : bool)
    (w : World E) :
  g_devIdInp w <> 0%N -> g_devIdOut w <> 0%N ->
  exists w',
    GGWave_init hw playbackId captureId payloadLength sampleRateOffset useDSS w
    = Some (false, w') /\
    w' = w /\ new_events w w' = [] /\
    g_devIdInp w' = g_devIdInp w /\ g_devIdOut w' = g_devIdOut w /\
    GGWave_init hw playbackId captureId payloadLength sampleRateOffset useDSS w'
    = Some (false, w').
Proof.
  intros Hinp Hout. exists w.
  rewrite init_both_open by assumption.
  repeat split. unfold new_events. apply drop_all.
Qed.

(** The call, block by block. *)
Lemma GGWave_init_blocks hw playbackId captureId payloadLength sampleRateOffset
    useDSS w :
  GGWave_init hw playbackId captureId payloadLength sampleRateOffset useDSS w
  = match init_guard w with
    | Some (Return b, w0) => Some (b, w0)
    | Some (Continue _, w0) =>
      match init_subsystem hw w0 with
      | Some (Return b, w1) => Some (b, w1)
      | Some (Continue r1, w1) =>
        match init_playback hw playbackId sampleRateOffset r1 w1 with
        | Some (Return b, w2) => Some (b, w2)
        | Some (Continue r2, w2) =>
          match init_capture hw captureId sampleRateOffset r2 w2 with
          | Some (Return b, w3) => Some (b, w3)
          | Some (Continue r3, w3) => init_session payloadLength useDSS r3 w3
          | None => None
          end
        | None => None
        end
      | None => None
      end
    | None => None
    end.
Proof.
  unfold GGWave_init, and_then, bind, ret.
  destruct (init_guard w) as [[[b | r0] w0] |]; try reflexivity.
  destruct (init_subsystem hw w0) as [[[b | r1] w1] |]; try reflexivity.
  destruct (init_playback hw playbackId sampleRateOffset r1 w1)
    as [[[b | r2] w2] |]; try reflexivity.
  destruct (init_capture hw captureId sampleRateOffset r2 w2)
    as [[[b | r3] w3] |]; reflexivity.
Qed.

(** After the playback block has fallen through, the call opens the
    capture device or leaves its handle at 0, rebuilds the engine when a
    device was opened, and returns true. *)
Lemma init_tail_run hw captureId payloadLength sampleRateOffset useDSS reinit w :
  exists w',
    match init_capture hw captureId sampleRateOffset reinit w with
    | Some (Return b, w3) => Some (b, w3)
    | Some (Continue r3, w3) => init_session payloadLength useDSS r3 w3
    | None => None
    end = Some (true, w') /\
    g_devIdOut w' = g_devIdOut w /\
    (g_devIdInp w <> 0%N -> g_devIdInp w' = g_devIdInp w) /\
    (g_devIdInp w = 0%N ->
     (forall nm spec, hw_open hw nm SDL_TRUE spec = None) ->
     g_devIdInp w' = 0%N).
Proof.
  destruct (N.eq_dec (g_devIdInp w) 0%N) as [Hinp | Hinp].
  - destruct (init_capture_run hw captureId sampleRateOffset reinit w Hinp)
      as (w3 & Hcap & _ & Hi3 & Ho3 & _).
    rewrite Hcap.
    match goal with |- context [init_session ?p ?d ?r w3] =>
      destruct (init_session_run p d r w3) as (w4 & Hses & Hi4 & Ho4 & _) end.
    exists w4. split; [exact Hses |]. split; [congruence |].
    split; [contradiction |].
    intros _ Hrefuse. rewrite Hi4, Hi3. unfold open_result.
    now rewrite Hrefuse.
  - rewrite init_capture_skip by assumption.
    destruct (init_session_run payloadLength useDSS reinit w)
      as (w4 & Hses & Hi4 & Ho4 & _).
    exists w4. split; [exact Hses |]. split; [congruence |].
    split; [congruence | contradiction].
Qed.

Lemma playback_rejected_true hw playbackId sampleRateOffset w :
  playback_rejected hw playbackId sampleRateOffset w = true <->
  g_devIdOut w = 0%N /\ init_fails hw w = false /\
  exists dev obtained,
    open_result hw (playback_name hw playbackId) SDL_FALSE
      (playbackSpec sampleRateOffset) (sdl w) = (dev, Some obtained) /\
    playback_mismatch obtained (playbackSpec sampleRateOffset) = true.
Proof.
  unfold playback_rejected.
  rewrite !andb_true_iff, negb_true_iff, N.eqb_eq.
  destruct (open_result hw (playback_name hw playbackId) SDL_FALSE
              (playbackSpec sampleRateOffset) (sdl w)) as [dev [obtained |]].
  - split.
    + intros [[? ?] ?]. eauto 6.
    + intros (? & ? & d & o & [= <- <-] & ?). auto.
  - split.
    + intros [_ ?]. discriminate.
    + intros (_ & _ & d & o & ? & _). discriminate.
Qed.

(** The rejected playback device: lines 158-166. *)
Lemma negotiation_rejected hw playbackId captureId payloadLength sampleRateOffset
    useDSS w :
  playback_rejected hw playbackId sampleRateOffset w = true ->
  exists w' dev,
    GGWave_init hw playbackId captureId payloadLength sampleRateOffset useDSS w
    = Some (false, w') /\
    g_devIdOut w' = 0%N /\ g_devIdInp w' = g_devIdInp w /\
    g_obtainedSpecInp w' = g_obtainedSpecInp w /\
    g_ggWave w' = g_ggWave w /\
    new_events w w' =
      (if inactive w then [EvInit (hw_init hw)] else [])
      ++ [EvOpenAudioDevice (playback_name hw playbackId) SDL_FALSE
            (playbackSpec sampleRateOffset) dev;
          EvCloseAudioDevice 1%N].
Proof.
  intros Hrej.
  apply playback_rejected_true in Hrej as (Hout & Hfail & dev & obtained & Hres & Hmis).
  rewrite GGWave_init_blocks, init_guard_run.
  rewrite (proj2 (N.eqb_eq _ _) Hout), andb_false_r.
  destruct (init_subsystem_run hw w)
    as (w1 & Hsub & Hstep1 & Hi1 & Ho1 & Hsi1 & Hso1 & He1 & Hsdl1 & _).
  rewrite Hsub, Hfail.
  rewrite <- Hsdl1 in Hres. rewrite <- Ho1 in Hout.
  destruct (init_playback_mismatch hw playbackId sampleRateOffset false w1
              dev obtained Hout Hres Hmis)
    as (w2 & Hpb & Hstep2 & Ho2 & Hi2 & Hsi2 & _ & He2 & _).
  rewrite Hpb. exists w2, dev. split; [reflexivity |].
  pose proof (init_step_trans _ _ _ _ _ Hstep1 Hstep2) as (Htr & _).
  repeat split; try congruence. now apply new_events_app.
Qed.

(** Everything else returns true. *)
Lemma negotiation_accepted hw playbackId captureId payloadLength sampleRateOffset
    useDSS w :
  g_devIdInp w = 0%N \/ g_devIdOut w = 0%N ->
  playback_rejected hw playbackId sampleRateOffset w = false ->
  exists w',
    GGWave_init hw playbackId captureId payloadLength sampleRateOffset useDSS w
    = Some (true, w') /\
    (g_devIdOut w = 0%N -> init_fails hw w = false ->
     snd (open_result hw (playback_name hw playbackId) SDL_FALSE
            (playbackSpec sampleRateOffset) (sdl w)) = None ->
     g_devIdOut w' = 0%N) /\
    (g_devIdInp w = 0%N ->
     init_fails hw w = true \/ (forall nm spec, hw_open hw nm SDL_TRUE spec = None) ->
     g_devIdInp w' = 0%N).
Proof.
  intros Hzero Hrej.
  rewrite GGWave_init_blocks, init_guard_run.
  assert (Hguard : negb (g_devIdInp w =? 0)%N && negb (g_devIdOut w =? 0)%N = false).
  { destruct Hzero as [Hz | Hz]; rewrite (proj2 (N.eqb_eq _ _) Hz); simpl;
      [reflexivity | apply andb_false_r]. }
  rewrite Hguard.
  destruct (init_subsystem_run hw w)
    as (w1 & Hsub & Hstep1 & Hi1 & Ho1 & Hsi1 & Hso1 & He1 & Hsdl1 & _).
  rewrite Hsub.
  destruct (init_fails hw w) eqn:Hfail.
  { exists w1. split; [reflexivity |]. split; [discriminate | congruence]. }
  destruct (N.eq_dec (g_devIdOut w) 0%N) as [Hout | Hout].
  2: { rewrite init_playback_skip by congruence.
       destruct (init_tail_run hw captureId payloadLength sampleRateOffset
                   useDSS false w1) as (w' & Hrun & Ho' & _ & Hi').
       exists w'. split; [exact Hrun |]. split; [contradiction |].
       intros Hinp [? | Hrefuse]; [discriminate |].
       apply Hi'; [congruence | assumption]. }
  destruct (open_result hw (playback_name hw playbackId) SDL_FALSE
              (playbackSpec sampleRateOffset) (sdl w))
    as [dev [obtained |]] eqn:Hres.
  - destruct (playback_mismatch obtained (playbackSpec sampleRateOffset)) eqn:Hmis.
    { assert (Hc : playback_rejected hw playbackId sampleRateOffset w = true)
        by (apply playback_rejected_true; eauto 7).
      congruence. }
    rewrite <- Hsdl1 in Hres. rewrite <- Ho1 in Hout.
    destruct (init_playback_granted hw playbackId sampleRateOffset false w1
                dev obtained Hout Hres Hmis)
      as (w2 & Hpb & _ & Ho2 & Hi2 & _).
    rewrite Hpb.
    destruct (init_tail_run hw captureId payloadLength sampleRateOffset
                useDSS true w2) as (w' & Hrun & Ho' & _ & Hi').
    exists w'. split; [exact Hrun |]. split; [discriminate |].
    intros Hinp [? | Hrefuse]; [discriminate |].
    apply Hi'; [congruence | assumption].
  - rewrite <- Hsdl1 in Hres. rewrite <- Ho1 in Hout.
    destruct (init_playback_refused hw playbackId sampleRateOffset false w1 Hout)
      as (w2 & Hpb & _ & Ho2 & Hi2 & _).
    { now rewrite Hres. }
    rewrite Hpb.
    destruct (init_tail_run hw captureId payloadLength sampleRateOffset
                useDSS false w2) as (w' & Hrun & Ho' & _ & Hi').
    exists w'. split; [exact Hrun |]. split; [congruence |].
    intros Hinp [? | Hrefuse]; [discriminate |].
    apply Hi'; [congruence | assumption].
Qed.

(** C6, as the code has it.  The call always returns.  It returns false in
    two cases only: both devices were already open, or the playback device
    opens with a format, channel count or frame size other than requested.
    In the second case the playback handle is reset to 0, the capture
    handle, the capture spec and the engine are as before, and the only
    audio actions are [SDL_Init] (when no device was open), the playback
    open and [SDL_CloseAudio]: none for capture.  An open call that fails
    does not fail the negotiation: the handle of that side stays 0, the
    call goes on, and it returns true. *)
Theorem negotiation_failure (hw : Hardware)
    (playbackId captureId payloadLength sampleRateOffset : Z) (useDSS : bool)
    (w : World E) :
  let name := playback_name hw playbackId in
  let required := playbackSpec sampleRateOffset in
  exists r w',
    GGWave_init hw playbackId captureId payloadLength sampleRateOffset useDSS w
    = Some (r, w') /\
    (r = false <->
     (g_devIdInp w <> 0%N /\ g_devIdOut w <> 0%N) \/
     playback_rejected hw playbackId sampleRateOffset w = true) /\
    (playback_rejected hw playbackId sampleRateOffset w = true ->
     g_devIdOut w' = 0%N /\ g_devIdInp w' = g_devIdInp w /\
     g_obtainedSpecInp w' = g_obtainedSpecInp w /\
     g_ggWave w' = g_ggWave w /\
     exists dev,
       new_events w w' =
         (if inactive w then [EvInit (hw_init hw)] else [])
         ++ [EvOpenAudioDevice name SDL_FALSE required dev;
             EvCloseAudioDevice 1%N]) /\
    (g_devIdOut w = 0%N -> init_fails hw w = false ->
     snd (open_result hw name SDL_FALSE required (sdl w)) = None ->
     r = true /\ g_devIdOut w' = 0%N) /\
    (g_devIdInp w = 0%N -> init_fails hw w = false ->
     (forall nm spec, hw_open hw nm SDL_TRUE spec = None) ->
     playback_rejected hw playbackId sampleRateOffset w = false ->
     r = true /\ g_devIdInp w' = 0%N).
Proof.
  intros name required. subst name required.
  destruct (playback_rejected hw playbackId sampleRateOffset w) eqn:Hrej.
  - destruct (negotiation_rejected hw playbackId captureId payloadLength
                sampleRateOffset useDSS w Hrej)
      as (w' & dev & Hrun & Ho & Hi & Hsi & He & Hev).
    exists false, w'. split; [exact Hrun |].
    apply playback_rejected_true in Hrej as (Hout & Hfail & d & o & Hres & Hmis).
    split; [split; auto |]. split; [intros _; eauto 8 |].
    split.
    + intros _ _ Hnone. rewrite Hres in Hnone. discriminate.
    + intros _ _ _ Hc. discriminate.
  - destruct (N.eq_dec (g_devIdInp w) 0%N) as [Hinp | Hinp];
      [| destruct (N.eq_dec (g_devIdOut w) 0%N) as [Hout | Hout]].
    3: { rewrite init_both_open by assumption.
         exists false, w. split; [reflexivity |].
         split; [split; auto |]. split; [discriminate |].
         split; intros; contradiction. }
    all: destruct (negotiation_accepted hw playbackId captureId payloadLength
                     sampleRateOffset useDSS w) as (w' & Hrun & Ho & Hi); auto.
    all: exists true, w'; split; [exact Hrun |].
    all: split; [split; [discriminate | intros [[? ?] | ?]; congruence] |].
    all: split; [discriminate |].
    all: split; [intros; split; auto | intros; split; auto].
Qed.

End Negotiation.

(** A second negotiation after a successful first one. *)
Lemma init_idempotent_witness :
  (g_devIdInp w_ready = 3%N /\ g_devIdOut w_ready = 2%N) /\
  doInit hw_exact w_ready = Some (false, w_ready).
Proof.
  split; [vm_compute; auto |].
  destruct (init_idempotent hw_exact 0 0 16 0 true w_ready)
    as (w' & Hrun & -> & _); [vm_compute; discriminate .. | exact Hrun].
Defined.

(** The scenario of the specification: 16384 samples requested, 8192
    obtained.  And a platform that refuses to open the playback device. *)
Lemma negotiation_failure_witness :
  playback_rejected hw_small_playback 0 0 (initial_world (E := StubEngine)) = true /\
  (exists w',
     doInit hw_small_playback initial_world = Some (false, w') /\
     g_devIdOut w' = 0%N /\ g_devIdInp w' = 0%N /\ g_ggWave w' = None /\
     exists dev,
       new_events initial_world w' =
         [EvInit 0;
          EvOpenAudioDevice (Some "default"%string) SDL_FALSE (playbackSpec 0) dev;
          EvCloseAudioDevice 1%N]) /\
  (exists w',
     doInit hw_no_playback initial_world = Some (true, w') /\
     g_devIdOut w' = 0%N).
Proof.
  assert (Hrej : playback_rejected hw_small_playback 0 0
                   (initial_world (E := StubEngine)) = true)
    by (vm_compute; reflexivity).
  split; [exact Hrej |]. split.
  - destruct (negotiation_failure hw_small_playback 0 0 16 0 true
                (initial_world (E := StubEngine)))
      as (r & w' & Hrun & Hiff & Hdet & _).
    assert (Hr : r = false) by (apply Hiff; right; exact Hrej). subst r.
    destruct (Hdet Hrej) as (Ho & Hi & _ & He & dev & Hev).
    exists w'. repeat split; try assumption. exists dev. exact Hev.
  - destruct (negotiation_failure hw_no_playback 0 0 16 0 true
                (initial_world (E := StubEngine)))
      as (r & w' & Hrun & _ & _ & Hrefused & _).
    destruct Hrefused as [-> Ho]; try (vm_compute; reflexivity).
    exists w'. split; assumption.
Defined.

(** C6 as stated fails: the platform refuses to open the playback device,
    and the call returns true. *)
Lemma negotiation_open_failure_returns_true :
  hw_open hw_no_playback (playback_name hw_no_playback 0) SDL_FALSE
    (playbackSpec (E := StubEngine) 0) = None /\
  exists w',
    doInit hw_no_playback initial_world = Some (true, w') /\
    g_devIdOut w' = 0%N /\
    In (EvOpenAudioDevice None SDL_FALSE
          (playbackSpec (E := StubEngine) 0) 0%N) (trace w').
Proof.
  split; [reflexivity |].
  destruct (doInit hw_no_playback initial_world) as [[r w'] |] eqn:Hrun;
    [| vm_compute in Hrun; discriminate].
  assert (Hr : r = true) by (vm_compute in Hrun; congruence). subst r.
  exists w'. split; [reflexivity |].
  vm_compute in Hrun. injection Hrun as <-.
  split; [vm_compute; reflexivity |].
  vm_compute. right. left. reflexivity.
Qed.

(** In the rejected case the device that [SDL_OpenAudioDevice] opened, id 2,
    stays open: [SDL_CloseAudio] closes id 1, and no handle is left to close
    id 2 with. *)
Example rejected_playback_device_stays_open :
  exists w',
    doInit hw_small_playback initial_world = Some (false, w') /\
    g_devIdOut w' = 0%N /\
    sdl w' !! 2%N = Some fresh_device.
Proof.
  destruct (doInit hw_small_playback initial_world) as [[r w'] |] eqn:Hrun;
    [| vm_compute in Hrun; discriminate].
  assert (Hr : r = false) by (vm_compute in Hrun; congruence). subst r.
  exists w'. split; [reflexivity |].
  vm_compute in Hrun. injection Hrun as <-.
  split; vm_compute; reflexivity.
Qed.

(** The first scenario of the specification: the platform grants the
    requested playback spec; the call succeeds and the engine is built for
    float32 input and signed 16-bit output, 512 samples per frame. *)
Example negotiation_success :
  exists w' e,
    doInit hw_exact initial_world = Some (true, w') /\
    g_devIdOut w' = 2%N /\ g_devIdInp w' = 3%N /\
    g_ggWave w' = Some e /\
    sampleSizeInp e = 4 /\ sampleSizeOut e = 2 /\ samplesPerFrame e = 512 /\
    unpaused 2%N (sdl w') = false /\ unpaused 3%N (sdl w') = false.
Proof.
  destruct (doInit hw_exact initial_world) as [[r w'] |] eqn:Hrun;
    [| vm_compute in Hrun; discriminate].
  assert (Hr : r = true) by (vm_compute in Hrun; congruence). subst r.
  vm_compute in Hrun. injection Hrun as <-.
  eexists _, _. split; [reflexivity |]. vm_compute. repeat split; reflexivity.
Qed.

(** ** Reachable states *)

Section Reachable.
Context {E : Type} `{ModemEngine E} `{SDL_AudioFormats}.
Implicit Types (w : World E) (hw : Hardware) (s : gmap N AudioDevice).

Lemma is_open_replay evs dev s :
  Forall keeps_devices evs ->
  is_Some (replay evs s !! dev) <-> is_Some (s !! dev).
Proof.
  intros Hall. revert s. induction Hall as [| ev evs Hev _ IH]; intros s.
  - reflexivity.
  - change (replay (ev :: evs) s) with (replay evs (sdl_step ev s)).
    rewrite IH. now apply is_open_step.
Qed.

Lemma is_open_alter (f : AudioDevice -> AudioDevice) d dev s :
  is_Some (alter f d s !! dev) <-> is_Some (s !! dev).
Proof.
  rewrite lookup_alter. case_decide; subst; rewrite ?fmap_is_Some; tauto.
Qed.

(** A state with the same handles, and the same devices open. *)
Lemma wf_devices_same w w' :
  g_devIdInp w' = g_devIdInp w -> g_devIdOut w' = g_devIdOut w ->
  (forall dev, is_Some (sdl w' !! dev) <-> is_Some (sdl w !! dev)) ->
  wf_devices w -> wf_devices w'.
Proof.
  intros Hi Ho Hopen (Hinp & Hout & Hne & Hz).
  unfold wf_devices. rewrite Hi, Ho, !Hopen. repeat split; try assumption.
  apply eq_None_not_Some. rewrite Hopen. now apply eq_None_not_Some.
Qed.

Lemma tick_spec_keeps_devices w e w' :
  tick_spec w e w' -> Forall keeps_devices (new_events w w').
Proof.
  intros [Htx Hpost | Htx Hdr Hpost | Htx Hdr Hgate Hpost
         | Htx Hdr Hdeb Hen Hrdy Hpost];
    destruct Hpost as (Htr & _); rewrite (new_events_app _ _ _ Htr);
    unfold decode_events;
    try destruct (decode_ok w e); try destruct (overflow w e);
    repeat constructor.
Qed.

Lemma tick_spec_engine w e w' : tick_spec w e w' -> is_Some (g_ggWave w').
Proof.
  intros [Htx Hpost | Htx Hdr Hpost | Htx Hdr Hgate Hpost
         | Htx Hdr Hdeb Hen Hrdy Hpost];
    destruct Hpost as (_ & _ & _ & He & _); rewrite He; eauto.
Qed.

Lemma tick_well_formed w r w' :
  well_formed w -> GGWave_mainLoop w = Some (r, w') -> well_formed w'.
Proof.
  intros [Hdev Heng] Hrun.
  destruct (tick_inv w r w' Hrun) as [(_ & _ & ->) | (_ & _ & e & He & Hspec)];
    [now split |].
  destruct (tick_spec_trace w e w' Hspec) as (_ & Hsdl & Hi & Ho).
  split.
  - apply (wf_devices_same w w'); try assumption.
    intros dev. rewrite Hsdl. apply is_open_replay.
    now apply (tick_spec_keeps_devices w e).
  - intros _. now apply (tick_spec_engine w e).
Qed.

(** *** Shutdown, [sendData], the platform *)

Lemma GGWave_deinit_run w :
  inactive w = false ->
  exists w',
    GGWave_deinit w = Some (true, w') /\
    g_devIdInp w' = 0%N /\ g_devIdOut w' = 0%N /\ g_ggWave w' = None /\
    sdl w' = replay [EvPauseAudioDevice (g_devIdInp w) true;
                     EvCloseAudioDevice (g_devIdInp w);
                     EvPauseAudioDevice (g_devIdOut w) true;
                     EvCloseAudioDevice (g_devIdOut w)] (sdl w).
Proof.
  intros Hact. unfold inactive in Hact.
  unfold GGWave_deinit. rewrite !bind_gets, Hact, bind_gets.
  destruct (bool_decide (g_ggWave w = None));
    unfold bind, ret, emit, modify, SDL_PauseAudioDevice, SDL_CloseAudioDevice,
      emit, modify; simpl;
    eexists; (split; [reflexivity |]); repeat split.
Qed.

Lemma GGWave_deinit_inactive w :
  inactive w = true -> GGWave_deinit w = Some (false, w).
Proof.
  intros Hin. unfold inactive in Hin.
  unfold GGWave_deinit. now rewrite !bind_gets, Hin.
Qed.

Lemma lookup_None_pause d p k s :
  s !! k = None -> sdl_step (EvPauseAudioDevice d p) s !! k = None.
Proof.
  intros Hk. unfold sdl_step. rewrite lookup_alter.
  case_decide; subst; now rewrite ?Hk.
Qed.

Lemma lookup_None_close d k s :
  s !! k = None -> sdl_step (EvCloseAudioDevice d) s !! k = None.
Proof.
  intros Hk. unfold sdl_step. rewrite lookup_delete.
  now case_decide.
Qed.

Lemma lookup_zero_pause_close d1 d2 s :
  s !! 0%N = None ->
  replay [EvPauseAudioDevice d1 true; EvCloseAudioDevice d1;
          EvPauseAudioDevice d2 true; EvCloseAudioDevice d2] s !! 0%N = None.
Proof.
  intros Hz. unfold replay; simpl.
  now apply lookup_None_close, lookup_None_pause, lookup_None_close,
    lookup_None_pause.
Qed.

Lemma deinit_well_formed w r w' :
  well_formed w -> GGWave_deinit w = Some (r, w') -> well_formed w'.
Proof.
  intros [Hdev Heng] Hrun. destruct (inactive w) eqn:Hact.
  - rewrite GGWave_deinit_inactive in Hrun by assumption.
    injection Hrun as <- <-. now split.
  - destruct (GGWave_deinit_run w Hact) as (w1 & Hw1 & Hi & Ho & He & Hsdl).
    rewrite Hw1 in Hrun. injection Hrun as <- <-.
    destruct Hdev as (_ & _ & _ & Hz). split.
    + unfold wf_devices. rewrite Hi, Ho, Hsdl. repeat split; auto.
      now apply lookup_zero_pause_close.
    + intros [Hc | Hc]; congruence.
Qed.

Lemma sendData_well_formed text protocolId volume w r w' :
  well_formed w -> sendData text protocolId volume w = Some (r, w') ->
  well_formed w'.
Proof.
  intros [Hdev Heng] Hrun. unfold sendData in Hrun.
  destruct (g_ggWave w) as [e|] eqn:He.
  - unfold bind in Hrun. rewrite (ggWave_call_run _ _ _ e He) in Hrun.
    injection Hrun as <- <-. split.
    + now apply (wf_devices_same w).
    + intros _. simpl. eauto.
  - unfold bind, ggWave_call, ggWave, bind, gets in Hrun. rewrite He in Hrun.
    discriminate.
Qed.

Lemma capture_well_formed data w : well_formed w -> well_formed (capture data w).
Proof.
  intros [Hdev Heng]. unfold capture.
  destruct (unpaused (g_devIdInp w) (sdl w)); [| now split]. split.
  - apply (wf_devices_same w); try reflexivity; [| assumption].
    intros dev. simpl. apply is_open_alter.
  - exact Heng.
Qed.

Lemma play_well_formed n w : well_formed w -> well_formed (play n w).
Proof.
  intros [Hdev Heng]. unfold play.
  destruct (unpaused (g_devIdOut w) (sdl w)); [| now split]. split.
  - apply (wf_devices_same w); try reflexivity; [| assumption].
    intros dev. simpl. apply is_open_alter.
  - exact Heng.
Qed.

(** *** Negotiation *)

(** A device newly opened for one side, the other handle kept. *)
Lemma wf_devices_opened w w' dev :
  wf_devices w -> (2 <= dev)%N -> sdl w !! dev = None ->
  sdl w' = <[dev := fresh_device]> (sdl w) ->
  g_devIdInp w' = g_devIdInp w /\ g_devIdOut w = 0%N /\ g_devIdOut w' = dev \/
  g_devIdOut w' = g_devIdOut w /\ g_devIdInp w = 0%N /\ g_devIdInp w' = dev ->
  wf_devices w'.
Proof.
  intros (Hinp & Hout & Hne & Hz) Hdev Hfree Hsdl Hside.
  assert (Hkeep : forall d, is_Some (sdl w !! d) -> is_Some (sdl w' !! d)).
  { intros d Hd. rewrite Hsdl, lookup_insert_is_Some.
    destruct (decide (dev = d)); auto. }
  assert (Hnew : is_Some (sdl w' !! dev)).
  { rewrite Hsdl, lookup_insert_eq. eauto. }
  assert (Hzero : sdl w' !! 0%N = None).
  { rewrite Hsdl, lookup_insert_ne by lia. exact Hz. }
  assert (Hother : forall d, is_Some (sdl w !! d) -> d <> dev).
  { intros d [x Hx] ->. congruence. }
  unfold wf_devices.
  destruct Hside as [(Hi & Ho & Ho') | (Ho & Hi & Hi')].
  - rewrite Hi, Ho'. repeat split; [| right; split; [lia | exact Hnew] | | exact Hzero].
    + destruct Hinp as [? | [? ?]]; auto.
    + destruct Hinp as [? | [? ?]]; auto.
  - rewrite Ho, Hi'. repeat split; [right; split; [lia | exact Hnew] | | | exact Hzero].
    + destruct Hout as [? | [? ?]]; auto.
    + right. destruct Hout as [-> | [? Hopen]]; [lia |].
      intros Heq. now apply (Hother _ Hopen).
Qed.

(** [SDL_CloseAudio] after an open that is then dropped: the handles other
    than the dropped one still name open devices. *)
Lemma wf_devices_dropped w w' dev :
  wf_devices w -> (2 <= dev)%N -> g_devIdOut w = 0%N ->
  sdl w' = delete 1%N (<[dev := fresh_device]> (sdl w)) ->
  g_devIdInp w' = g_devIdInp w -> g_devIdOut w' = 0%N ->
  wf_devices w'.
Proof.
  intros (Hinp & Hout & Hne & Hz) Hdev Hout0 Hsdl Hi Ho.
  unfold wf_devices. rewrite Hi, Ho, Hsdl.
  repeat split; auto.
  - destruct Hinp as [? | [Hn1 Hopen]]; auto. right. split; [exact Hn1 |].
    rewrite lookup_delete_ne by congruence.
    rewrite lookup_insert_is_Some. destruct (decide (dev = g_devIdInp w)); auto.
  - destruct Hinp as [? | [Hn1 [x Hx]]]; auto. right. intros Heq.
    rewrite Heq in Hx. congruence.
  - rewrite lookup_delete_ne, lookup_insert_ne by lia. exact Hz.
Qed.

Lemma sdl_step_open name iscapture desired dev s :
  dev <> 0%N ->
  sdl_step (EvOpenAudioDevice name iscapture desired dev) s
  = <[dev := fresh_device]> s.
Proof. intros Hdev. unfold sdl_step. apply N.eqb_neq in Hdev. now rewrite Hdev. Qed.

Lemma sdl_step_open_refused name iscapture desired s :
  sdl_step (EvOpenAudioDevice name iscapture desired 0%N) s = s.
Proof. reflexivity. Qed.

(** The playback block keeps the handles in order; it leaves the capture
    handle and the engine alone, and it sets [reinit] whenever it stores a
    new handle. *)
Lemma init_playback_well_formed hw playbackId sampleRateOffset reinit w fl w' :
  wf_devices w ->
  init_playback hw playbackId sampleRateOffset reinit w = Some (fl, w') ->
  wf_devices w' /\ g_devIdInp w' = g_devIdInp w /\ g_ggWave w' = g_ggWave w /\
  match fl with
  | Return _ => g_devIdOut w' = 0%N
  | Continue reinit' =>
      reinit' = true \/ reinit' = reinit /\ g_devIdOut w' = g_devIdOut w
  end.
Proof.
  intros Hwf Hrun.
  destruct (N.eq_dec (g_devIdOut w) 0%N) as [Hout | Hout].
  2: { rewrite init_playback_skip in Hrun by assumption.
       injection Hrun as <- <-. split; [exact Hwf |]. repeat split. now right. }
  pose proof (open_result_fst hw (playback_name hw playbackId) SDL_FALSE
                (playbackSpec sampleRateOffset) (sdl w)) as Hfst.
  destruct (open_result hw (playback_name hw playbackId) SDL_FALSE
              (playbackSpec sampleRateOffset) (sdl w))
    as [dev [obtained |]] eqn:Hres.
  - destruct Hfst as [Hdev Hfree].
    destruct (playback_mismatch obtained (playbackSpec sampleRateOffset)) eqn:Hmis.
    + destruct (init_playback_mismatch hw playbackId sampleRateOffset reinit w
                  dev obtained Hout Hres Hmis)
        as (w1 & Hw1 & (_ & Hsdl & _) & Ho & Hi & _ & _ & He & _).
      rewrite Hw1 in Hrun. injection Hrun as <- <-.
      split; [| repeat split; assumption].
      apply (wf_devices_dropped w w1 dev); try assumption; [lia |].
      rewrite Hsdl. unfold replay; simpl.
      rewrite sdl_step_open by lia. reflexivity.
    + destruct (init_playback_granted hw playbackId sampleRateOffset reinit w
                  dev obtained Hout Hres Hmis)
        as (w1 & Hw1 & (_ & Hsdl & _) & Ho & Hi & _ & _ & He).
      rewrite Hw1 in Hrun. injection Hrun as <- <-.
      split; [| repeat split; try assumption; now left].
      apply (wf_devices_opened w w1 dev); try assumption; [lia | | now left].
      rewrite Hsdl. unfold replay; simpl. now rewrite sdl_step_open by lia.
  - destruct (init_playback_refused hw playbackId sampleRateOffset reinit w Hout)
      as (w1 & Hw1 & (_ & Hsdl & _) & Ho & Hi & _ & _ & He & _).
    { now rewrite Hres. }
    rewrite Hw1 in Hrun. injection Hrun as <- <-.
    split; [| repeat split; try assumption; right; split; congruence].
    apply (wf_devices_same w w1); try congruence.
    intros d. now rewrite Hsdl.
Qed.

(** The capture block, likewise. *)
Lemma init_capture_well_formed hw captureId sampleRateOffset reinit w fl w' :
  wf_devices w ->
  init_capture hw captureId sampleRateOffset reinit w = Some (fl, w') ->
  wf_devices w' /\ g_devIdOut w' = g_devIdOut w /\ g_ggWave w' = g_ggWave w /\
  exists reinit',
    fl = Continue reinit' /\
    (reinit' = true \/ reinit' = reinit /\ g_devIdInp w' = g_devIdInp w).
Proof.
  intros Hwf Hrun.
  destruct (N.eq_dec (g_devIdInp w) 0%N) as [Hinp | Hinp].
  2: { rewrite init_capture_skip in Hrun by assumption.
       injection Hrun as <- <-. split; [exact Hwf |]. repeat split.
       exists reinit. split; [reflexivity | now right]. }
  destruct (init_capture_run hw captureId sampleRateOffset reinit w Hinp)
    as (w1 & Hw1 & (_ & Hsdl & _) & Hi & Ho & _ & _ & He & _).
  rewrite Hw1 in Hrun. injection Hrun as <- <-.
  pose proof (open_result_fst hw (capture_name hw captureId w) SDL_TRUE
                (captureSpec sampleRateOffset (g_obtainedSpecOut w)) (sdl w)) as Hfst.
  destruct (open_result hw (capture_name hw captureId w) SDL_TRUE
              (captureSpec sampleRateOffset (g_obtainedSpecOut w)) (sdl w))
    as [dev [obtained |]] eqn:Hres; simpl in *.
  - destruct Hfst as [Hdev Hfree].
    split; [| repeat split; try assumption; eauto].
    apply (wf_devices_opened w w1 dev); try assumption; [lia | | now right].
    rewrite Hsdl. unfold replay; simpl. now rewrite sdl_step_open by lia.
  - subst dev. split; [| repeat split; try assumption].
    + apply (wf_devices_same w w1); try congruence.
      intros d. now rewrite Hsdl, Hfst.
    + eexists. split; [reflexivity |]. right. split; congruence.
Qed.

Lemma init_well_formed hw playbackId captureId payloadLength sampleRateOffset
    useDSS w r w' :
  well_formed w ->
  GGWave_init hw playbackId captureId payloadLength sampleRateOffset useDSS w
  = Some (r, w') ->
  well_formed w'.
Proof.
  intros [Hwf Heng] Hrun. rewrite GGWave_init_blocks, init_guard_run in Hrun.
  destruct (negb (g_devIdInp w =? 0)%N && negb (g_devIdOut w =? 0)%N).
  { injection Hrun as <- <-. now split. }
  destruct (init_subsystem_run hw w)
    as (w1 & Hw1 & _ & Hi1 & Ho1 & _ & _ & He1 & Hs1 & _).
  rewrite Hw1 in Hrun.
  assert (Hwf1 : wf_devices w1).
  { apply (wf_devices_same w w1); try assumption. intros d. now rewrite Hs1. }
  assert (Heng1 : engine_present w1).
  { unfold engine_present. now rewrite Hi1, Ho1, He1. }
  destruct (init_fails hw w).
  { injection Hrun as <- <-. now split. }
  destruct (init_playback hw playbackId sampleRateOffset false w1)
    as [[fl w2] |] eqn:Hw2; [| discriminate].
  destruct (init_playback_well_formed _ _ _ _ _ _ _ Hwf1 Hw2)
    as (Hwf2 & Hi2 & He2 & Hfl2).
  destruct fl as [b | r2].
  { injection Hrun as <- <-. split; [exact Hwf2 |].
    unfold engine_present. rewrite Hi2, He2, Hfl2. intros [Hc | Hc]; [| easy].
    apply Heng1. now left. }
  destruct (init_capture hw captureId sampleRateOffset r2 w2)
    as [[fl w3] |] eqn:Hw3; [| discriminate].
  destruct (init_capture_well_formed _ _ _ _ _ _ _ Hwf2 Hw3)
    as (Hwf3 & Ho3 & He3 & r3 & -> & Hfl3).
  destruct (init_session_run payloadLength useDSS r3 w3)
    as (w4 & Hw4 & Hi4 & Ho4 & _ & _ & Hs4 & Hsame & Hnew).
  rewrite Hw4 in Hrun. injection Hrun as <- <-.
  split.
  { apply (wf_devices_same w3 w4); try assumption. intros d. now rewrite Hs4. }
  destruct r3.
  - destruct (Hnew eq_refl) as (parameters & Hp & _).
    intros _. rewrite Hp. eauto.
  - rewrite (Hsame eq_refl).
    destruct Hfl3 as [Hc | [<- Hi3]]; [discriminate |].
    destruct Hfl2 as [Hc | [_ Ho2]]; [discriminate |].
    unfold engine_present. rewrite Hi3, Hi2, Ho3, Ho2, He3, He2. exact Heng1.
Qed.

(** *** Every reachable state is well formed *)

Lemma initial_well_formed : well_formed (initial_world (E := E)).
Proof.
  split.
  - unfold wf_devices; simpl. repeat split; auto.
  - intros [Hc | Hc]; now simpl in Hc.
Qed.

Lemma step_well_formed w w' : well_formed w -> step w w' -> well_formed w'.
Proof.
  intros Hwf [hw pb cp pl off dss r Hrun | r Hrun | r Hrun
             | text protocolId volume r Hrun | name Hrun
             | dt _ -> | data -> | n ->].
  - now apply (init_well_formed hw pb cp pl off dss w r).
  - now apply (tick_well_formed w r).
  - now apply (deinit_well_formed w r).
  - now apply (sendData_well_formed text protocolId volume w r).
  - unfold GGWave_setDefaultCaptureDeviceName, modify in Hrun.
    injection Hrun as <-. exact Hwf.
  - exact Hwf.
  - now apply capture_well_formed.
  - now apply play_well_formed.
Qed.

Lemma reachable_well_formed w : reachable w -> well_formed w.
Proof.
  unfold reachable. revert w.
  apply (rtc_ind_r (fun w => well_formed w)).
  - apply initial_well_formed.
  - intros w w' _ Hstep IH. now apply (step_well_formed w).
Qed.

(** In a reachable state with a device open, the engine pointer is not
    null and the two handles name different devices. *)
Lemma reachable_active w :
  reachable w -> inactive w = false ->
  (exists e, g_ggWave w = Some e) /\ g_devIdInp w <> g_devIdOut w.
Proof.
  intros Hreach Hact.
  destruct (reachable_well_formed w Hreach) as [(_ & _ & Hne & _) Heng].
  unfold inactive in Hact. apply andb_false_iff in Hact.
  rewrite !N.eqb_neq in Hact. split.
  - apply Heng. tauto.
  - destruct Hne as [Hz | Hne]; [| exact Hne].
    rewrite Hz in *. destruct Hact as [Hc | Hc]; [easy | congruence].
Qed.

(** *** Runs given as lists of calls *)

Lemma steps_reachable (l : list (World E -> option (World E))) w w' :
  Forall (fun f => forall w1 w2, f w1 = Some w2 -> step w1 w2) l ->
  steps l w = Some w' -> rtc step w w'.
Proof.
  intros Hall. revert w. induction Hall as [| f l Hf _ IH]; intros w Hrun.
  - injection Hrun as <-. apply rtc_refl.
  - simpl in Hrun. destruct (f w) as [w1 |] eqn:Hfw; [| discriminate].
    apply (rtc_l _ _ w1); [now apply Hf | now apply IH].
Qed.

Lemma exec_init_step hw playbackId captureId payloadLength sampleRateOffset
    useDSS w w' :
  exec (GGWave_init hw playbackId captureId payloadLength sampleRateOffset useDSS) w
  = Some w' -> step w w'.
Proof.
  unfold exec. intros Hrun.
  destruct (GGWave_init _ _ _ _ _ _ w) as [[r w1] |] eqn:Hcall; [| discriminate].
  injection Hrun as <-. eapply StepInit. exact Hcall.
Qed.

Lemma exec_tick_step w w' : exec GGWave_mainLoop w = Some w' -> step w w'.
Proof.
  unfold exec. intros Hrun.
  destruct (GGWave_mainLoop w) as [[r w1] |] eqn:Hcall; [| discriminate].
  injection Hrun as <-. eapply StepTick. exact Hcall.
Qed.

Lemma exec_deinit_step w w' : exec GGWave_deinit w = Some w' -> step w w'.
Proof.
  unfold exec. intros Hrun.
  destruct (GGWave_deinit w) as [[r w1] |] eqn:Hcall; [| discriminate].
  injection Hrun as <-. eapply StepDeinit. exact Hcall.
Qed.

Lemma exec_send_step text protocolId volume w w' :
  exec (sendData text protocolId volume) w = Some w' -> step w w'.
Proof.
  unfold exec. intros Hrun.
  destruct (sendData text protocolId volume w) as [[r w1] |] eqn:Hcall;
    [| discriminate].
  injection Hrun as <-. eapply StepSend. exact Hcall.
Qed.

Lemma env_elapse_step dt w w' :
  0 <= dt -> env (elapse dt) w = Some w' -> step w w'.
Proof.
  intros Hdt Hrun. injection Hrun as <-.
  eapply StepElapse; [exact Hdt | reflexivity].
Qed.

Lemma env_capture_step data w w' : env (capture data) w = Some w' -> step w w'.
Proof. intros Hrun. injection Hrun as <-. eapply StepCapture. reflexivity. Qed.

Lemma env_play_step n w w' : env (play n) w = Some w' -> step w w'.
Proof. intros Hrun. injection Hrun as <-. eapply StepPlay. reflexivity. Qed.

End Reachable.

Lemma run_reachable (l : list (World StubEngine -> option (World StubEngine))) :
  Forall (fun f => forall w1 w2, f w1 = Some w2 -> step w1 w2) l ->
  steps l initial_world <> None -> reachable (run l).
Proof.
  intros Hall Hdef. unfold reachable, run.
  destruct (steps l initial_world) as [w' |] eqn:Hrun; [| contradiction].
  simpl. now apply (steps_reachable l).
Qed.

(** The state [w_renegotiated] is reached by calls of the exported
    functions and of the loop. *)
Lemma w_renegotiated_reachable : reachable w_renegotiated.
Proof.
  apply run_reachable; [| vm_compute; discriminate].
  constructor; [intros w1 w2; apply exec_init_step |].
  constructor; [intros w1 w2; apply exec_tick_step |].
  constructor; [intros w1 w2; apply env_elapse_step; lia |].
  constructor; [intros w1 w2; apply exec_tick_step |].
  constructor; [intros w1 w2; apply exec_init_step |].
  constructor; [intros w1 w2; apply exec_tick_step |].
  constructor; [intros w1 w2; apply env_elapse_step; lia |].
  constructor; [intros w1 w2; apply env_capture_step |].
  constructor.
Qed.

(** ** A receive buffer older than the engine *)

(** The static receive buffer is allocated once, with the frame size of that
    moment, while the frame size is read from the engine at every tick.
    The run below is one of the model: on the sample platform
    [hw_no_capture], whose refused capture request writes nothing to the
    obtained spec, the engine double is built for an undefined input format
    and reports frames of 0 input bytes, so the buffer is allocated with no
    bytes; the engine built by the second negotiation has input frames of
    2048 bytes.  The gate then opens on a buffer that cannot hold the frame,
    and the tick has no defined result. *)
Example receive_buffer_outlived_engine :
  reachable w_renegotiated /\
  exists e,
    g_ggWave w_renegotiated = Some e /\
    txHasData e = false /\ drained w_renegotiated e = true /\
    debounced w_renegotiated = true /\ enough w_renegotiated e = true /\
    frameBytesInp e = 2048 /\
    queued_bytes (g_devIdInp w_renegotiated) (sdl w_renegotiated) = 4096 /\
    dataInp w_renegotiated = Some [] /\
    GGWave_mainLoop w_renegotiated = None.
Proof.
  split; [exact w_renegotiated_reachable |].
  vm_compute. eexists. repeat split.
Qed.

(** ** Shutdown *)

Section Shutdown.
Context {E : Type} `{ModemEngine E} `{SDL_AudioFormats}.
Implicit Types (w : World E).

(** The state [GGWave_deinit] leaves when a device is open. *)
Lemma GGWave_deinit_active w :
  inactive w = false ->
  exists w',
    GGWave_deinit w = Some (true, w') /\
    g_devIdInp w' = 0%N /\ g_devIdOut w' = 0%N /\ g_ggWave w' = None /\
    trace w' = trace w
      ++ (match g_ggWave w with Some _ => [EvDelete] | None => [] end)
      ++ [EvPauseAudioDevice (g_devIdInp w) true;
          EvCloseAudioDevice (g_devIdInp w);
          EvPauseAudioDevice (g_devIdOut w) true;
          EvCloseAudioDevice (g_devIdOut w)] /\
    sdl w' = delete (g_devIdOut w) (delete (g_devIdInp w) (sdl w)) /\
    console w' = console w /\
    tLastNoData w' = tLastNoData w /\ dataInp w' = dataInp w /\
    clock w' = clock w /\
    g_obtainedSpecInp w' = g_obtainedSpecInp w /\
    g_obtainedSpecOut w' = g_obtainedSpecOut w /\
    g_defaultCaptureDeviceName w' = g_defaultCaptureDeviceName w.
Proof.
  intros Hact. unfold inactive in Hact.
  assert (Hsdl : forall s : gmap N AudioDevice,
    sdl_step (EvCloseAudioDevice (g_devIdOut w))
      (sdl_step (EvPauseAudioDevice (g_devIdOut w) true)
         (sdl_step (EvCloseAudioDevice (g_devIdInp w))
            (sdl_step (EvPauseAudioDevice (g_devIdInp w) true) s)))
    = delete (g_devIdOut w) (delete (g_devIdInp w) s)).
  { intros s. unfold sdl_step. apply map_eq. intros k.
    rewrite !lookup_delete. case_decide; [reflexivity |].
    rewrite lookup_alter. case_decide.
    - subst k. rewrite !lookup_delete. case_decide; [reflexivity | congruence].
    - rewrite !lookup_delete. case_decide; [reflexivity |].
      rewrite lookup_alter. case_decide; congruence. }
  unfold GGWave_deinit. rewrite !bind_gets, Hact, bind_gets.
  destruct (g_ggWave w) as [e |] eqn:He;
    unfold bind, ret, emit, modify, SDL_PauseAudioDevice, SDL_CloseAudioDevice,
      emit, modify; simpl;
    eexists; (split; [reflexivity |]); simpl; rewrite ?He;
    repeat split; rewrite <- ?app_assoc; try reflexivity; apply Hsdl.
Qed.

(** X1.  [GGWave_deinit] with a device open returns true; it deletes the
    engine and nulls the pointer, closes the devices the two handles name
    and no other, and resets both handles.  The two statics of
    [GGWave_mainLoop] are out of its reach: the timestamp and the receive
    buffer are as before. *)
Theorem deinit_releases (w : World E) :
  inactive w = false ->
  exists w',
    GGWave_deinit w = Some (true, w') /\
    g_devIdInp w' = 0%N /\ g_devIdOut w' = 0%N /\ g_ggWave w' = None /\
    sdl w' !! g_devIdInp w = None /\ sdl w' !! g_devIdOut w = None /\
    (forall dev, dev <> g_devIdInp w -> dev <> g_devIdOut w ->
                 sdl w' !! dev = sdl w !! dev) /\
    (In EvDelete (new_events w w') <-> g_ggWave w <> None) /\
    tLastNoData w' = tLastNoData w /\ dataInp w' = dataInp w.
Proof.
  intros Hact.
  destruct (GGWave_deinit_active w Hact)
    as (w' & Hrun & Hi & Ho & He & Htr & Hsdl & _ & Ht & Hd & _).
  exists w'. repeat split; try assumption.
  - rewrite Hsdl, lookup_delete. case_decide; [reflexivity |].
    apply lookup_delete_eq.
  - rewrite Hsdl. apply lookup_delete_eq.
  - intros dev Hni Hno. rewrite Hsdl. now rewrite !lookup_delete_ne by congruence.
  - rewrite (new_events_app _ _ _ Htr). destruct (g_ggWave w); simpl; [discriminate |].
    intuition discriminate.
  - rewrite (new_events_app _ _ _ Htr). intros Hne.
    destruct (g_ggWave w); [now left | contradiction].
Qed.

(** X2.  Shutdown is final.  After a [GGWave_deinit] that returned, a
    second one and a tick both return false and change nothing; and when
    the first one returned true, [sendData] dereferences the null engine
    pointer. *)
Theorem shutdown_is_final (w : World E) (r : bool) (w' : World E) :
  GGWave_deinit w = Some (r, w') ->
  GGWave_deinit w' = Some (false, w') /\
  GGWave_mainLoop w' = Some (false, w') /\
  (r = true ->
   forall text protocolId volume, sendData text protocolId volume w' = None).
Proof.
  intros Hrun.
  assert (Hin : inactive w' = true /\ (r = true -> g_ggWave w' = None)).
  { destruct (inactive w) eqn:Hact.
    - rewrite GGWave_deinit_inactive in Hrun by assumption.
      injection Hrun as <- <-. split; [assumption | discriminate].
    - destruct (GGWave_deinit_active w Hact) as (w1 & Hw1 & Hi & Ho & He & _).
      rewrite Hw1 in Hrun. injection Hrun as <- <-.
      split; [| auto]. apply inactive_true. auto. }
  destruct Hin as [Hin Heng].
  repeat split.
  - now apply GGWave_deinit_inactive.
  - now apply tick_inactive.
  - intros Hr text protocolId volume.
    unfold sendData, bind, ggWave_call, ggWave, bind, gets.
    now rewrite (Heng Hr).
Qed.

End Shutdown.

Lemma deinit_releases_witness :
  exists w',
    GGWave_deinit w_listening = Some (true, w') /\
    sdl w' = ∅ /\ dataInp w' = dataInp w_listening.
Proof.
  destruct (deinit_releases w_listening) as (w' & Hrun & _ & _ & _ & _ & _ & _ & _ & _ & Hd);
    [vm_compute; reflexivity |].
  exists w'. split; [exact Hrun |]. split; [| exact Hd].
  revert Hrun. vm_compute. intros [= <-]. reflexivity.
Defined.

Lemma shutdown_is_final_witness :
  exists w',
    GGWave_deinit w_listening = Some (true, w') /\
    GGWave_mainLoop w' = Some (false, w') /\
    sendData [Byte.x68] 1 10 w' = None.
Proof.
  destruct (GGWave_deinit w_listening) as [[r w'] |] eqn:Hrun;
    [| vm_compute in Hrun; discriminate].
  assert (Hr : r = true) by (vm_compute in Hrun; congruence).
  subst r. exists w'. split; [reflexivity |].
  destruct (shutdown_is_final w_listening true w' Hrun) as (_ & Htick & Hsend).
  split; [exact Htick | now apply Hsend].
Defined.

(** ** The negotiation, call by call *)

Section NegotiationRuns.
Context {E : Type} `{ModemEngine E} `{SDL_AudioFormats}.
Implicit Types (w : World E) (hw : Hardware).

Lemma init_step_kept w w' evs : init_step w w' evs -> init_kept w w'.
Proof. intros (_ & _ & ? & ? & ? & ?). repeat split; assumption. Qed.

Lemma init_kept_refl w : init_kept w w.
Proof. repeat split. Qed.

Lemma init_kept_trans w w1 w2 : init_kept w w1 -> init_kept w1 w2 -> init_kept w w2.
Proof.
  intros (? & ? & ? & ?) (? & ? & ? & ?). repeat split; congruence.
Qed.

Lemma playback_as_asked obtained sampleRateOffset :
  playback_mismatch obtained (playbackSpec sampleRateOffset) = false ->
  spec_format obtained = AUDIO_S16SYS /\ spec_channels obtained = 1 /\
  spec_samples obtained = 16 * 1024.
Proof.
  unfold playback_mismatch. rewrite !orb_false_iff, !negb_false_iff, !Z.eqb_eq.
  simpl. tauto.
Qed.

(** The last block, in full. *)
Lemma init_session_full payloadLength useDSS reinit w :
  exists w',
    init_session payloadLength useDSS reinit w = Some (true, w') /\
    init_step w w'
      (if reinit
       then match g_ggWave w with Some _ => [EvDelete] | None => [] end
            ++ [EvNew (session_parameters payloadLength useDSS w)]
       else []) /\
    g_devIdInp w' = g_devIdInp w /\ g_devIdOut w' = g_devIdOut w /\
    g_obtainedSpecInp w' = g_obtainedSpecInp w /\
    g_obtainedSpecOut w' = g_obtainedSpecOut w /\
    console w' = console w /\
    g_ggWave w'
    = if reinit then Some (GGWave_new (session_parameters payloadLength useDSS w))
      else g_ggWave w.
Proof.
  unfold init_session. rewrite !bind_gets.
  destruct reinit.
  - unfold bind at 1. rewrite bind_gets.
    destruct useDSS, (g_ggWave w) as [e |] eqn:He; simpl;
      unfold bind, emit, modify, ret; simpl;
      (eexists; split; [reflexivity |]);
      unfold init_step, session_parameters; simpl;
      rewrite <- ?app_assoc; repeat split.
  - unfold bind, ret; simpl. exists w. split; [reflexivity |].
    split; [apply init_step_refl |]. repeat split.
Qed.

(** The playback block: what it returns, the actions it takes, the handle
    and the spec it leaves. *)
Lemma playback_block hw playbackId sampleRateOffset reinit w fl w' :
  init_playback hw playbackId sampleRateOffset reinit w = Some (fl, w') ->
  let name := playback_name hw playbackId in
  let required := playbackSpec sampleRateOffset in
  g_devIdInp w' = g_devIdInp w /\ g_ggWave w' = g_ggWave w /\
  g_obtainedSpecInp w' = g_obtainedSpecInp w /\
  exists evs,
    init_step w w' evs /\
    ((fl = Continue reinit /\ evs = [] /\ g_devIdOut w <> 0%N /\
      g_devIdOut w' = g_devIdOut w /\ g_obtainedSpecOut w' = g_obtainedSpecOut w) \/
     (fl = Continue reinit /\ g_devIdOut w = 0%N /\ g_devIdOut w' = 0%N /\
      g_obtainedSpecOut w' = default SDL_zero (hw_refused hw name SDL_FALSE required) /\
      evs = [EvOpenAudioDevice name SDL_FALSE required 0%N]) \/
     (fl = Return false /\ g_devIdOut w = 0%N /\ g_devIdOut w' = 0%N /\
      exists dev, (2 <= dev <= 16)%N /\ sdl w !! dev = None /\
        evs = [EvOpenAudioDevice name SDL_FALSE required dev;
               EvCloseAudioDevice 1%N]) \/
     (fl = Continue true /\ g_devIdOut w = 0%N /\
      (2 <= g_devIdOut w' <= 16)%N /\ sdl w !! g_devIdOut w' = None /\
      spec_format (g_obtainedSpecOut w') = AUDIO_S16SYS /\
      spec_channels (g_obtainedSpecOut w') = 1 /\
      spec_samples (g_obtainedSpecOut w') = 16 * 1024 /\
      evs = [EvOpenAudioDevice name SDL_FALSE required (g_devIdOut w')])).
Proof.
  intros Hrun name required. subst name required.
  destruct (N.eq_dec (g_devIdOut w) 0%N) as [Hout | Hout].
  2: { rewrite init_playback_skip in Hrun by assumption.
       injection Hrun as <- <-. repeat split. exists [].
       split; [apply init_step_refl |]. left. repeat split. assumption. }
  pose proof (open_result_fst hw (playback_name hw playbackId) SDL_FALSE
                (playbackSpec sampleRateOffset) (sdl w)) as Hfst.
  destruct (open_result hw (playback_name hw playbackId) SDL_FALSE
              (playbackSpec sampleRateOffset) (sdl w))
    as [dev [obtained |]] eqn:Hres.
  - destruct Hfst as [Hdev Hfree].
    destruct (playback_mismatch obtained (playbackSpec sampleRateOffset)) eqn:Hmis.
    + destruct (init_playback_mismatch hw playbackId sampleRateOffset reinit w
                  dev obtained Hout Hres Hmis)
        as (w1 & Hw1 & Hstep & Ho & Hi & Hsi & _ & He & _).
      rewrite Hw1 in Hrun. injection Hrun as <- <-.
      repeat split; try assumption. eexists. split; [exact Hstep |].
      right. right. left. repeat split; try assumption.
      exists dev. repeat split; try assumption; lia.
    + destruct (init_playback_granted hw playbackId sampleRateOffset reinit w
                  dev obtained Hout Hres Hmis)
        as (w1 & Hw1 & Hstep & Ho & Hi & Hsi & Hso & He).
      rewrite Hw1 in Hrun. injection Hrun as <- <-.
      apply playback_as_asked in Hmis as (Hf & Hc & Hs).
      repeat split; try assumption. eexists. split; [exact Hstep |].
      right. right. right. rewrite Ho, Hso.
      repeat split; try assumption; lia.
  - destruct (init_playback_refused hw playbackId sampleRateOffset reinit w Hout)
      as (w1 & Hw1 & Hstep & Ho & Hi & Hsi & Hso & He & _).
    { now rewrite Hres. }
    rewrite Hw1 in Hrun. injection Hrun as <- <-.
    repeat split; try assumption. eexists. split; [exact Hstep |].
    right. left. repeat split; assumption.
Qed.

(** The capture block. *)
Lemma capture_block hw captureId sampleRateOffset reinit w fl w' :
  init_capture hw captureId sampleRateOffset reinit w = Some (fl, w') ->
  let name := capture_name hw captureId w in
  let required := captureSpec sampleRateOffset (g_obtainedSpecOut w) in
  g_devIdOut w' = g_devIdOut w /\ g_ggWave w' = g_ggWave w /\
  g_obtainedSpecOut w' = g_obtainedSpecOut w /\
  exists evs,
    init_step w w' evs /\
    ((fl = Continue reinit /\ evs = [] /\ g_devIdInp w <> 0%N /\
      g_devIdInp w' = g_devIdInp w /\ g_obtainedSpecInp w' = g_obtainedSpecInp w) \/
     (fl = Continue reinit /\ g_devIdInp w = 0%N /\ g_devIdInp w' = 0%N /\
      g_obtainedSpecInp w' = default SDL_zero (hw_refused hw name SDL_TRUE required) /\
      evs = [EvOpenAudioDevice name SDL_TRUE required 0%N]) \/
     (fl = Continue true /\ g_devIdInp w = 0%N /\
      (2 <= g_devIdInp w' <= 16)%N /\ sdl w !! g_devIdInp w' = None /\
      evs = [EvOpenAudioDevice name SDL_TRUE required (g_devIdInp w')])).
Proof.
  intros Hrun name required. subst name required.
  destruct (N.eq_dec (g_devIdInp w) 0%N) as [Hinp | Hinp].
  2: { rewrite init_capture_skip in Hrun by assumption.
       injection Hrun as <- <-. repeat split. exists [].
       split; [apply init_step_refl |]. left. repeat split. assumption. }
  destruct (init_capture_run hw captureId sampleRateOffset reinit w Hinp)
    as (w1 & Hw1 & Hstep & Hi & Ho & Hsi & Hso & He & _).
  rewrite Hw1 in Hrun. injection Hrun as <- <-.
  unfold open_written in Hsi.
  pose proof (open_result_fst hw (capture_name hw captureId w) SDL_TRUE
                (captureSpec sampleRateOffset (g_obtainedSpecOut w)) (sdl w)) as Hfst.
  repeat split; try assumption. eexists. split; [exact Hstep |].
  destruct (open_result hw (capture_name hw captureId w) SDL_TRUE
              (captureSpec sampleRateOffset (g_obtainedSpecOut w)) (sdl w))
    as [dev [obtained |]]; simpl in *.
  - destruct Hfst as [Hdev Hfree]. right. right. rewrite Hi.
    repeat split; try assumption; lia.
  - right. left. rewrite Hfst in *. repeat split; assumption.
Qed.

Lemma init_subsystem_skip hw w :
  inactive w = false -> init_subsystem hw w = Some (Continue false, w).
Proof.
  intros Hact. unfold inactive in Hact.
  unfold init_subsystem. now rewrite !bind_gets, Hact.
Qed.

Lemma capture_name_kept hw captureId w w' :
  g_defaultCaptureDeviceName w' = g_defaultCaptureDeviceName w ->
  capture_name hw captureId w' = capture_name hw captureId w.
Proof. intros Hn. unfold capture_name. now rewrite Hn. Qed.

Lemma session_parameters_ext payloadLength useDSS w w' :
  g_obtainedSpecInp w' = g_obtainedSpecInp w ->
  g_obtainedSpecOut w' = g_obtainedSpecOut w ->
  session_parameters payloadLength useDSS w'
  = session_parameters payloadLength useDSS w.
Proof. intros Hi Ho. unfold session_parameters. now rewrite Hi, Ho. Qed.

(** The blocks after the playback block has fallen through. *)
Lemma init_tail_outcome hw captureId payloadLength sampleRateOffset useDSS
    reinit w r w' :
  match init_capture hw captureId sampleRateOffset reinit w with
  | Some (Return b, w3) => Some (b, w3)
  | Some (Continue r3, w3) => init_session payloadLength useDSS r3 w3
  | None => None
  end = Some (r, w') ->
  r = true /\ init_kept w w' /\
  g_devIdOut w' = g_devIdOut w /\ g_obtainedSpecOut w' = g_obtainedSpecOut w /\
  exists evs_cap evs_ses,
    trace w' = trace w ++ evs_cap ++ evs_ses /\
    (evs_cap = [] /\ g_devIdInp w' = g_devIdInp w /\
     g_obtainedSpecInp w' = g_obtainedSpecInp w \/
     g_devIdInp w = 0%N /\
     (g_devIdInp w' = 0%N \/ (2 <= g_devIdInp w' <= 16)%N) /\
     evs_cap = [EvOpenAudioDevice (capture_name hw captureId w) SDL_TRUE
                  (captureSpec sampleRateOffset (g_obtainedSpecOut w))
                  (g_devIdInp w')]) /\
    (evs_ses = [] /\ g_ggWave w' = g_ggWave w /\ reinit = false /\
     g_devIdInp w' = g_devIdInp w \/
     (reinit = true \/ g_devIdInp w' <> g_devIdInp w) /\
     g_ggWave w' = Some (GGWave_new (session_parameters payloadLength useDSS w')) /\
     evs_ses = match g_ggWave w with Some _ => [EvDelete] | None => [] end
               ++ [EvNew (session_parameters payloadLength useDSS w')]).
Proof.
  intros Hrun.
  destruct (init_capture hw captureId sampleRateOffset reinit w)
    as [[fl w3] |] eqn:Hw3; [| discriminate].
  destruct (capture_block _ _ _ _ _ _ _ Hw3)
    as (Ho3 & He3 & Hso3 & evs_cap & Hstep3 & Hcap).
  assert (Hcont : exists r3, fl = Continue r3)
    by (destruct Hcap as [(-> & _) | [(-> & _) | (-> & _)]]; eauto).
  destruct Hcont as [r3 ->].
  destruct (init_session_full payloadLength useDSS r3 w3)
    as (w4 & Hw4 & Hstep4 & Hi4 & Ho4 & Hsi4 & Hso4 & _ & He4).
  rewrite Hw4 in Hrun. injection Hrun as <- <-.
  assert (Hpar : session_parameters payloadLength useDSS w4
                 = session_parameters payloadLength useDSS w3)
    by now apply session_parameters_ext.
  pose proof (init_step_trans _ _ _ _ _ Hstep3 Hstep4) as Hstep.
  split; [reflexivity |]. split; [now apply (init_step_kept _ _ _ Hstep) |].
  split; [congruence |]. split; [congruence |].
  destruct Hstep as (Htr & _).
  eexists evs_cap, _. split; [exact Htr |].
  rewrite Hi4, Hsi4, Hpar, He4, He3.
  destruct Hcap as [([= ->] & -> & Hinp & Hi3 & Hsi3)
                   | [([= ->] & Hinp & Hi3 & Hsi3 & ->)
                     | ([= ->] & Hinp & Hdev & _ & ->)]].
  - split; [left; auto |]. destruct reinit.
    + right. auto.
    + left. auto.
  - split; [right; rewrite Hi3; auto |]. destruct reinit.
    + right. auto.
    + left. repeat split. congruence.
  - split; [right; auto |]. right. repeat split. right. rewrite Hinp. lia.
Qed.

(** One call of [GGWave_init], side by side: the actions it adds to the
    trace, and for the playback side, the capture side and the engine what
    it leaves. *)
Lemma init_outcome hw playbackId captureId payloadLength sampleRateOffset
    useDSS w r w' :
  GGWave_init hw playbackId captureId payloadLength sampleRateOffset useDSS w
  = Some (r, w') ->
  let pname := playback_name hw playbackId in
  let prequired := playbackSpec sampleRateOffset in
  init_kept w w' /\
  exists evs_pb evs_cap evs_ses,
    trace w' = trace w ++ (if inactive w then [EvInit (hw_init hw)] else [])
               ++ evs_pb ++ evs_cap ++ evs_ses /\
    (evs_pb = [] /\ g_devIdOut w' = g_devIdOut w /\
     g_obtainedSpecOut w' = g_obtainedSpecOut w /\
     (g_devIdOut w <> 0%N \/ evs_cap = [] /\ evs_ses = []) \/
     g_devIdOut w = 0%N /\ g_devIdOut w' = 0%N /\ r = true /\
     g_obtainedSpecOut w' = default SDL_zero (hw_refused hw pname SDL_FALSE prequired) /\
     evs_pb = [EvOpenAudioDevice pname SDL_FALSE prequired 0%N] \/
     g_devIdOut w = 0%N /\ g_devIdOut w' = 0%N /\ r = false /\
     (exists dev, (2 <= dev <= 16)%N /\
        evs_pb = [EvOpenAudioDevice pname SDL_FALSE prequired dev;
                  EvCloseAudioDevice 1%N]) \/
     g_devIdOut w = 0%N /\ (2 <= g_devIdOut w' <= 16)%N /\ r = true /\
     spec_format (g_obtainedSpecOut w') = AUDIO_S16SYS /\
     spec_channels (g_obtainedSpecOut w') = 1 /\
     spec_samples (g_obtainedSpecOut w') = 16 * 1024 /\
     evs_pb = [EvOpenAudioDevice pname SDL_FALSE prequired (g_devIdOut w')]) /\
    (evs_cap = [] /\ g_devIdInp w' = g_devIdInp w /\
     g_obtainedSpecInp w' = g_obtainedSpecInp w \/
     g_devIdInp w = 0%N /\ r = true /\
     (g_devIdInp w' = 0%N \/ (2 <= g_devIdInp w' <= 16)%N) /\
     evs_cap = [EvOpenAudioDevice (capture_name hw captureId w) SDL_TRUE
                  (captureSpec sampleRateOffset (g_obtainedSpecOut w'))
                  (g_devIdInp w')]) /\
    (evs_ses = [] /\ g_ggWave w' = g_ggWave w /\
     g_devIdInp w' = g_devIdInp w /\ g_devIdOut w' = g_devIdOut w \/
     r = true /\
     (g_devIdInp w' <> g_devIdInp w \/ g_devIdOut w' <> g_devIdOut w) /\
     g_ggWave w' = Some (GGWave_new (session_parameters payloadLength useDSS w')) /\
     evs_ses = match g_ggWave w with Some _ => [EvDelete] | None => [] end
               ++ [EvNew (session_parameters payloadLength useDSS w')]) /\
    (init_fails hw w = true ->
     r = true /\ evs_pb = [] /\ evs_cap = [] /\ evs_ses = []).
Proof.
  intros Hrun pname prequired. subst pname prequired.
  rewrite GGWave_init_blocks, init_guard_run in Hrun.
  destruct (negb (g_devIdInp w =? 0)%N && negb (g_devIdOut w =? 0)%N) eqn:Hg.
  { injection Hrun as <- <-.
    apply andb_true_iff in Hg as [Hgi Hgo].
    apply negb_true_iff, N.eqb_neq in Hgi. apply negb_true_iff, N.eqb_neq in Hgo.
    assert (Hact : inactive w = false) by (apply inactive_false; auto).
    split; [apply init_kept_refl |]. exists [], [], [].
    unfold init_fails. rewrite Hact. simpl. rewrite app_nil_r.
    split; [reflexivity |]. split; [left; now auto 10 |].
    split; [left; now auto |]. split; [left; now auto | discriminate]. }
  destruct (init_subsystem_run hw w)
    as (w1 & Hw1 & Hstep1 & Hi1 & Ho1 & Hsi1 & Hso1 & He1 & Hs1 & _).
  rewrite Hw1 in Hrun.
  destruct (init_fails hw w) eqn:Hf.
  { injection Hrun as <- <-.
    split; [now apply (init_step_kept _ _ _ Hstep1) |]. exists [], [], [].
    destruct Hstep1 as (Htr & _). rewrite Htr, !app_nil_r.
    split; [reflexivity |]. split; [left; now auto 10 |].
    split; [left; now auto |]. split; [left; now auto | now auto]. }
  destruct (init_playback hw playbackId sampleRateOffset false w1)
    as [[fl w2] |] eqn:Hw2; [| discriminate].
  destruct (playback_block _ _ _ _ _ _ _ Hw2)
    as (Hi2 & He2 & Hsi2 & evs_pb & Hstep2 & Hpb).
  pose proof (init_step_trans _ _ _ _ _ Hstep1 Hstep2) as Hstep12.
  rewrite Ho1, Hso1, Hs1 in Hpb.
  destruct Hpb as [(-> & Hevs & Hout & Ho2 & Hso2)
                  | [(-> & Hout & Ho2 & Hso2 & Hevs)
                    | [(-> & Hout & Ho2 & dev & Hdev & Hfree & Hevs)
                      | (-> & Hout & Hdev & Hfree & Hfmt & Hch & Hsm & Hevs)]]].
  3: { (* the playback device is rejected *)
    injection Hrun as <- <-.
    split; [now apply (init_step_kept _ _ _ Hstep12) |].
    exists evs_pb, [], []. destruct Hstep12 as (Htr & _).
    rewrite Htr, !app_nil_r.
    split; [reflexivity |].
    split; [right; right; left; eauto 8 |].
    split; [left; repeat split; congruence |].
    split; [left; repeat split; congruence |].
    discriminate. }
  all: destruct (init_tail_outcome _ _ _ _ _ _ _ _ _ Hrun)
         as (-> & Hkept & Ho' & Hso' & evs_cap & evs_ses & Htr' & Hcap & Hses).
  all: split; [apply (init_kept_trans _ w2);
               [now apply (init_step_kept _ _ _ Hstep12) | exact Hkept] |].
  all: destruct Hstep12 as (Htr12 & _ & _ & _ & _ & Hname).
  all: rewrite (capture_name_kept hw captureId w w2 Hname) in Hcap.
  all: exists evs_pb, evs_cap, evs_ses.
  all: split; [rewrite Htr', Htr12, <- !app_assoc; reflexivity |].
  all: assert (Hi : g_devIdInp w2 = g_devIdInp w) by congruence.
  all: assert (He : g_ggWave w2 = g_ggWave w) by congruence.
  all: assert (Hsi : g_obtainedSpecInp w2 = g_obtainedSpecInp w) by congruence.
  all: rewrite Hi, Hsi, <- ?Hso' in Hcap; rewrite Hi, He in Hses.
  all: assert (Hcap' :
         evs_cap = [] /\ g_devIdInp w' = g_devIdInp w /\
         g_obtainedSpecInp w' = g_obtainedSpecInp w \/
         g_devIdInp w = 0%N /\ true = true /\
         (g_devIdInp w' = 0%N \/ (2 <= g_devIdInp w' <= 16)%N) /\
         evs_cap = [EvOpenAudioDevice (capture_name hw captureId w) SDL_TRUE
                      (captureSpec sampleRateOffset (g_obtainedSpecOut w'))
                      (g_devIdInp w')])
         by (destruct Hcap as [? | (? & ? & ?)]; [left; assumption | right; auto]).
  - (* playback already open *)
    split; [left; repeat split; try congruence; now left |].
    split; [exact Hcap' |]. split; [| discriminate].
    destruct Hses as [(-> & ? & _ & ?) | ([Hc | ?] & ? & ->)];
      [left; repeat split; congruence | discriminate | right; auto].
  - (* playback open refused *)
    split; [right; left; repeat split; congruence |].
    split; [exact Hcap' |]. split; [| discriminate].
    destruct Hses as [(-> & ? & _ & ?) | ([Hc | ?] & ? & ->)];
      [left; repeat split; congruence | discriminate | right; auto].
  - (* playback opened *)
    split; [right; right; right; rewrite Hso', Ho'; repeat split;
            try assumption; lia |].
    split; [exact Hcap' |]. split; [| discriminate].
    destruct Hses as [(_ & _ & Hc & _) | (_ & ? & ->)]; [discriminate |].
    right. repeat split; try assumption. right. rewrite Ho', Hout. lia.
Qed.

End NegotiationRuns.

Section NegotiationFacts.
Context {E : Type} `{ModemEngine E} `{SDL_AudioFormats}.
Implicit Types (w : World E) (hw : Hardware).

(** X3.  A failure of [SDL_Init] is reported as success.  With no device
    open the call starts with [SDL_Init]; when that fails, the call returns
    true ([return (1)] in a function returning [bool]) after this one
    action: no device is opened, both handles stay 0, the engine is as
    before, and the error line is printed. *)
Theorem init_sdl_failure (hw : Hardware)
    (playbackId captureId payloadLength sampleRateOffset : Z) (useDSS : bool)
    (w : World E) :
  inactive w = true -> hw_init hw < 0 ->
  exists w',
    GGWave_init hw playbackId captureId payloadLength sampleRateOffset useDSS w
    = Some (true, w') /\
    new_events w w' = [EvInit (hw_init hw)] /\
    sdl w' = sdl w /\
    g_devIdInp w' = 0%N /\ g_devIdOut w' = 0%N /\
    g_ggWave w' = g_ggWave w /\
    In MsgCouldntInitializeSDL (drop (length (console w)) (console w')).
Proof.
  intros Hin Hneg.
  assert (Hf : init_fails hw w = true).
  { unfold init_fails. rewrite Hin. simpl. now apply Z.ltb_lt. }
  apply inactive_true in Hin as [Hi Ho].
  rewrite GGWave_init_blocks, init_guard_run, Hi. simpl.
  destruct (init_subsystem_run hw w)
    as (w1 & Hw1 & (Htr & _) & Hi1 & Ho1 & _ & _ & He1 & Hs1 & Hmsg).
  rewrite Hw1, Hf. exists w1. split; [reflexivity |].
  specialize (Hmsg Hf).
  unfold init_fails in Hf. apply andb_true_iff in Hf as [Hin _].
  rewrite Hin in Htr.
  repeat split; try congruence. now apply new_events_app.
Qed.

Lemma in_init_events (P : Event -> Prop) (b : bool) (r : Z)
    (evs_pb evs_cap evs_ses : list Event) (ev : Event) :
  In ev ((if b then [EvInit r] else []) ++ evs_pb ++ evs_cap ++ evs_ses) ->
  (b = true -> P (EvInit r)) ->
  Forall P evs_pb -> Forall P evs_cap -> Forall P evs_ses -> P ev.
Proof.
  intros Hin Hsub Hpb Hcap Hses.
  rewrite !in_app_iff in Hin. rewrite Forall_forall in Hpb, Hcap, Hses.
  destruct Hin as [Hin | [Hin | [Hin | Hin]]].
  - destruct b; [| contradiction]. destruct Hin as [<- | []]. auto.
  - now apply Hpb, list_elem_of_In.
  - now apply Hcap, list_elem_of_In.
  - now apply Hses, list_elem_of_In.
Qed.

(** X4.  The engine is rebuilt exactly when the call stores a new handle,
    and it stores one exactly when it returns true after an open request
    that was granted.  A call that leaves both handles as they were (every
    request refused, or the playback device opened, rejected and the call
    returning false) leaves the engine as it was, and constructs and deletes
    nothing; a call that changes a handle leaves a new engine, built last of
    all from the obtained specs, after deleting the old one if there was
    one. *)
Theorem init_rebuilds_engine (hw : Hardware)
    (playbackId captureId payloadLength sampleRateOffset : Z) (useDSS r : bool)
    (w w' : World E) :
  GGWave_init hw playbackId captureId payloadLength sampleRateOffset useDSS w
  = Some (r, w') ->
  ((g_devIdInp w' <> g_devIdInp w \/ g_devIdOut w' <> g_devIdOut w) <->
   r = true /\ exists ev, In ev (new_events w w') /\ is_granted ev) /\
  ((g_devIdInp w' = g_devIdInp w /\ g_devIdOut w' = g_devIdOut w /\
    g_ggWave w' = g_ggWave w /\
    forall ev, In ev (new_events w w') ->
      ev <> EvDelete /\ forall p, ev <> EvNew p) \/
   ((g_devIdInp w' <> g_devIdInp w \/ g_devIdOut w' <> g_devIdOut w) /\
    r = true /\
    g_ggWave w' = Some (GGWave_new (session_parameters payloadLength useDSS w')) /\
    last (trace w')
    = Some (EvNew (session_parameters payloadLength useDSS w')) /\
    (In EvDelete (new_events w w') <-> g_ggWave w <> None))).
Proof.
  intros Hrun.
  destruct (init_outcome _ _ _ _ _ _ _ _ _ Hrun)
    as (_ & evs_pb & evs_cap & evs_ses & Htr & Hpb & Hcap & Hses & _).
  assert (Hpb' : Forall (fun ev => ev <> EvDelete /\ forall p, ev <> EvNew p) evs_pb).
  { destruct Hpb as [(-> & _) | [(_ & _ & _ & _ & ->)
                    | [(_ & _ & _ & dev & _ & ->) | (_ & _ & _ & _ & _ & _ & ->)]]];
      repeat constructor; discriminate. }
  assert (Hcap' : Forall (fun ev => ev <> EvDelete /\ forall p, ev <> EvNew p) evs_cap).
  { destruct Hcap as [(-> & _) | (_ & _ & _ & ->)];
      repeat constructor; discriminate. }
  rewrite (new_events_app _ _ _ Htr).
  split.
  { (* a handle changes exactly when a granted device is kept *)
    split.
    - intros [Hi | Ho].
      + destruct Hcap as [(_ & Hsame & _) | (Hi0 & -> & Hdev & ->)];
          [contradiction |].
        split; [reflexivity |]. eexists. split.
        * rewrite !in_app_iff. right. right. left. left. reflexivity.
        * simpl. congruence.
      + destruct Hpb as [(_ & Hsame & _) | [(Ho0 & Ho0' & _)
                        | [(Ho0 & Ho0' & _) | (Ho0 & Hdev & -> & _ & _ & _ & ->)]]];
          try congruence.
        split; [reflexivity |]. eexists. split.
        * rewrite !in_app_iff. right. left. left. reflexivity.
        * simpl. lia.
    - intros (-> & ev & Hin & Hgr).
      rewrite !in_app_iff in Hin.
      destruct Hin as [Hin | [Hin | [Hin | Hin]]].
      + destruct (inactive w); [| contradiction].
        destruct Hin as [<- | []]. contradiction.
      + destruct Hpb as [(-> & _) | [(_ & _ & _ & _ & ->)
                        | [(_ & _ & Hr & _) | (Ho0 & Hdev & _ & _ & _ & _ & ->)]]].
        * contradiction.
        * destruct Hin as [<- | []]. simpl in Hgr. congruence.
        * discriminate.
        * right. lia.
      + destruct Hcap as [(-> & _) | (Hi0 & _ & Hdev & ->)]; [contradiction |].
        destruct Hin as [<- | []]. simpl in Hgr. left. congruence.
      + destruct Hses as [(-> & _) | (_ & Hch & _)]; [contradiction | exact Hch]. }
  destruct Hses as [(-> & He & Hi & Ho) | (-> & Hch & He & ->)].
  - left. split; [assumption |]. split; [assumption |]. split; [assumption |].
    intros ev Hin.
    apply (in_init_events (fun ev => ev <> EvDelete /\ forall p, ev <> EvNew p)
             _ _ _ _ _ _ Hin); try assumption; [| constructor].
    intros _. split; discriminate.
  - right. repeat split; try assumption.
    + rewrite Htr, !app_assoc. apply last_snoc.
    + intros Hin Hnull.
      rewrite Hnull in Hin.
      enough (Hno : EvDelete <> EvDelete) by now apply Hno.
      apply (in_init_events (fun ev => ev <> EvDelete) _ _ _ _ _ _ Hin).
      * discriminate.
      * eapply Forall_impl; [exact Hpb' | now intros ev [? _]].
      * eapply Forall_impl; [exact Hcap' | now intros ev [? _]].
      * repeat constructor. discriminate.
    + intros Hne. rewrite !in_app_iff.
      destruct (g_ggWave w); [| contradiction]. simpl. auto 10.
Qed.

(** X5.  A device that is open is left alone.  [SDL_Init] is called only
    when no device is open; for a side whose handle is nonzero the call
    makes no open request, and the handle and the obtained spec of that side
    are as before. *)
Theorem init_keeps_open_devices (hw : Hardware)
    (playbackId captureId payloadLength sampleRateOffset : Z) (useDSS r : bool)
    (w w' : World E) :
  GGWave_init hw playbackId captureId payloadLength sampleRateOffset useDSS w
  = Some (r, w') ->
  (inactive w = false ->
   forall ev, In ev (new_events w w') -> ~ is_sdl_init ev) /\
  (g_devIdOut w <> 0%N ->
   g_devIdOut w' = g_devIdOut w /\ g_obtainedSpecOut w' = g_obtainedSpecOut w /\
   forall ev, In ev (new_events w w') -> ~ is_open_request SDL_FALSE ev) /\
  (g_devIdInp w <> 0%N ->
   g_devIdInp w' = g_devIdInp w /\ g_obtainedSpecInp w' = g_obtainedSpecInp w /\
   forall ev, In ev (new_events w w') -> ~ is_open_request SDL_TRUE ev).
Proof.
  intros Hrun.
  destruct (init_outcome _ _ _ _ _ _ _ _ _ Hrun)
    as (_ & evs_pb & evs_cap & evs_ses & Htr & Hpb & Hcap & Hses & _).
  rewrite (new_events_app _ _ _ Htr).
  assert (Hses' : forall P : Event -> Prop,
            P EvDelete -> (forall p, P (EvNew p)) -> Forall P evs_ses).
  { intros P Hd Hn.
    destruct Hses as [(-> & _) | (_ & _ & _ & ->)]; [constructor |].
    destruct (g_ggWave w); repeat constructor; auto. }
  split; [| split].
  - intros Hact ev Hin. rewrite Hact in Hin.
    apply (in_init_events (fun ev => ~ is_sdl_init ev) false 0 _ _ _ _ Hin).
    + discriminate.
    + destruct Hpb as [(-> & _) | [(_ & _ & _ & _ & ->)
                      | [(_ & _ & _ & dev & _ & ->) | (_ & _ & _ & _ & _ & _ & ->)]]];
        repeat constructor; simpl; tauto.
    + destruct Hcap as [(-> & _) | (_ & _ & _ & ->)];
        repeat constructor; simpl; tauto.
    + apply Hses'; simpl; tauto.
  - intros Hout.
    destruct Hpb as [(-> & Ho & Hso & _) | [(Hc & _) | [(Hc & _) | (Hc & _)]]];
      try contradiction.
    split; [assumption |]. split; [assumption |]. intros ev Hin.
    apply (in_init_events (fun ev => ~ is_open_request SDL_FALSE ev)
             _ _ _ _ _ _ Hin).
    + simpl. tauto.
    + constructor.
    + destruct Hcap as [(-> & _) | (_ & _ & _ & ->)];
        repeat constructor; simpl; discriminate.
    + apply Hses'; simpl; tauto.
  - intros Hinp.
    destruct Hcap as [(-> & Hi & Hsi) | (Hc & _)]; [| contradiction].
    split; [assumption |]. split; [assumption |]. intros ev Hin.
    apply (in_init_events (fun ev => ~ is_open_request SDL_TRUE ev)
             _ _ _ _ _ _ Hin).
    + simpl. tauto.
    + destruct Hpb as [(-> & _) | [(_ & _ & _ & _ & ->)
                      | [(_ & _ & _ & dev & _ & ->) | (_ & _ & _ & _ & _ & _ & ->)]]];
        repeat constructor; simpl; try tauto; discriminate.
    + constructor.
    + apply Hses'; simpl; tauto.
Qed.

(** X6.  The capture request is a copy of the obtained playback spec (line
    174) with rate, format and samples overwritten: the rate of the playback
    request, the float format, 1024 samples.  Its channel count, silence and
    size are those of [g_obtainedSpecOut] as the call leaves it.  From a
    state in which the spec of an open playback device is the requested one
    (as in every reachable state) that is one channel when the call leaves a
    playback device open; when it leaves none, the playback open of this
    call was refused, and the capture request carries what the refused call
    left in the spec zeroed at line 138. *)
Theorem capture_request_channels (hw : Hardware)
    (playbackId captureId payloadLength sampleRateOffset : Z) (useDSS r : bool)
    (w w' : World E) (name : option string) (desired : SDL_AudioSpec)
    (dev : SDL_AudioDeviceID) :
  playback_as_requested w ->
  GGWave_init hw playbackId captureId payloadLength sampleRateOffset useDSS w
  = Some (r, w') ->
  In (EvOpenAudioDevice name SDL_TRUE desired dev) (new_events w w') ->
  desired = captureSpec sampleRateOffset (g_obtainedSpecOut w') /\
  spec_freq desired = spec_freq (playbackSpec sampleRateOffset) /\
  spec_format desired = AUDIO_F32SYS /\ spec_samples desired = 1024 /\
  spec_channels desired = spec_channels (g_obtainedSpecOut w') /\
  spec_silence desired = spec_silence (g_obtainedSpecOut w') /\
  spec_size desired = spec_size (g_obtainedSpecOut w') /\
  (g_devIdOut w' <> 0%N -> spec_channels desired = 1) /\
  (g_devIdOut w' = 0%N ->
   g_devIdOut w = 0%N /\
   In (EvOpenAudioDevice (playback_name hw playbackId) SDL_FALSE
         (playbackSpec sampleRateOffset) 0%N) (new_events w w') /\
   g_obtainedSpecOut w'
   = default SDL_zero
       (hw_refused hw (playback_name hw playbackId) SDL_FALSE
          (playbackSpec sampleRateOffset))) /\
  name = capture_name hw captureId w /\ dev = g_devIdInp w'.
Proof.
  intros Hreq Hrun Hin.
  destruct (init_outcome _ _ _ _ _ _ _ _ _ Hrun)
    as (_ & evs_pb & evs_cap & evs_ses & Htr & Hpb & Hcap & Hses & _).
  rewrite (new_events_app _ _ _ Htr) in *.
  assert (Hcapin : In (EvOpenAudioDevice name SDL_TRUE desired dev) evs_cap).
  { rewrite !in_app_iff in Hin. destruct Hin as [Hin | [Hin | [Hin | Hin]]].
    - destruct (inactive w); [destruct Hin as [? | []] | contradiction]; discriminate.
    - destruct Hpb as [(-> & _) | [(_ & _ & _ & _ & ->)
                      | [(_ & _ & _ & d & _ & ->) | (_ & _ & _ & _ & _ & _ & ->)]]];
        simpl in Hin; intuition discriminate.
    - exact Hin.
    - destruct Hses as [(-> & _) | (_ & _ & _ & ->)]; [contradiction |].
      destruct (g_ggWave w); simpl in Hin; intuition discriminate. }
  destruct Hcap as [(-> & _) | (_ & Hr & _ & Hcap)]; [contradiction |].
  rewrite Hcap in Hcapin.
  destruct Hcapin as [[= <- <- <-] | []].
  split; [reflexivity |]. split; [reflexivity |]. split; [reflexivity |].
  split; [reflexivity |]. split; [reflexivity |]. split; [reflexivity |].
  split; [reflexivity |].
  change (spec_channels (captureSpec sampleRateOffset (g_obtainedSpecOut w')))
    with (spec_channels (g_obtainedSpecOut w')).
  split; [| split; [| split; reflexivity]].
  - intros Hopen.
    destruct Hpb as [(_ & Ho & Hso & _) | [(_ & Ho & _)
                    | [(_ & Ho & _) | (_ & _ & _ & _ & Hch & _)]]];
      try contradiction.
    + rewrite Hso. apply Hreq. congruence.
    + exact Hch.
  - intros Hzero.
    destruct Hpb as [(_ & Ho & _ & Hopen) | [(Ho & _ & _ & Hso & ->)
                    | [(_ & _ & Hc & _) | (_ & Hdev & _)]]].
    + destruct Hopen as [Hopen | [Hnil _]]; [congruence |].
      rewrite Hnil in Hcap. discriminate.
    + split; [exact Ho |]. split; [| exact Hso].
      rewrite !in_app_iff. right. left. left. reflexivity.
    + congruence.
    + lia.
Qed.

End NegotiationFacts.

Lemma init_sdl_failure_witness :
  exists w',
    GGWave_init hw_no_sdl 0 0 16 0 true (initial_world (E := StubEngine))
    = Some (true, w') /\
    new_events initial_world w' = [EvInit (-1)] /\ g_ggWave w' = None.
Proof.
  destruct (init_sdl_failure hw_no_sdl 0 0 16 0 true
              (initial_world (E := StubEngine)))
    as (w' & Hrun & Hev & _ & _ & _ & He & _);
    [reflexivity | simpl; lia |].
  exists w'. split; [exact Hrun |]. split; [exact Hev | exact He].
Defined.

Lemma init_rebuilds_engine_witness :
  g_ggWave w_ready = Some (GGWave_new (session_parameters 16 true w_ready)) /\
  last (trace w_ready) = Some (EvNew (session_parameters 16 true w_ready)).
Proof.
  assert (Hrun : GGWave_init hw_exact 0 0 16 0 true
                   (initial_world (E := StubEngine)) = Some (true, w_ready))
    by (vm_compute; reflexivity).
  destruct (init_rebuilds_engine hw_exact 0 0 16 0 true true initial_world
              w_ready Hrun) as (_ & [(Hi & _) | (_ & _ & He & Hlast & _)]).
  - vm_compute in Hi. discriminate.
  - split; [exact He | exact Hlast].
Defined.

(** A playback device that is opened and rejected: the call has opened
    device 2, returns false, stores no handle and builds no engine. *)
Example rejected_playback_builds_nothing :
  exists w',
    GGWave_init hw_small_playback 0 0 16 0 true (initial_world (E := StubEngine))
    = Some (false, w') /\
    (exists ev, In ev (new_events initial_world w') /\ is_granted ev) /\
    g_devIdInp w' = 0%N /\ g_devIdOut w' = 0%N /\ g_ggWave w' = None.
Proof.
  vm_compute. eexists. split; [reflexivity |]. split; [| auto].
  eexists. split; [right; left; reflexivity |]. discriminate.
Qed.

Lemma init_keeps_open_devices_witness :
  exists r w',
    GGWave_init hw_exact 0 0 16 0 true w_playback_only = Some (r, w') /\
    g_devIdOut w' = g_devIdOut w_playback_only /\
    g_obtainedSpecOut w' = g_obtainedSpecOut w_playback_only.
Proof.
  destruct (GGWave_init hw_exact 0 0 16 0 true w_playback_only)
    as [[r w'] |] eqn:Hrun; [| vm_compute in Hrun; discriminate].
  destruct (init_keeps_open_devices hw_exact 0 0 16 0 true r w_playback_only
              w' Hrun) as (_ & Hout & _).
  destruct Hout as (Ho & Hso & _); [vm_compute; discriminate |].
  exists r, w'. auto.
Defined.

Lemma capture_request_channels_witness :
  spec_channels (captureSpec 0 (playbackSpec (E := StubEngine) 0)) = 1 /\
  spec_samples (captureSpec 0 (playbackSpec (E := StubEngine) 0)) = 1024.
Proof.
  assert (Hrun : GGWave_init hw_exact 0 0 16 0 true
                   (initial_world (E := StubEngine)) = Some (true, w_ready))
    by (vm_compute; reflexivity).
  assert (Hreq : playback_as_requested (initial_world (E := StubEngine)))
    by (intros Hc; now contradiction Hc).
  assert (Hin : In (EvOpenAudioDevice (Some "default"%string) SDL_TRUE
                      (captureSpec 0 (playbackSpec (E := StubEngine) 0)) 3%N)
                   (new_events initial_world w_ready))
    by (vm_compute; auto 10).
  destruct (capture_request_channels hw_exact 0 0 16 0 true true initial_world
              w_ready _ _ _ Hreq Hrun Hin) as (_ & _ & _ & Hsm & _ & _ & _ & Hch & _).
  split; [apply Hch; vm_compute; discriminate | exact Hsm].
Defined.

(** When the refused playback open has written nothing, the zeroed spec
    reaches the capture request; when it has copied the request, the one
    channel of the request does. *)
Example capture_requested_without_channels :
  exists w' name desired dev,
    GGWave_init hw_no_playback 0 0 16 0 true (initial_world (E := StubEngine))
    = Some (true, w') /\
    In (EvOpenAudioDevice name SDL_TRUE desired dev) (new_events initial_world w') /\
    spec_channels desired = 0 /\ dev <> 0%N.
Proof.
  vm_compute. eexists _, _, _, _. split; [reflexivity |].
  split; [right; right; left; reflexivity |]. split; [reflexivity | discriminate].
Qed.

Example capture_requested_with_copied_channel :
  exists w' name desired dev,
    GGWave_init hw_no_playback_copy 0 0 16 0 true (initial_world (E := StubEngine))
    = Some (true, w') /\
    In (EvOpenAudioDevice name SDL_TRUE desired dev) (new_events initial_world w') /\
    spec_channels desired = 1 /\ g_devIdOut w' = 0%N /\ dev <> 0%N.
Proof.
  vm_compute. eexists _, _, _, _. split; [reflexivity |].
  split; [right; right; left; reflexivity |].
  split; [reflexivity |]. split; [reflexivity | discriminate].
Qed.

(** ** What every run keeps *)

Section RunInvariant.
Context {E : Type} `{ModemEngine E} `{SDL_AudioFormats}.
Implicit Types (w : World E) (e : E) (hw : Hardware).

Lemma same_buffer_size_refl w : same_buffer_size w w.
Proof. intros buf Hbuf. eauto. Qed.

Lemma same_buffer_size_trans w w1 w2 :
  same_buffer_size w w1 -> same_buffer_size w1 w2 -> same_buffer_size w w2.
Proof.
  intros H1 H2 buf Hbuf.
  destruct (H1 buf Hbuf) as (buf1 & Hbuf1 & Hlen1).
  destruct (H2 buf1 Hbuf1) as (buf2 & Hbuf2 & Hlen2).
  exists buf2. split; [assumption | congruence].
Qed.

Lemma same_buffer_size_eq w w' : dataInp w' = dataInp w -> same_buffer_size w w'.
Proof. intros Heq buf Hbuf. exists buf. split; [congruence | reflexivity]. Qed.

(** The vector handed to [decode] has the size the vector had before. *)
Lemma decode_input_length w e buf :
  dataInp w = Some buf -> dataInp_ready w e = true ->
  length (decode_input w e) = length buf.
Proof.
  unfold dataInp_ready, decode_input. intros -> Hrdy. simpl.
  apply Nat.leb_le in Hrdy. rewrite length_app, length_drop. lia.
Qed.

(** What a tick that takes one of the four paths leaves alone. *)
Lemma tick_spec_kept w e w' :
  tick_spec w e w' ->
  g_devIdInp w' = g_devIdInp w /\ g_devIdOut w' = g_devIdOut w /\
  g_obtainedSpecInp w' = g_obtainedSpecInp w /\
  g_obtainedSpecOut w' = g_obtainedSpecOut w /\
  g_defaultCaptureDeviceName w' = g_defaultCaptureDeviceName w /\
  clock w' = clock w /\
  is_Some (g_ggWave w') /\ same_buffer_size w w'.
Proof.
  intros [Htx Hpost | Htx Hdr Hpost | Htx Hdr Hgate Hpost
         | Htx Hdr Hdeb Hen Hrdy Hpost];
    destruct Hpost as (_ & _ & _ & He & _ & Hd & Hi & Ho & Hsi & Hso & Hn & Hc);
    repeat split; try assumption; try (rewrite He; eauto);
    try (now apply same_buffer_size_eq).
  intros buf Hbuf. eexists. split; [exact Hd |].
  now apply decode_input_length.
Qed.

(** *** One step *)

Lemma init_run_invariant hw playbackId captureId payloadLength sampleRateOffset
    useDSS w r w' :
  run_invariant w ->
  GGWave_init hw playbackId captureId payloadLength sampleRateOffset useDSS w
  = Some (r, w') ->
  run_invariant w'.
Proof.
  intros (Hwf & Hbi & Hbo & Hnull & Hreq) Hrun.
  split; [now apply (init_well_formed _ _ _ _ _ _ _ _ _ Hwf Hrun) |].
  destruct (init_outcome _ _ _ _ _ _ _ _ _ Hrun)
    as (_ & evs_pb & evs_cap & evs_ses & _ & Hpb & Hcap & Hses & _).
  split; [| split; [| split]].
  - destruct Hcap as [(_ & -> & _) | (_ & _ & [-> | ?] & _)]; lia.
  - destruct Hpb as [(_ & -> & _) | [(_ & -> & _) | [(_ & -> & _) | (_ & ? & _)]]];
      lia.
  - intros Hin. apply inactive_true in Hin as [Hi Ho].
    destruct Hses as [(_ & -> & Hi' & Ho') | (_ & Hch & _)].
    + apply Hnull, inactive_true. split; congruence.
    + exfalso.
      destruct Hcap as [(_ & Hi' & _) | (Hi0 & _)];
        destruct Hpb as [(_ & Ho' & _) | [(Ho0 & _) | [(Ho0 & _) | (_ & ? & _)]]];
        try lia; destruct Hch as [Hch | Hch]; apply Hch; congruence.
  - intros Hout.
    destruct Hpb as [(_ & Ho' & Hso' & _) | [(_ & ? & _) | [(_ & ? & _)
                    | (_ & _ & _ & ? & ? & ? & _)]]]; try contradiction; auto.
    rewrite Hso'. apply Hreq. congruence.
Qed.

Lemma tick_run_invariant w r w' :
  run_invariant w -> GGWave_mainLoop w = Some (r, w') -> run_invariant w'.
Proof.
  intros (Hwf & Hbi & Hbo & Hnull & Hreq) Hrun.
  split; [now apply (tick_well_formed _ _ _ Hwf Hrun) |].
  destruct (tick_inv w r w' Hrun) as [(_ & _ & ->) | (Hact & _ & e & He & Hspec)];
    [auto |].
  destruct (tick_spec_kept w e w' Hspec) as (Hi & Ho & _ & Hso & _).
  unfold playback_as_requested, inactive. rewrite Hi, Ho, Hso.
  split; [assumption |]. split; [assumption |]. split; [| assumption].
  intros Hin. unfold inactive in Hact. congruence.
Qed.

Lemma deinit_run_invariant w r w' :
  run_invariant w -> GGWave_deinit w = Some (r, w') -> run_invariant w'.
Proof.
  intros (Hwf & Hbi & Hbo & Hnull & Hreq) Hrun.
  split; [now apply (deinit_well_formed _ _ _ Hwf Hrun) |].
  destruct (inactive w) eqn:Hact.
  - rewrite GGWave_deinit_inactive in Hrun by assumption.
    injection Hrun as <- <-. auto.
  - destruct (GGWave_deinit_active w Hact) as (w1 & Hw1 & Hi & Ho & He & _).
    rewrite Hw1 in Hrun. injection Hrun as <- <-.
    unfold playback_as_requested. rewrite Hi, Ho.
    split; [lia |]. split; [lia |]. split; [auto |].
    intros Hc. now contradiction Hc.
Qed.

Lemma sendData_run text protocolId volume w e :
  g_ggWave w = Some e ->
  sendData text protocolId volume w
  = Some (0, set_ggWave (Some (snd (init text protocolId volume e)))
               (log_event (EvTxInit text protocolId volume) w)).
Proof.
  intros He. unfold sendData, bind.
  now rewrite (ggWave_call_run _ _ _ e He).
Qed.

Lemma sendData_null text protocolId volume w :
  g_ggWave w = None -> sendData text protocolId volume w = None.
Proof.
  intros He. unfold sendData, bind, ggWave_call, ggWave, bind, gets.
  now rewrite He.
Qed.

Lemma sendData_run_invariant text protocolId volume w r w' :
  run_invariant w -> sendData text protocolId volume w = Some (r, w') ->
  run_invariant w'.
Proof.
  intros (Hwf & Hbi & Hbo & Hnull & Hreq) Hrun.
  split; [now apply (sendData_well_formed _ _ _ _ _ _ Hwf Hrun) |].
  destruct (g_ggWave w) as [e |] eqn:He;
    [| rewrite sendData_null in Hrun by assumption; discriminate].
  rewrite (sendData_run _ _ _ _ e He) in Hrun. injection Hrun as <- <-.
  split; [assumption |]. split; [assumption |]. split; [| assumption].
  intros Hin. specialize (Hnull Hin). congruence.
Qed.

Lemma capture_fields data w :
  g_devIdInp (capture data w) = g_devIdInp w /\
  g_devIdOut (capture data w) = g_devIdOut w /\
  g_ggWave (capture data w) = g_ggWave w /\
  g_obtainedSpecOut (capture data w) = g_obtainedSpecOut w /\
  dataInp (capture data w) = dataInp w.
Proof. unfold capture. destruct (unpaused _ _); repeat split. Qed.

Lemma play_fields n w :
  g_devIdInp (play n w) = g_devIdInp w /\
  g_devIdOut (play n w) = g_devIdOut w /\
  g_ggWave (play n w) = g_ggWave w /\
  g_obtainedSpecOut (play n w) = g_obtainedSpecOut w /\
  dataInp (play n w) = dataInp w.
Proof. unfold play. destruct (unpaused _ _); repeat split. Qed.

Lemma step_run_invariant w w' : run_invariant w -> step w w' -> run_invariant w'.
Proof.
  intros Hinv [hw pb cp pl off dss r Hrun | r Hrun | r Hrun
              | text protocolId volume r Hrun | name Hrun
              | dt _ -> | data -> | n ->].
  - now apply (init_run_invariant hw pb cp pl off dss w r).
  - now apply (tick_run_invariant w r).
  - now apply (deinit_run_invariant w r).
  - now apply (sendData_run_invariant text protocolId volume w r).
  - unfold GGWave_setDefaultCaptureDeviceName, modify in Hrun.
    injection Hrun as <-. exact Hinv.
  - exact Hinv.
  - destruct Hinv as (Hwf & Hbi & Hbo & Hnull & Hreq).
    destruct (capture_fields data w) as (Hi & Ho & He & Hso & _).
    split; [now apply capture_well_formed |].
    unfold playback_as_requested, inactive. rewrite Hi, Ho, He, Hso.
    auto.
  - destruct Hinv as (Hwf & Hbi & Hbo & Hnull & Hreq).
    destruct (play_fields n w) as (Hi & Ho & He & Hso & _).
    split; [now apply play_well_formed |].
    unfold playback_as_requested, inactive. rewrite Hi, Ho, He, Hso.
    auto.
Qed.

Lemma initial_run_invariant : run_invariant (initial_world (E := E)).
Proof.
  split; [apply initial_well_formed |].
  unfold playback_as_requested; simpl.
  split; [lia |]. split; [lia |]. split; [reflexivity |].
  intros Hc. now contradiction Hc.
Qed.

Lemma reachable_run_invariant w : reachable w -> run_invariant w.
Proof.
  unfold reachable. revert w.
  apply (rtc_ind_r (fun w => run_invariant w)).
  - apply initial_run_invariant.
  - intros w w' _ Hstep IH. now apply (step_run_invariant w).
Qed.

Lemma step_same_buffer w w' : step w w' -> same_buffer_size w w'.
Proof.
  intros [hw pb cp pl off dss r Hrun | r Hrun | r Hrun
         | text protocolId volume r Hrun | name Hrun
         | dt _ -> | data -> | n ->].
  - destruct (init_outcome _ _ _ _ _ _ _ _ _ Hrun) as ((_ & Hd & _) & _).
    now apply same_buffer_size_eq.
  - destruct (tick_inv w r w' Hrun) as [(_ & _ & ->) | (_ & _ & e & _ & Hspec)].
    + apply same_buffer_size_refl.
    + apply (tick_spec_kept w e w' Hspec).
  - destruct (inactive w) eqn:Hact.
    + rewrite GGWave_deinit_inactive in Hrun by assumption.
      injection Hrun as <- <-. apply same_buffer_size_refl.
    + destruct (GGWave_deinit_active w Hact)
        as (w1 & Hw1 & _ & _ & _ & _ & _ & _ & _ & Hd & _).
      rewrite Hw1 in Hrun. injection Hrun as <- <-.
      now apply same_buffer_size_eq.
  - destruct (g_ggWave w) as [e |] eqn:He;
      [| rewrite sendData_null in Hrun by assumption; discriminate].
    rewrite (sendData_run _ _ _ _ e He) in Hrun. injection Hrun as <- <-.
    now apply same_buffer_size_eq.
  - unfold GGWave_setDefaultCaptureDeviceName, modify in Hrun.
    injection Hrun as <-. now apply same_buffer_size_eq.
  - now apply same_buffer_size_eq.
  - apply same_buffer_size_eq, capture_fields.
  - apply same_buffer_size_eq, play_fields.
Qed.

(** X7.  In every state the program reaches: a nonzero handle names an
    open device with an id between 2 and 16, the two handles name different
    devices, an engine exists exactly while a device is open, and the spec
    obtained for an open playback device has the format, channel count and
    buffer size the program asked for. *)
Theorem reachable_invariant (w : World E) :
  reachable w ->
  (g_devIdInp w = 0%N \/ (2 <= g_devIdInp w <= 16)%N /\ is_Some (sdl w !! g_devIdInp w)) /\
  (g_devIdOut w = 0%N \/ (2 <= g_devIdOut w <= 16)%N /\ is_Some (sdl w !! g_devIdOut w)) /\
  (inactive w = false -> g_devIdInp w <> g_devIdOut w) /\
  (is_Some (g_ggWave w) <-> inactive w = false) /\
  (g_devIdOut w <> 0%N ->
   spec_format (g_obtainedSpecOut w) = AUDIO_S16SYS /\
   spec_channels (g_obtainedSpecOut w) = 1 /\
   spec_samples (g_obtainedSpecOut w) = 16 * 1024).
Proof.
  intros Hreach.
  destruct (reachable_run_invariant w Hreach)
    as ([(Hi & Ho & Hne & Hz) Heng] & Hbi & Hbo & Hnull & Hreq).
  split; [| split; [| split; [| split]]].
  - destruct Hi as [? | [Hn1 Hopen]]; [now left | right].
    split; [| assumption].
    destruct (N.eq_dec (g_devIdInp w) 0%N) as [Hc | Hc]; [| lia].
    rewrite Hc, Hz in Hopen. now destruct Hopen.
  - destruct Ho as [? | [Hn1 Hopen]]; [now left | right].
    split; [| assumption].
    destruct (N.eq_dec (g_devIdOut w) 0%N) as [Hc | Hc]; [| lia].
    rewrite Hc, Hz in Hopen. now destruct Hopen.
  - intros Hact. apply inactive_false in Hact.
    destruct Hne as [Hc | ?]; [| assumption].
    rewrite Hc in *. destruct Hact as [? | ?]; congruence.
  - split.
    + intros [e He]. destruct (inactive w) eqn:Hact; [| reflexivity].
      rewrite Hnull in He by reflexivity. discriminate.
    + intros Hact. apply Heng. now apply inactive_false.
  - exact Hreq.
Qed.

(** X8.  The receive buffer is never resized.  Once the static vector of
    line 265 is allocated, it is allocated with the same number of bytes in
    every later state, whatever the program does in between: ticks,
    negotiations that rebuild the engine with another input format,
    shutdown. *)
Theorem receive_buffer_never_resized (w w' : World E) (buf : list byte) :
  rtc step w w' -> dataInp w = Some buf ->
  exists buf', dataInp w' = Some buf' /\ length buf' = length buf.
Proof.
  intros Hrun. revert buf.
  change (same_buffer_size w w').
  induction Hrun as [w | w w1 w2 Hstep _ IH].
  - apply same_buffer_size_refl.
  - apply (same_buffer_size_trans w w1); [now apply step_same_buffer | exact IH].
Qed.

(** X9.  In a reachable state the loop has no defined result in one case
    only: nothing to send, the playback queue drained, more than 500 ms
    since the timestamp, a frame queued, and a receive buffer that cannot
    be allocated or is shorter than the frame (lines 265-266).  The null
    engine pointer is never dereferenced. *)
Theorem tick_undefined_iff (w : World E) :
  reachable w ->
  GGWave_mainLoop w = None <->
  exists e,
    g_ggWave w = Some e /\ inactive w = false /\
    txHasData e = false /\ drained w e = true /\
    debounced w = true /\ enough w e = true /\ dataInp_ready w e = false.
Proof.
  intros Hreach.
  destruct (reachable_run_invariant w Hreach) as ([_ Heng] & _).
  split.
  - intros Hnone.
    destruct (inactive w) eqn:Hact;
      [rewrite tick_inactive in Hnone by assumption; discriminate |].
    destruct (Heng (proj1 (inactive_false w) Hact)) as [e He].
    exists e. split; [assumption |]. split; [reflexivity |].
    destruct (txHasData e) eqn:Htx.
    { destruct (tick_transmit w e Hact He Htx) as (w1 & Hw1 & _). congruence. }
    destruct (drained w e) eqn:Hdr.
    2: { destruct (tick_draining w e Hact He Htx Hdr) as (w1 & Hw1 & _).
         congruence. }
    destruct (debounced w && enough w e) eqn:Hgate.
    2: { destruct (tick_idle w e Hact He Htx Hdr Hgate) as (w1 & Hw1 & _).
         congruence. }
    apply andb_true_iff in Hgate as [Hdeb Hen].
    destruct (dataInp_ready w e) eqn:Hrdy; [| auto 10].
    destruct (tick_decode w e Hact He Htx Hdr Hdeb Hen Hrdy) as (w1 & Hw1 & _).
    congruence.
  - intros (e & He & Hact & Htx & Hdr & Hdeb & Hen & Hrdy).
    now apply (tick_decode_undefined w e Hact He).
Qed.

End RunInvariant.

Lemma w_ready_reachable : reachable w_ready.
Proof.
  apply run_reachable; [| vm_compute; discriminate].
  constructor; [intros w1 w2; apply exec_init_step |].
  constructor.
Qed.

Lemma w_listening_reachable : reachable w_listening.
Proof.
  apply run_reachable; [| vm_compute; discriminate].
  constructor; [intros w1 w2; apply exec_init_step |].
  constructor; [intros w1 w2; apply exec_tick_step |].
  constructor.
Qed.

Lemma w_playback_only_reachable : reachable w_playback_only.
Proof.
  apply run_reachable; [| vm_compute; discriminate].
  constructor; [intros w1 w2; apply exec_init_step |].
  constructor.
Qed.

Lemma reachable_invariant_witness :
  (is_Some (g_ggWave w_renegotiated) <-> inactive w_renegotiated = false) /\
  spec_channels (g_obtainedSpecOut w_renegotiated) = 1.
Proof.
  destruct (reachable_invariant w_renegotiated w_renegotiated_reachable)
    as (_ & _ & _ & Heng & Hreq).
  split; [exact Heng |]. apply Hreq. vm_compute. discriminate.
Defined.

Lemma receive_buffer_never_resized_witness :
  exists buf', dataInp w_shutdown = Some buf' /\ length buf' = 2048%nat.
Proof.
  assert (Hrun : rtc step w_decoded w_shutdown).
  { apply rtc_once. eapply (StepDeinit _ _ true). vm_compute. reflexivity. }
  assert (Hbuf : dataInp w_decoded = Some (replicate 2048 Byte.x01))
    by (vm_compute; reflexivity).
  destruct (receive_buffer_never_resized w_decoded w_shutdown _ Hrun Hbuf)
    as (buf' & Hbuf' & Hlen).
  exists buf'. split; [exact Hbuf' |].
  rewrite Hlen. apply length_replicate.
Defined.

Lemma tick_undefined_iff_witness :
  exists e,
    g_ggWave w_renegotiated = Some e /\
    dataInp_ready w_renegotiated e = false.
Proof.
  assert (Hnone : GGWave_mainLoop w_renegotiated = None)
    by (vm_compute; reflexivity).
  destruct (proj1 (tick_undefined_iff w_renegotiated w_renegotiated_reachable)
              Hnone) as (e & He & _ & _ & _ & _ & _ & Hrdy).
  exists e. split; [exact He | exact Hrdy].
Defined.

(** ** The functions exported to the page *)

Section PageInterface.
Context {E : Type} `{ModemEngine E} `{ModemStatus E} `{SDL_AudioFormats}.
Implicit Types (w : World E) (e : E).

Lemma queue_of_queue_closed dev d data (s : gmap N AudioDevice) :
  s !! d = None -> queue_of dev (sdl_step (EvQueueAudio d data) s) = queue_of dev s.
Proof.
  intros Hd. unfold queue_of, sdl_step. rewrite lookup_alter.
  case_decide; [| reflexivity]. subst. now rewrite Hd.
Qed.

Lemma sdl_step_encode (s : gmap N AudioDevice) : sdl_step EvEncode s = s.
Proof. reflexivity. Qed.

(** X10.  [getText] copies the received bytes over the front of the
    caller's buffer and returns 0: the buffer keeps its length, starts with
    the received bytes, and is unchanged behind them (no terminator is
    written).  A buffer shorter than the received data is overrun. *)
Theorem getText_copies (w : World E) (e : E) (text : list byte) :
  g_ggWave w = Some e ->
  ((length (rxData e) <= length text)%nat ->
   exists text',
     getText text w = Some ((0, text'), w) /\
     length text' = length text /\
     take (length (rxData e)) text' = rxData e /\
     drop (length (rxData e)) text' = drop (length (rxData e)) text) /\
  ((length text < length (rxData e))%nat -> getText text w = None).
Proof.
  intros He. unfold getText, bind. rewrite (ggWave_get_run _ _ _ He).
  split; intros Hlen.
  - apply Nat.ltb_ge in Hlen. rewrite Hlen. eexists. split; [reflexivity |].
    apply Nat.ltb_ge in Hlen.
    rewrite length_app, length_drop, take_app_length, drop_app_length.
    repeat split. lia.
  - apply Nat.ltb_lt in Hlen. now rewrite Hlen.
Qed.

(** X11.  In every state the program reaches, the functions of the page
    interface that go through the engine pointer are defined exactly while
    a device is open.  With no device open each of them, [sendData]
    included, dereferences a null pointer; with a device open the queries
    return the engine's values and change nothing. *)
Theorem queries_defined_iff_active (w : World E) :
  reachable w ->
  (inactive w = true ->
   sampleRate w = None /\ framesToRecord w = None /\
   framesLeftToRecord w = None /\ framesToAnalyze w = None /\
   framesLeftToAnalyze w = None /\
   (forall text, getText text w = None) /\
   (forall text protocolId volume, sendData text protocolId volume w = None)) /\
  (inactive w = false ->
   exists e,
     g_ggWave w = Some e /\
     sampleRate w = Some (sampleRateInp e, w) /\
     framesToRecord w = Some (rxFramesToRecord e, w) /\
     framesLeftToRecord w = Some (rxFramesLeftToRecord e, w) /\
     framesToAnalyze w = Some (rxFramesToAnalyze e, w) /\
     framesLeftToAnalyze w = Some (rxFramesLeftToAnalyze e, w) /\
     (forall text protocolId volume,
        exists w', sendData text protocolId volume w = Some (0, w'))).
Proof.
  intros Hreach.
  destruct (reachable_run_invariant w Hreach) as ([_ Heng] & _ & _ & Hnull & _).
  split; intros Hact.
  - specialize (Hnull Hact).
    unfold sampleRate, framesToRecord, framesLeftToRecord, framesToAnalyze,
      framesLeftToAnalyze.
    rewrite !ggWave_get_null by assumption.
    repeat split.
    + intros text. unfold getText, bind. now rewrite ggWave_get_null.
    + intros text protocolId volume. now apply sendData_null.
  - destruct (Heng (proj1 (inactive_false w) Hact)) as [e He].
    exists e. split; [assumption |].
    unfold sampleRate, framesToRecord, framesLeftToRecord, framesToAnalyze,
      framesLeftToAnalyze.
    rewrite !(ggWave_get_run _ _ _ He). repeat split.
    intros text protocolId volume. rewrite (sendData_run _ _ _ _ e He). eauto.
Qed.

(** X12.  [hasDeviceOutput] and [hasDeviceCapture] tell the truth in every
    reachable state: each returns the handle itself (it fits an [int]),
    and the value is nonzero exactly when the handle names an open
    device. *)
Theorem hasDevice_truthful (w : World E) :
  reachable w ->
  hasDeviceOutput w = Some (Z.of_N (g_devIdOut w), w) /\
  hasDeviceCapture w = Some (Z.of_N (g_devIdInp w), w) /\
  (Z.of_N (g_devIdOut w) <> 0 <-> is_Some (sdl w !! g_devIdOut w)) /\
  (Z.of_N (g_devIdInp w) <> 0 <-> is_Some (sdl w !! g_devIdInp w)).
Proof.
  intros Hreach.
  destruct (reachable_run_invariant w Hreach)
    as ([(Hi & Ho & _ & Hz) _] & Hbi & Hbo & _).
  unfold hasDeviceOutput, hasDeviceCapture, gets.
  rewrite !to_int_small by lia.
  split; [reflexivity |]. split; [reflexivity |]. split.
  - split.
    + intros Hnz. destruct Ho as [Hc | [_ Hopen]]; [| assumption]. lia.
    + intros Hopen Hc. assert (Hc' : g_devIdOut w = 0%N) by lia.
      rewrite Hc', Hz in Hopen. now destruct Hopen.
  - split.
    + intros Hnz. destruct Hi as [Hc | [_ Hopen]]; [| assumption]. lia.
    + intros Hopen Hc. assert (Hc' : g_devIdInp w = 0%N) by lia.
      rewrite Hc', Hz in Hopen. now destruct Hopen.
Qed.

(** X13.  [sendData] and the next tick.  When the engine reports outbound
    data after [init], the tick that follows pauses both devices, encodes
    once, and appends the waveform to the playback queue.  In a session
    without a playback device the waveform is encoded all the same and then
    dropped: no queue changes. *)
Theorem send_then_tick (w : World E) (e : E) (text : list byte)
    (protocolId volume : Z) :
  reachable w -> inactive w = false -> g_ggWave w = Some e ->
  let e1 := snd (init text protocolId volume e) in
  txHasData e1 = true ->
  exists w1 w2,
    sendData text protocolId volume w = Some (0, w1) /\
    GGWave_mainLoop w1 = Some (true, w2) /\
    new_events w w2
    = [EvTxInit text protocolId volume;
       EvPauseAudioDevice (g_devIdOut w) SDL_TRUE;
       EvPauseAudioDevice (g_devIdInp w) SDL_TRUE;
       EvEncode;
       EvQueueAudio (g_devIdOut w) (fst (encode e1))] /\
    g_ggWave w2 = Some (snd (encode e1)) /\
    (g_devIdOut w <> 0%N ->
     queue_of (g_devIdOut w) (sdl w2)
     = queue_of (g_devIdOut w) (sdl w) ++ fst (encode e1)) /\
    (g_devIdOut w = 0%N ->
     forall dev, queue_of dev (sdl w2) = queue_of dev (sdl w)).
Proof.
  intros Hreach Hact He e1 Htx.
  destruct (reachable_run_invariant w Hreach) as ([(_ & Ho & _ & Hz) _] & _).
  rewrite (sendData_run _ _ _ _ e He).
  set (w1 := set_ggWave (Some e1) (log_event (EvTxInit text protocolId volume) w)).
  assert (Hact1 : inactive w1 = false) by exact Hact.
  assert (He1 : g_ggWave w1 = Some e1) by reflexivity.
  destruct (tick_transmit w1 e1 Hact1 He1 Htx)
    as (w2 & Hw2 & Htr & Hsdl & _ & He2 & _).
  exists w1, w2. split; [reflexivity |]. split; [assumption |].
  split; [| split; [assumption | split]].
  - unfold new_events. rewrite Htr. simpl. rewrite <- app_assoc.
    apply drop_app_length.
  - intros Hout. destruct Ho as [? | [_ Hopen]]; [contradiction |].
    rewrite Hsdl. unfold replay; simpl.
    change (sdl_step (EvTxInit text protocolId volume) (sdl w)) with (sdl w).
    rewrite queue_of_queue; [now rewrite sdl_step_encode, !queue_of_pause |].
    now rewrite sdl_step_encode, !is_open_step by exact I.
  - intros Hout dev. rewrite Hsdl. unfold replay; simpl.
    change (sdl_step (EvTxInit text protocolId volume) (sdl w)) with (sdl w).
    rewrite Hout. rewrite queue_of_queue_closed;
      [now rewrite sdl_step_encode, !queue_of_pause |].
    apply eq_None_not_Some. rewrite sdl_step_encode, !is_open_step by exact I.
    now apply eq_None_not_Some.
Qed.

End PageInterface.

Lemma getText_copies_witness :
  exists text',
    getText (replicate 2050 Byte.x00) w_decoded = Some ((0, text'), w_decoded) /\
    length text' = 2050%nat /\
    drop 2048 text' = [Byte.x00; Byte.x00].
Proof.
  assert (He : g_ggWave w_decoded = Some (engine_of w_decoded))
    by (vm_compute; reflexivity).
  destruct (proj1 (getText_copies w_decoded (engine_of w_decoded)
                     (replicate 2050 Byte.x00) He))
    as (text' & Hrun & Hlen & _ & Hrest);
    [apply Nat.leb_le; vm_compute; reflexivity |].
  exists text'. split; [exact Hrun |].
  split; [rewrite Hlen; apply length_replicate |].
  assert (Hdata : length (rxData (engine_of w_decoded)) = 2048%nat)
    by (vm_compute; reflexivity).
  rewrite Hdata in Hrest. rewrite Hrest. vm_compute. reflexivity.
Defined.

Lemma queries_defined_iff_active_witness :
  exists e,
    g_ggWave w_ready = Some e /\ sampleRate w_ready = Some (sampleRateInp e, w_ready).
Proof.
  destruct (proj2 (queries_defined_iff_active w_ready w_ready_reachable))
    as (e & He & Hrate & _); [vm_compute; reflexivity |].
  exists e. split; [exact He | exact Hrate].
Defined.

Lemma hasDevice_truthful_witness :
  hasDeviceCapture w_playback_only = Some (0, w_playback_only) /\
  hasDeviceOutput w_playback_only = Some (2, w_playback_only).
Proof.
  destruct (hasDevice_truthful w_playback_only w_playback_only_reachable)
    as (Ho & Hi & _).
  split; [exact Hi | exact Ho].
Defined.

Lemma send_then_tick_witness :
  exists w1 w2,
    sendData [Byte.x68; Byte.x69] 1 10 w_listening = Some (0, w1) /\
    GGWave_mainLoop w1 = Some (true, w2) /\
    queue_of (g_devIdOut w_listening) (sdl w2) = [Byte.x68; Byte.x69].
Proof.
  assert (He : g_ggWave w_listening = Some (engine_of w_listening))
    by (vm_compute; reflexivity).
  destruct (send_then_tick w_listening (engine_of w_listening)
              [Byte.x68; Byte.x69] 1 10 w_listening_reachable)
    as (w1 & w2 & Hsend & Htick & _ & _ & Hq & _);
    [vm_compute; reflexivity | exact He | vm_compute; reflexivity |].
  exists w1, w2. split; [exact Hsend |]. split; [exact Htick |].
  rewrite Hq by (vm_compute; discriminate). vm_compute. reflexivity.
Defined.

(** ** [main] and its closures *)

Section MainFacts.
Context {E : Type} `{ModemEngine E} `{ModemStatus E} `{SDL_AudioFormats}.
Implicit Types (w : World E) (a : App E) (hw : Hardware).

Lemma set_world_same a : set_world (world a) a = a.
Proof. now destruct a. Qed.

Lemma in_world_some {A} (m : M E A) a x w' :
  m (world a) = Some (x, w') -> in_world m a = Some (x, set_world w' a).
Proof. intros Hm. unfold in_world. now rewrite Hm. Qed.

Lemma in_world_inv {A} (m : M E A) a x a' :
  in_world m a = Some (x, a') ->
  m (world a) = Some (x, world a') /\
  isInitialized a' = isInitialized a /\ main_console a' = main_console a.
Proof.
  unfold in_world. destruct (m (world a)) as [[y w'] |]; [| discriminate].
  intros [= <- <-]. repeat split.
Qed.

(** What [g_doInit] does, by the result of [GGWave_init]. *)
Lemma g_doInit_inv hw captureId payloadLength a r a' :
  g_doInit hw captureId payloadLength a = Some (r, a') ->
  GGWave_init hw 0 captureId payloadLength 0 true (world a) = Some (r, world a') /\
  isInitialized a' = (if r then true else isInitialized a) /\
  main_console a'
  = main_console a
    ++ [(length (console (world a')),
         if r then LineListening payloadLength else LineFailedToInitializeGGWave)].
Proof.
  unfold g_doInit, in_world.
  destruct (GGWave_init hw 0 captureId payloadLength 0 true (world a))
    as [[[] w'] |]; [| | discriminate]; intros [= <- <-]; repeat split.
Qed.

Lemma g_mainUpdate_inv a r a' :
  g_mainUpdate a = Some (r, a') ->
  r = true /\ isInitialized a' = isInitialized a /\
  main_console a' = main_console a /\
  (isInitialized a = false /\ a' = a \/
   isInitialized a = true /\
   exists b, GGWave_mainLoop (world a) = Some (b, world a')).
Proof.
  unfold g_mainUpdate. destruct (isInitialized a) eqn:Hinit; simpl.
  - destruct (in_world GGWave_mainLoop a) as [[b a1] |] eqn:Hrun; [| discriminate].
    intros [= <- <-]. apply in_world_inv in Hrun as (Hrun & Hi & Hc).
    repeat split; try congruence. right. eauto.
  - intros [= <- <-]. repeat split; auto.
Qed.

(** The loop of [main] does not end. *)
Lemma main_loop_running (sleeps : list Sleep) a out a' :
  main_loop sleeps a = Some (out, a') -> out = Running.
Proof.
  revert a. induction sleeps as [| s rest IH]; intros a Hrun; simpl in Hrun.
  - now injection Hrun as <- _.
  - destruct (g_mainUpdate (set_world (during s (world a)) a))
      as [[r a1] |] eqn:Hup; [| discriminate].
    destruct (g_mainUpdate_inv _ _ _ Hup) as (-> & _). now apply (IH a1).
Qed.

(** X14.  The native [main] ends in two ways only, both before its loop.
    An option value that [std::stoi] does not accept ends it at lines
    346-347 by an exception nothing catches, before any audio call; and a
    first negotiation that rejects the playback device makes it return -2.
    It never returns 0: once the loop is entered it is never left, because
    [g_mainUpdate] returns true whatever [GGWave_mainLoop] returns; the
    shutdown of lines 386-390 is dead code. *)
Theorem main_ends_before_the_loop (argv0 : string) (hw : Hardware)
    (argm : gmap string string) (sleeps : list Sleep) :
  (cmd_int argm "c" 0 = None \/ cmd_int argm "l" 16 = None ->
   exists a',
     main argv0 hw argm sleeps = Some (Terminated, a') /\
     isInitialized a' = false /\ world a' = initial_world (E := E)) /\
  (forall (out : Outcome) (a' : App E),
     main argv0 hw argm sleeps = Some (out, a') ->
     out = Terminated /\
     (cmd_int argm "c" 0 = None \/ cmd_int argm "l" 16 = None) \/
     exists captureId payloadLength,
       cmd_int argm "c" 0 = Some captureId /\
       cmd_int argm "l" 16 = Some payloadLength /\
       (out = Running /\ isInitialized a' = true \/
        out = Exited (-2) /\ isInitialized a' = false /\
        playback_rejected hw 0 0 (initial_world (E := E)) = true /\
        g_devIdInp (world a') = 0%N /\ g_devIdOut (world a') = 0%N /\
        g_ggWave (world a') = None)).
Proof.
  unfold main. split.
  { intros [Hc | Hl].
    - rewrite Hc. eexists. split; [reflexivity |]. split; reflexivity.
    - rewrite Hl. destruct (cmd_int argm "c" 0);
        (eexists; split; [reflexivity |]; split; reflexivity). }
  intros out a' Hrun.
  destruct (cmd_int argm "c" 0) as [captureId |];
    [| injection Hrun as <- _; left; auto].
  destruct (cmd_int argm "l" 16) as [payloadLength |];
    [| injection Hrun as <- _; left; auto].
  right. exists captureId, payloadLength.
  split; [reflexivity |]. split; [reflexivity |].
  match type of Hrun with context [g_doInit _ _ _ ?a0] => set (a := a0) in * end.
  destruct (g_doInit hw captureId payloadLength a) as [[[] a1] |] eqn:Hinit;
    [| | discriminate].
  - left. split; [exact (main_loop_running sleeps a1 out a' Hrun) |].
    apply g_doInit_inv in Hinit as (_ & Hflag & _).
    assert (Hkeep : forall l b out' b',
              main_loop l b = Some (out', b') -> isInitialized b' = isInitialized b).
    { induction l as [| s rest IH]; intros b out' b' Hl; simpl in Hl.
      - now injection Hl as _ <-.
      - destruct (g_mainUpdate (set_world (during s (world b)) b))
          as [[r b1] |] eqn:Hup; [| discriminate].
        destruct (g_mainUpdate_inv _ _ _ Hup) as (-> & Hb1 & _).
        rewrite (IH _ _ _ Hl). exact Hb1. }
    now rewrite (Hkeep _ _ _ _ Hrun).
  - right. injection Hrun as <- <-.
    apply g_doInit_inv in Hinit as (Hcall & Hflag & _).
    change (world a) with (initial_world (E := E)) in Hcall.
    split; [reflexivity |]. split; [exact Hflag |].
    assert (Hrej : playback_rejected hw 0 0 (initial_world (E := E)) = true).
    { destruct (playback_rejected hw 0 0 (initial_world (E := E))) eqn:Hrej;
        [reflexivity |].
      destruct (negotiation_accepted hw 0 captureId payloadLength 0 true
                  initial_world (or_introl eq_refl) Hrej) as (w' & Hw' & _).
      congruence. }
    split; [exact Hrej |].
    destruct (init_outcome _ _ _ _ _ _ _ _ _ Hcall)
      as (_ & evs_pb & evs_cap & evs_ses & _ & _ & _ & Hses & _).
    destruct Hses as [(_ & He & Hi & Ho) | (Hc & _)]; [| discriminate].
    simpl. rewrite Hi, Ho, He. repeat split.
Qed.

(** X15.  Pressing Init when both devices are open reports a failure that
    did not happen: [doInit] returns 0 and prints the failure line,
    although nothing was attempted and nothing changed; [isInitialized]
    keeps its value, so a running session keeps running. *)
Theorem doInit_again_reports_failure (hw : Hardware)
    (captureId payloadLength : Z) (a : App E) :
  g_devIdInp (world a) <> 0%N -> g_devIdOut (world a) <> 0%N ->
  js_doInit hw captureId payloadLength a
  = Some (0, say LineFailedToInitializeGGWave a).
Proof.
  intros Hi Ho. unfold js_doInit, g_doInit, in_world.
  rewrite init_both_open by assumption. simpl. now rewrite set_world_same.
Qed.

(** X16.  [doInit] reports success with nothing to show for it.  When
    [SDL_Init] fails, or when the platform refuses to open both devices,
    [doInit] returns 1, sets [isInitialized] and prints the listening line,
    yet no device is open and no engine exists: every later [mainUpdate]
    does nothing, and [sendData] dereferences the null pointer. *)
Theorem doInit_succeeds_without_devices (hw : Hardware)
    (captureId payloadLength : Z) (a : App E) :
  inactive (world a) = true -> g_ggWave (world a) = None ->
  hw_init hw < 0 \/ (forall name iscapture spec, hw_open hw name iscapture spec = None) ->
  exists a',
    js_doInit hw captureId payloadLength a = Some (1, a') /\
    isInitialized a' = true /\
    snd <$> last (main_console a') = Some (LineListening payloadLength) /\
    inactive (world a') = true /\ g_ggWave (world a') = None /\
    mainUpdate a' = Some (tt, a') /\
    forall text protocolId volume,
      in_world (sendData text protocolId volume) a' = None.
Proof.
  intros Hin Hnull Hhw.
  pose proof (proj1 (inactive_true _) Hin) as [Hi Ho].
  assert (Hrej : playback_rejected hw 0 0 (world a) = false).
  { unfold playback_rejected, init_fails, open_result. rewrite Hin. simpl.
    destruct Hhw as [Hneg | Hrefuse].
    - apply Z.ltb_lt in Hneg. rewrite Hneg. simpl.
      now rewrite andb_false_r.
    - rewrite Hrefuse. simpl. apply andb_false_r. }
  destruct (negotiation_accepted hw 0 captureId payloadLength 0 true (world a)
              (or_introl Hi) Hrej) as (w' & Hw' & Hout & Hinp).
  destruct (init_outcome _ _ _ _ _ _ _ _ _ Hw')
    as (_ & evs_pb & evs_cap & evs_ses & _ & Hpb & Hcap & Hses & Hfail).
  assert (Hi' : g_devIdInp w' = 0%N).
  { apply Hinp; [assumption |].
    destruct Hhw as [Hneg | Hrefuse]; [left | right; intros; apply Hrefuse].
    unfold init_fails. rewrite Hin. simpl. now apply Z.ltb_lt. }
  assert (Ho' : g_devIdOut w' = 0%N).
  { destruct (init_fails hw (world a)) eqn:Hf.
    - destruct (Hfail eq_refl) as (_ & -> & _).
      destruct Hpb as [(_ & -> & _) | [(_ & ? & _) | [(_ & ? & _) | (_ & _ & _ & _ & _ & _ & [=])]]];
        assumption.
    - apply Hout; [assumption | reflexivity |].
      destruct Hhw as [Hneg | Hrefuse].
      + unfold init_fails in Hf. rewrite Hin in Hf. simpl in Hf.
        apply Z.ltb_ge in Hf. lia.
      + unfold open_result. now rewrite Hrefuse. }
  assert (He' : g_ggWave w' = None).
  { destruct Hses as [(_ & -> & _) | (_ & [Hc | Hc] & _)];
      [assumption | congruence | congruence]. }
  assert (Hin' : inactive w' = true) by (apply inactive_true; auto).
  eexists. unfold js_doInit, g_doInit, in_world. rewrite Hw'. simpl.
  split; [reflexivity |]. split; [reflexivity |].
  split; [unfold say; simpl; now rewrite last_snoc |].
  split; [exact Hin' |]. split; [exact He' |]. split.
  - unfold mainUpdate, g_mainUpdate, in_world; simpl.
    now rewrite tick_inactive.
  - intros text protocolId volume. unfold in_world; simpl.
    now rewrite sendData_null.
Qed.

(** *** Runs of the page *)

Lemma during_reachable (s : Sleep) w :
  0 <= slept s -> rtc step w (during s w).
Proof.
  intros Hs. unfold during.
  eapply rtc_l; [eapply StepElapse; [exact Hs | reflexivity] |].
  eapply rtc_l; [eapply StepCapture; reflexivity |].
  eapply rtc_once. eapply StepPlay. reflexivity.
Qed.

Lemma during_handles (s : Sleep) w :
  g_devIdInp (during s w) = g_devIdInp w /\ g_devIdOut (during s w) = g_devIdOut w.
Proof.
  unfold during.
  destruct (play_fields (played s) (capture (captured s) (elapse (slept s) w)))
    as (-> & -> & _).
  destruct (capture_fields (captured s) (elapse (slept s) w)) as (-> & -> & _).
  split; reflexivity.
Qed.

Lemma page_step_world captureId payloadLength a a' :
  page_step captureId payloadLength a a' -> rtc step (world a) (world a').
Proof.
  intros [hw r Hrun | Hrun | text protocolId volume r Hrun | s Hs ->].
  - unfold js_doInit in Hrun.
    destruct (g_doInit hw captureId payloadLength a) as [[b a1] |] eqn:Hinit;
      [| discriminate].
    injection Hrun as _ <-.
    apply g_doInit_inv in Hinit as (Hcall & _).
    eapply rtc_once, StepInit, Hcall.
  - unfold mainUpdate in Hrun.
    destruct (g_mainUpdate a) as [[b a1] |] eqn:Hup; [| discriminate].
    injection Hrun as <-.
    destruct (g_mainUpdate_inv _ _ _ Hup)
      as (_ & _ & _ & [(_ & ->) | (_ & b' & Htick)]).
    + apply rtc_refl.
    + eapply rtc_once, StepTick, Htick.
  - apply in_world_inv in Hrun as (Hcall & _).
    eapply rtc_once, StepSend, Hcall.
  - now apply during_reachable.
Qed.

Lemma page_step_flag captureId payloadLength a a' :
  page_step captureId payloadLength a a' ->
  reachable (world a) ->
  (isInitialized a = false -> inactive (world a) = true) ->
  (isInitialized a = true -> isInitialized a' = true) /\
  (isInitialized a' = false -> inactive (world a') = true).
Proof.
  intros [hw r Hrun | Hrun | text protocolId volume r Hrun | s Hs ->]
    Hreach Hflag.
  - unfold js_doInit in Hrun.
    destruct (g_doInit hw captureId payloadLength a) as [[b a1] |] eqn:Hinit;
      [| discriminate].
    injection Hrun as _ <-.
    apply g_doInit_inv in Hinit as (Hcall & Hinit & _).
    destruct b; [split; [auto | congruence] |].
    rewrite Hinit. split; [auto |]. intros Hno.
    destruct (init_outcome _ _ _ _ _ _ _ _ _ Hcall)
      as (_ & evs_pb & evs_cap & evs_ses & _ & _ & _ & Hses & _).
    destruct Hses as [(_ & _ & Hi & Ho) | (Hc & _)]; [| discriminate].
    unfold inactive. rewrite Hi, Ho. now apply Hflag.
  - unfold mainUpdate in Hrun.
    destruct (g_mainUpdate a) as [[b a1] |] eqn:Hup; [| discriminate].
    injection Hrun as <-.
    destruct (g_mainUpdate_inv _ _ _ Hup)
      as (_ & Hi & _ & [(_ & ->) | (Hyes & _)]).
    + auto.
    + split; congruence.
  - apply in_world_inv in Hrun as (Hcall & Hi & _). rewrite Hi.
    split; [auto |]. intros Hno. exfalso.
    destruct (reachable_run_invariant _ Hreach) as (_ & _ & _ & Hnull & _).
    rewrite sendData_null in Hcall; [discriminate |]. auto.
  - simpl. split; [auto |]. intros Hno.
    destruct (during_handles s (world a)) as [Hi Ho].
    unfold inactive. rewrite Hi, Ho. now apply Hflag.
Qed.

Lemma main_emscripten_world (argv1 : option string) :
  reachable (world (main_emscripten (E := E) argv1)) /\
  isInitialized (main_emscripten (E := E) argv1) = false /\
  inactive (world (main_emscripten (E := E) argv1)) = true.
Proof.
  unfold main_emscripten. destruct argv1 as [name |]; simpl.
  - repeat split. apply rtc_once. eapply StepName. reflexivity.
  - repeat split. apply rtc_refl.
Qed.

Lemma page_reachable_inv argv1 captureId payloadLength a :
  page_reachable argv1 captureId payloadLength a ->
  reachable (world a) /\ (isInitialized a = false -> inactive (world a) = true).
Proof.
  unfold page_reachable. revert a.
  apply (rtc_ind_r (fun a => reachable (world a) /\
                            (isInitialized a = false -> inactive (world a) = true))).
  - destruct (main_emscripten_world argv1) as (? & ? & ?). auto.
  - intros a a' _ Hstep [Hreach Hflag]. split.
    + eapply rtc_trans; [exact Hreach |].
      exact (page_step_world captureId payloadLength a a' Hstep).
    + exact (proj2 (page_step_flag captureId payloadLength a a' Hstep Hreach Hflag)).
Qed.

(** X17.  Until [doInit] has returned 1 nothing is set up, whatever the
    page has called so far: no device is open and the engine pointer is
    null, so [mainUpdate] leaves the state as it is, and a call of
    [sendData], [getText] or [sampleRate] dereferences the null pointer. *)
Theorem page_before_init (argv1 : option string) (captureId payloadLength : Z)
    (a : App E) :
  page_reachable argv1 captureId payloadLength a ->
  isInitialized a = false ->
  g_devIdInp (world a) = 0%N /\ g_devIdOut (world a) = 0%N /\
  g_ggWave (world a) = None /\
  mainUpdate a = Some (tt, a) /\
  (forall text protocolId volume,
     in_world (sendData text protocolId volume) a = None) /\
  (forall text, in_world (getText text) a = None) /\
  in_world sampleRate a = None.
Proof.
  intros Hpage Hno.
  destruct (page_reachable_inv _ _ _ _ Hpage) as [Hreach Hflag].
  specialize (Hflag Hno).
  destruct (reachable_run_invariant _ Hreach) as (_ & _ & _ & Hnull & _).
  specialize (Hnull Hflag).
  apply inactive_true in Hflag as [Hi Ho].
  split; [assumption |]. split; [assumption |]. split; [assumption |].
  split; [unfold mainUpdate, g_mainUpdate; now rewrite Hno |].
  split; [| split].
  - intros text protocolId volume. unfold in_world. now rewrite sendData_null.
  - intros text. unfold in_world, getText, bind. now rewrite ggWave_get_null.
  - unfold in_world, sampleRate. now rewrite ggWave_get_null.
Qed.

End MainFacts.

Lemma main_ends_before_the_loop_witness :
  (exists a',
     main "ggwave" hw_exact argm_bare [] = Some (Terminated, a') /\
     world a' = initial_world (E := StubEngine)) /\
  (exists a',
     main "ggwave" hw_small_playback argm_payload [] = Some (Exited (-2), a') /\
     g_ggWave (world a') = None).
Proof.
  split.
  - destruct (proj1 (main_ends_before_the_loop "ggwave" hw_exact argm_bare []))
      as (a' & Hrun & _ & Hw); [left; vm_compute; reflexivity |].
    exists a'. split; [exact Hrun | exact Hw].
  - destruct (main "ggwave" hw_small_playback argm_payload [])
      as [[out a'] |] eqn:Hrun; [| vm_compute in Hrun; discriminate].
    destruct (proj2 (main_ends_before_the_loop "ggwave" hw_small_playback
                       argm_payload []) out a' Hrun)
      as [(-> & _) | (c & l & _ & _ & [(-> & _) | (-> & _ & _ & _ & _ & He)])].
    + vm_compute in Hrun. discriminate.
    + vm_compute in Hrun. discriminate.
    + exists a'. split; [reflexivity | exact He].
Defined.

(** On a platform that grants every request the loop is still running
    after any number of iterations; here, after three, started with
    [-l8]. *)
Example main_keeps_running :
  exists a',
    main "ggwave" hw_exact argm_payload
      [{| slept := 1000; captured := []; played := 0 |};
       {| slept := 1000; captured := [Byte.x01]; played := 0 |};
       {| slept := 1000; captured := []; played := 0 |}]
    = Some (Running, a') /\
    isInitialized a' = true /\
    unpaused (g_devIdInp (world a')) (sdl (world a')) = true.
Proof. vm_compute. eexists. repeat split. Qed.

(** What [std::stoi] accepts: digits after white space and a sign, with
    anything behind them; not the empty string, a bare sign, or a number
    that no [int] holds. *)
Example stoi_samples :
  stoi "16" = Some 16 /\ stoi " -7x" = Some (-7) /\ stoi "+015 3" = Some 15 /\
  stoi EmptyString = None /\ stoi "+" = None /\ stoi "x1" = None /\
  stoi "2147483648" = None /\ stoi "-2147483648" = Some (-2147483648).
Proof. vm_compute. repeat split. Qed.

Lemma doInit_again_reports_failure_witness :
  js_doInit hw_exact 0 16 a_ready
  = Some (0, say LineFailedToInitializeGGWave a_ready) /\
  isInitialized (say LineFailedToInitializeGGWave a_ready) = true.
Proof.
  split; [| vm_compute; reflexivity].
  apply (doInit_again_reports_failure hw_exact 0 16 a_ready);
    vm_compute; discriminate.
Defined.

Lemma doInit_succeeds_without_devices_witness :
  exists a',
    js_doInit hw_no_sdl 0 16 (main_emscripten (E := StubEngine) None)
    = Some (1, a') /\
    isInitialized a' = true /\ g_ggWave (world a') = None.
Proof.
  destruct (doInit_succeeds_without_devices hw_no_sdl 0 16
              (main_emscripten (E := StubEngine) None))
    as (a' & Hrun & Hinit & _ & _ & He & _);
    [reflexivity | reflexivity | left; simpl; lia |].
  exists a'. split; [exact Hrun |]. split; [exact Hinit | exact He].
Defined.

Lemma a_rejected_reachable : page_reachable None 0 16 a_rejected.
Proof.
  apply rtc_once. eapply (PageInit _ _ _ _ hw_small_playback 0).
  vm_compute. reflexivity.
Qed.

Lemma page_before_init_witness :
  mainUpdate a_rejected = Some (tt, a_rejected) /\
  in_world (sendData [Byte.x68] 1 10) a_rejected = None.
Proof.
  destruct (page_before_init None 0 16 a_rejected a_rejected_reachable)
    as (_ & _ & _ & Hup & Hsend & _); [vm_compute; reflexivity |].
  split; [exact Hup | apply Hsend].
Defined.

(** The device of the rejected playback open is still open, although the
    page was told that the initialization failed and both handles are 0. *)
Example rejected_device_outlives_failure :
  g_devIdOut (world a_rejected) = 0%N /\
  is_Some (sdl (world a_rejected) !! 2%N).
Proof. vm_compute. split; [reflexivity | eauto]. Qed.

(** ** Devices the program does not hold *)

Section Frame.
Context {E : Type} `{ModemEngine E} `{SDL_AudioFormats}.
Implicit Types (w : World E) (e : E) (hw : Hardware) (s : gmap N AudioDevice).

Lemma replay_lookup_other evs dev s :
  Forall (fun ev => event_device ev <> Some dev) evs ->
  replay evs s !! dev = s !! dev.
Proof.
  intros Hall. revert s. induction Hall as [| ev evs Hev _ IH]; intros s.
  - reflexivity.
  - change (replay (ev :: evs) s) with (replay evs (sdl_step ev s)).
    rewrite IH. now apply lookup_step_other.
Qed.

(** The devices a tick addresses are the two the handles name. *)
Lemma tick_spec_devices w e w' :
  tick_spec w e w' ->
  Forall (fun ev => forall dev, event_device ev = Some dev ->
                    dev = g_devIdInp w \/ dev = g_devIdOut w)
    (new_events w w').
Proof.
  intros [Htx Hpost | Htx Hdr Hpost | Htx Hdr Hgate Hpost
         | Htx Hdr Hdeb Hen Hrdy Hpost];
    destruct Hpost as (Htr & _); rewrite (new_events_app _ _ _ Htr);
    unfold decode_events;
    try destruct (decode_ok w e); try destruct (overflow w e); simpl;
    repeat (constructor;
            [simpl; intros dev Hdev; try discriminate;
             injection Hdev as <-; auto |]);
    constructor.
Qed.

(** X18.  A tick keeps to the two devices it holds.  It opens and closes
    nothing, it leaves the handles and the obtained specs as they are, and
    a device that neither handle names keeps its pause flag and its
    queue. *)
Theorem tick_frame (w : World E) (r : bool) (w' : World E) :
  GGWave_mainLoop w = Some (r, w') ->
  g_devIdInp w' = g_devIdInp w /\ g_devIdOut w' = g_devIdOut w /\
  g_obtainedSpecInp w' = g_obtainedSpecInp w /\
  g_obtainedSpecOut w' = g_obtainedSpecOut w /\
  dom (sdl w') = dom (sdl w) /\
  forall dev, dev <> g_devIdInp w -> dev <> g_devIdOut w ->
              sdl w' !! dev = sdl w !! dev.
Proof.
  intros Hrun.
  destruct (tick_inv w r w' Hrun) as [(_ & _ & ->) | (_ & _ & e & _ & Hspec)];
    [repeat split |].
  destruct (tick_spec_kept w e w' Hspec) as (Hi & Ho & Hsi & Hso & _).
  destruct (tick_spec_trace w e w' Hspec) as (_ & Hsdl & _).
  split; [assumption |]. split; [assumption |].
  split; [assumption |]. split; [assumption |]. split.
  - apply set_eq. intros dev. rewrite !elem_of_dom, Hsdl.
    apply is_open_replay. now apply (tick_spec_keeps_devices w e).
  - intros dev Hni Hno. rewrite Hsdl. apply replay_lookup_other.
    eapply Forall_impl; [exact (tick_spec_devices w e w' Hspec) |].
    intros ev Hev Hdev. destruct (Hev dev Hdev); contradiction.
Qed.

Lemma frame_kept_refl w : frame_kept w w.
Proof. intros dev _ _. reflexivity. Qed.

Lemma frame_kept_trans w w1 w2 :
  frame_kept w w1 -> frame_kept w1 w2 -> frame_kept w w2.
Proof.
  intros H1 H2 dev Hopen Hn1. rewrite <- (H1 dev Hopen Hn1).
  apply H2; [| assumption]. now rewrite (H1 dev Hopen Hn1).
Qed.

Lemma frame_kept_same w w' : sdl w' = sdl w -> frame_kept w w'.
Proof. intros Heq dev _ _. now rewrite Heq. Qed.

Lemma frame_kept_open name iscapture desired d w w' :
  sdl w !! d = None ->
  sdl w' = sdl_step (EvOpenAudioDevice name iscapture desired d) (sdl w) ->
  frame_kept w w'.
Proof.
  intros Hfree Hsdl dev [x Hx] _. rewrite Hsdl. unfold sdl_step.
  destruct (d =? 0)%N; [reflexivity |].
  apply lookup_insert_ne. congruence.
Qed.

Lemma init_frame_kept hw playbackId captureId payloadLength sampleRateOffset
    useDSS w r w' :
  GGWave_init hw playbackId captureId payloadLength sampleRateOffset useDSS w
  = Some (r, w') ->
  frame_kept w w'.
Proof.
  intros Hrun. rewrite GGWave_init_blocks, init_guard_run in Hrun.
  destruct (negb (g_devIdInp w =? 0)%N && negb (g_devIdOut w =? 0)%N).
  { injection Hrun as <- <-. apply frame_kept_refl. }
  destruct (init_subsystem_run hw w)
    as (w1 & Hw1 & _ & _ & _ & _ & _ & _ & Hs1 & _).
  rewrite Hw1 in Hrun.
  assert (Hf1 : frame_kept w w1) by now apply frame_kept_same.
  destruct (init_fails hw w).
  { now injection Hrun as <- <-. }
  destruct (init_playback hw playbackId sampleRateOffset false w1)
    as [[fl w2] |] eqn:Hw2; [| discriminate].
  destruct (playback_block _ _ _ _ _ _ _ Hw2)
    as (_ & _ & _ & evs_pb & (_ & Hsdl2 & _) & Hpb).
  assert (Hf2 : frame_kept w1 w2).
  { destruct Hpb as [(_ & -> & _) | [(_ & _ & _ & _ & ->)
                    | [(_ & _ & _ & dev & _ & Hfree & ->)
                      | (_ & _ & _ & Hfree & _ & _ & _ & ->)]]].
    - now apply frame_kept_same.
    - now apply frame_kept_same.
    - intros d [x Hx] Hn1. rewrite Hsdl2. unfold replay; simpl.
      unfold sdl_step at 1. rewrite lookup_delete_ne by congruence.
      unfold sdl_step. destruct (dev =? 0)%N; [reflexivity |].
      apply lookup_insert_ne. congruence.
    - eapply frame_kept_open; [exact Hfree | exact Hsdl2]. }
  destruct fl as [b | r2].
  { injection Hrun as <- <-. now apply (frame_kept_trans w w1). }
  destruct (init_capture hw captureId sampleRateOffset r2 w2)
    as [[fl w3] |] eqn:Hw3; [| discriminate].
  destruct (capture_block _ _ _ _ _ _ _ Hw3)
    as (_ & _ & _ & evs_cap & (_ & Hsdl3 & _) & Hcap).
  assert (Hf3 : frame_kept w2 w3).
  { destruct Hcap as [(_ & -> & _) | [(_ & _ & _ & _ & ->)
                     | (_ & _ & _ & Hfree & ->)]].
    - now apply frame_kept_same.
    - now apply frame_kept_same.
    - eapply frame_kept_open; [exact Hfree | exact Hsdl3]. }
  assert (Hcont : exists r3, fl = Continue r3)
    by (destruct Hcap as [(-> & _) | [(-> & _) | (-> & _)]]; eauto).
  destruct Hcont as [r3 ->].
  destruct (init_session_run payloadLength useDSS r3 w3)
    as (w4 & Hw4 & _ & _ & _ & _ & Hs4 & _).
  rewrite Hw4 in Hrun. injection Hrun as <- <-.
  apply (frame_kept_trans w w1); [assumption |].
  apply (frame_kept_trans w1 w2); [assumption |].
  apply (frame_kept_trans w2 w3); [assumption |].
  now apply frame_kept_same.
Qed.

(** X19.  A negotiation does not disturb a device that is open: whatever
    the call opens, rejects or rebuilds, every device that was open before
    it, the legacy device 1 apart, is still open with the same pause flag
    and the same queue.  A later retry for the missing side therefore
    leaves the audio queued on the other side in place. *)
Theorem init_frame (hw : Hardware)
    (playbackId captureId payloadLength sampleRateOffset : Z) (useDSS r : bool)
    (w w' : World E) (dev : SDL_AudioDeviceID) (d : AudioDevice) :
  GGWave_init hw playbackId captureId payloadLength sampleRateOffset useDSS w
  = Some (r, w') ->
  sdl w !! dev = Some d -> dev <> 1%N ->
  sdl w' !! dev = Some d.
Proof.
  intros Hrun Hd Hn1.
  rewrite (init_frame_kept _ _ _ _ _ _ _ _ _ Hrun dev); eauto.
Qed.

End Frame.

Lemma tick_frame_witness :
  exists w',
    GGWave_mainLoop w_listening = Some (true, w') /\
    dom (sdl w') = dom (sdl w_listening).
Proof.
  destruct (GGWave_mainLoop w_listening) as [[r w'] |] eqn:Hrun;
    [| vm_compute in Hrun; discriminate].
  assert (Hr : r = true) by (vm_compute in Hrun; congruence). subst r.
  destruct (tick_frame w_listening true w' Hrun) as (_ & _ & _ & _ & Hdom & _).
  exists w'. split; [reflexivity | exact Hdom].
Defined.

Lemma init_frame_witness :
  exists r w',
    GGWave_init hw_exact 0 0 16 0 true w_playback_only = Some (r, w') /\
    sdl w' !! 2%N = Some fresh_device.
Proof.
  destruct (GGWave_init hw_exact 0 0 16 0 true w_playback_only)
    as [[r w'] |] eqn:Hrun; [| vm_compute in Hrun; discriminate].
  exists r, w'. split; [reflexivity |].
  apply (init_frame hw_exact 0 0 16 0 true r w_playback_only w' 2%N
           fresh_device Hrun); [vm_compute; reflexivity | discriminate].
Defined.

(** ** The capture device name, and devices that are never closed *)

Section CaptureName.
Context {E : Type} `{ModemEngine E} `{ModemStatus E} `{SDL_AudioFormats}.
Implicit Types (w : World E) (a : App E) (hw : Hardware).

(** The one capture open request of a call. *)
Lemma capture_request_inv hw playbackId captureId payloadLength sampleRateOffset
    useDSS w r w' name desired dev :
  GGWave_init hw playbackId captureId payloadLength sampleRateOffset useDSS w
  = Some (r, w') ->
  In (EvOpenAudioDevice name SDL_TRUE desired dev) (new_events w w') ->
  name = capture_name hw captureId w /\
  desired = captureSpec sampleRateOffset (g_obtainedSpecOut w') /\
  dev = g_devIdInp w'.
Proof.
  intros Hrun Hin.
  destruct (init_outcome _ _ _ _ _ _ _ _ _ Hrun)
    as (_ & evs_pb & evs_cap & evs_ses & Htr & Hpb & Hcap & Hses & _).
  rewrite (new_events_app _ _ _ Htr) in Hin.
  assert (Hcapin : In (EvOpenAudioDevice name SDL_TRUE desired dev) evs_cap).
  { rewrite !in_app_iff in Hin. destruct Hin as [Hin | [Hin | [Hin | Hin]]].
    - destruct (inactive w); [destruct Hin as [? | []] | contradiction]; discriminate.
    - destruct Hpb as [(-> & _) | [(_ & _ & _ & _ & ->)
                      | [(_ & _ & _ & d & _ & ->) | (_ & _ & _ & _ & _ & _ & ->)]]];
        simpl in Hin; intuition discriminate.
    - exact Hin.
    - destruct Hses as [(-> & _) | (_ & _ & _ & ->)]; [contradiction |].
      destruct (g_ggWave w); simpl in Hin; intuition discriminate. }
  destruct Hcap as [(-> & _) | (_ & _ & _ & ->)]; [contradiction |].
  destruct Hcapin as [[= <- <- <-] | []]. repeat split.
Qed.

(** X20.  The name stored by [GGWave_setDefaultCaptureDeviceName] names the
    capture device only when the call is given a negative capture id: then
    the request carries that name, or no name when it is empty.  With a
    capture id of 0 or more the request carries the name SDL lists under
    that id and the stored name is not looked at. *)
Theorem capture_device_name (stored : string) (hw : Hardware)
    (playbackId captureId payloadLength sampleRateOffset : Z) (useDSS r : bool)
    (w w1 w' : World E) (name : option string) (desired : SDL_AudioSpec)
    (dev : SDL_AudioDeviceID) :
  GGWave_setDefaultCaptureDeviceName stored w = Some (tt, w1) ->
  GGWave_init hw playbackId captureId payloadLength sampleRateOffset useDSS w1
  = Some (r, w') ->
  In (EvOpenAudioDevice name SDL_TRUE desired dev) (new_events w1 w') ->
  (0 <= captureId -> name = hw_device_name hw captureId SDL_TRUE) /\
  (captureId < 0 -> stored <> EmptyString -> name = Some stored) /\
  (captureId < 0 -> stored = EmptyString -> name = None).
Proof.
  intros Hset Hrun Hin.
  unfold GGWave_setDefaultCaptureDeviceName, modify in Hset.
  injection Hset as <-.
  destruct (capture_request_inv _ _ _ _ _ _ _ _ _ _ _ _ Hrun Hin) as (-> & _).
  unfold capture_name; simpl. repeat split.
  - intros Hc. apply Z.leb_le in Hc. now rewrite Hc.
  - intros Hc Hne. apply Z.leb_gt in Hc. rewrite Hc.
    now rewrite bool_decide_eq_false_2.
  - intros Hc ->. apply Z.leb_gt in Hc. rewrite Hc. reflexivity.
Qed.

(** *** The page never closes a device *)

Lemma during_trace (s : Sleep) w : trace (during s w) = trace w.
Proof.
  unfold during, play, capture, elapse.
  repeat match goal with |- context [if ?b then _ else _] => destruct b end;
    reflexivity.
Qed.

Lemma init_closes_legacy_only hw playbackId captureId payloadLength
    sampleRateOffset useDSS w r w' :
  GGWave_init hw playbackId captureId payloadLength sampleRateOffset useDSS w
  = Some (r, w') ->
  exists evs,
    trace w' = trace w ++ evs /\
    forall d, In (EvCloseAudioDevice d) evs -> d = 1%N.
Proof.
  intros Hrun.
  destruct (init_outcome _ _ _ _ _ _ _ _ _ Hrun)
    as (_ & evs_pb & evs_cap & evs_ses & Htr & Hpb & Hcap & Hses & _).
  eexists. split; [exact Htr |]. intros d Hin.
  rewrite !in_app_iff in Hin. destruct Hin as [Hin | [Hin | [Hin | Hin]]].
  - destruct (inactive w); [destruct Hin as [? | []] | contradiction]; discriminate.
  - destruct Hpb as [(-> & _) | [(_ & _ & _ & _ & ->)
                    | [(_ & _ & _ & d' & _ & ->) | (_ & _ & _ & _ & _ & _ & ->)]]];
      simpl in Hin; intuition (try discriminate; congruence).
  - destruct Hcap as [(-> & _) | (_ & _ & _ & ->)];
      simpl in Hin; intuition discriminate.
  - destruct Hses as [(-> & _) | (_ & _ & _ & ->)]; [contradiction |].
    destruct (g_ggWave w); simpl in Hin; intuition discriminate.
Qed.

Lemma page_step_closes captureId payloadLength a a' :
  page_step captureId payloadLength a a' ->
  exists evs,
    trace (world a') = trace (world a) ++ evs /\
    forall d, In (EvCloseAudioDevice d) evs -> d = 1%N.
Proof.
  intros [hw r Hrun | Hrun | text protocolId volume r Hrun | s Hs ->].
  - unfold js_doInit in Hrun.
    destruct (g_doInit hw captureId payloadLength a) as [[b a1] |] eqn:Hinit;
      [| discriminate].
    injection Hrun as _ <-.
    apply g_doInit_inv in Hinit as (Hcall & _).
    exact (init_closes_legacy_only _ _ _ _ _ _ _ _ _ Hcall).
  - unfold mainUpdate in Hrun.
    destruct (g_mainUpdate a) as [[b a1] |] eqn:Hup; [| discriminate].
    injection Hrun as <-.
    destruct (g_mainUpdate_inv _ _ _ Hup)
      as (_ & _ & _ & [(_ & ->) | (_ & b' & Htick)]).
    + exists []. split; [now rewrite app_nil_r | contradiction].
    + destruct (tick_inv _ _ _ Htick)
        as [(_ & _ & Heq) | (_ & _ & e & _ & Hspec)].
      * exists []. rewrite Heq. split; [now rewrite app_nil_r | contradiction].
      * exists (new_events (world a) (world a1)).
        split; [apply (tick_spec_trace _ _ _ Hspec) |].
        intros d Hin.
        pose proof (tick_spec_keeps_devices _ _ _ Hspec) as Hall.
        rewrite Forall_forall in Hall.
        apply list_elem_of_In, Hall in Hin. contradiction.
  - apply in_world_inv in Hrun as (Hcall & _).
    destruct (g_ggWave (world a)) as [e |] eqn:He;
      [| rewrite sendData_null in Hcall by assumption; discriminate].
    rewrite (sendData_run _ _ _ _ e He) in Hcall. injection Hcall as _ <-.
    eexists. split; [reflexivity |]. simpl. intuition discriminate.
  - exists []. simpl. rewrite during_trace.
    split; [now rewrite app_nil_r | contradiction].
Qed.

(** X21.  The web build never gives a device back.  In every state the
    page can reach, the only close call on record is [SDL_CloseAudio()] on
    the legacy device 1, which the program never opens: a device opened by
    [SDL_OpenAudioDevice], the rejected playback device included, stays
    open for the rest of the run. *)
Theorem page_never_closes (argv1 : option string) (captureId payloadLength : Z)
    (a : App E) (d : SDL_AudioDeviceID) :
  page_reachable argv1 captureId payloadLength a ->
  In (EvCloseAudioDevice d) (trace (world a)) -> d = 1%N.
Proof.
  unfold page_reachable. intros Hpage. revert d. revert a Hpage.
  apply (rtc_ind_r (fun a => forall d,
           In (EvCloseAudioDevice d) (trace (world a)) -> d = 1%N)).
  - intros d. unfold main_emscripten. destruct argv1; simpl; contradiction.
  - intros a a' _ Hstep IH d Hin.
    destruct (page_step_closes _ _ _ _ Hstep) as (evs & Htr & Hevs).
    rewrite Htr in Hin. apply in_app_iff in Hin as [Hin | Hin]; auto.
Qed.

End CaptureName.

Lemma capture_device_name_witness :
  exists w1 r w',
    GGWave_setDefaultCaptureDeviceName "mic"
      (initial_world (E := StubEngine)) = Some (tt, w1) /\
    GGWave_init hw_exact 0 (-1) 16 0 true w1 = Some (r, w') /\
    In (EvOpenAudioDevice (Some "mic"%string) SDL_TRUE
          (captureSpec 0 (g_obtainedSpecOut w')) 3%N) (new_events w1 w').
Proof.
  destruct (GGWave_setDefaultCaptureDeviceName "mic"
              (initial_world (E := StubEngine))) as [[[] w1] |] eqn:Hset;
    [| vm_compute in Hset; discriminate].
  destruct (GGWave_init hw_exact 0 (-1) 16 0 true w1) as [[r w'] |] eqn:Hrun;
    [| vm_compute in Hset; injection Hset as <-;
       vm_compute in Hrun; discriminate].
  assert (Hin : In (EvOpenAudioDevice (Some "mic"%string) SDL_TRUE
                      (captureSpec 0 (g_obtainedSpecOut w')) 3%N)
                   (new_events w1 w')).
  { vm_compute in Hset. injection Hset as <-.
    vm_compute in Hrun. injection Hrun as <- <-.
    vm_compute. auto 10. }
  destruct (capture_device_name "mic" hw_exact 0 (-1) 16 0 true r
              initial_world w1 w' _ _ _ Hset Hrun Hin) as (_ & Hname & _).
  exists w1, r, w'. split; [reflexivity |]. split; [exact Hrun |].
  exact Hin.
Defined.

Lemma page_never_closes_witness :
  ~ In (EvCloseAudioDevice 2%N) (trace (world a_rejected)).
Proof.
  intros Hin.
  pose proof (page_never_closes None 0 16 a_rejected 2%N a_rejected_reachable Hin)
    as Hd.
  discriminate Hd.
Defined.
